(** * xbmp: a shallow embedding of the BMP reader (reader.go)

    The Go decoder is embedded as Rocq functions over [Z] and lists of
    bytes.  Conventions:

    - [uint8]/[uint16]/[uint32] values are integers in their range, the
      wrap-around of an operation that can leave the range is written
      out ([uint32 z = z mod 2^32], ...).  [int] is the 64-bit signed
      integer of the platforms Go's image package is used on.
    - The input is an in-memory seekable stream (the behaviour of
      [bytes.Reader]): the data and a read offset.
    - A Go function returning [(v, err)] returns a pair whose second
      component is an [option error]; [None] is Go's [nil] error.
    - A call that does not return (run-time panic such as a negative
      shift count, a negative [make] length or an index out of range,
      or a loop that exhausts its iteration budget) is the [None] of
      the monad [M].  The pixel buffer of an image is allocated by
      [make], which panics above the size the run time accepts
      ([maxAlloc]); below it, memory is not bounded in the model.
    - The pixel buffers of Go's image package are addressed through
      their interface ([Set], [SetColorIndex], [SetRGBA64] and the
      matching [At] functions): a finite map from points to values,
      zero where nothing was stored. *)

From Stdlib Require Import ZArith List Lia Bool.
From Stdlib.Strings Require Import Byte.
From stdpp Require Import base option list gmap.
Import ListNotations.

#[local] Open Scope Z_scope.

(** ** Machine integers *)

Definition uint8 (z : Z) : Z := z mod 2 ^ 8.
Definition uint16 (z : Z) : Z := z mod 2 ^ 16.
Definition uint32 (z : Z) : Z := z mod 2 ^ 32.

(** Two's complement reinterpretation of a 32-bit word ([int32(u)]). *)
Definition int32 (z : Z) : Z :=
  let u := z mod 2 ^ 32 in if u <? 2 ^ 31 then u else u - 2 ^ 32.

(** Wrap-around of Go's [int] (64 bits, signed). *)
Definition int (z : Z) : Z :=
  let u := z mod 2 ^ 64 in if u <? 2 ^ 63 then u else u - 2 ^ 64.

Definition byteZ (b : byte) : Z := Z.of_N (Byte.to_N b).

(** [binary.LittleEndian.UintN] over a byte slice. *)
Fixpoint le (bs : list byte) : Z :=
  match bs with
  | [] => 0
  | b :: bs' => byteZ b + 256 * le bs'
  end.

(** [bs[lo:hi]] for a buffer whose length is known to cover [hi]. *)
Definition sub (bs : list byte) (lo hi : nat) : list byte :=
  take (hi - lo) (drop lo bs).

(** ** maskShift *)

(** First loop of [maskShift]:
    [for (mask&1) == 0 && mask != 0 { shift++; mask >>= 1 }]. *)
Fixpoint lowZeros (fuel : nat) (mask shift : Z) : option (Z * Z) :=
  match fuel with
  | O => None
  | S fuel' =>
      if (Z.land mask 1 =? 0) && negb (mask =? 0)
      then lowZeros fuel' (Z.shiftr mask 1) (shift + 1)
      else Some (mask, shift)
  end.

(** Second loop of [maskShift]:
    [for (mask & 1) == 1 { bits++; mask >>= 1 }]. *)
Fixpoint highOnes (fuel : nat) (mask bits : Z) : option (Z * Z) :=
  match fuel with
  | O => None
  | S fuel' =>
      if Z.land mask 1 =? 1
      then highOnes fuel' (Z.shiftr mask 1) (bits + 1)
      else Some (mask, bits)
  end.

(** Iteration budget of the two loops: a [uint32] has 32 bits, so each
    loop tests its condition at most 33 times. *)
Definition maskFuel : nat := 33.

Definition maskShift (mask : Z) : option (Z * Z) :=
  if mask =? 0 then Some (0, 0)
  else
    match lowZeros maskFuel mask 0 with
    | None => None
    | Some (mask1, shift) =>
        match highOnes maskFuel mask1 0 with
        | None => None
        | Some (_, bits) => Some (shift, bits)
        end
    end.

(** [s] is the index of the lowest set bit of [mask]. *)
Definition lowest_set_bit (mask s : Z) : Prop :=
  0 <= s /\ Z.testbit mask s = true /\
  forall i, 0 <= i < s -> Z.testbit mask i = false.

(** Exactly [w] consecutive bits of [mask] are set from index [s] on. *)
Definition run_from (mask s w : Z) : Prop :=
  0 <= w /\ (forall i, s <= i < s + w -> Z.testbit mask i = true) /\
  Z.testbit mask (s + w) = false.

(** The set bits of [mask] form one contiguous run: they are exactly
    the bits [s .. s+w-1]. *)
Definition contiguous_run (mask s w : Z) : Prop :=
  0 <= s /\
  forall i, 0 <= i -> Z.testbit mask i = (s <=? i) && (i <? s + w).

(** ** Colours and images (Go's [image/color] and [image]) *)

(** [color.RGBA]: four 8-bit channels. *)
Record RGBA := mkRGBA { RGBA_R : Z; RGBA_G : Z; RGBA_B : Z; RGBA_A : Z }.

(** [color.RGBA64]: four 16-bit channels. *)
Record RGBA64 :=
  mkRGBA64 { RGBA64_R : Z; RGBA64_G : Z; RGBA64_B : Z; RGBA64_A : Z }.

Record Rectangle := mkRect { MinX : Z; MinY : Z; MaxX : Z; MaxY : Z }.

(** [image.Rect]: the corners are swapped where needed, so that
    [Min <= Max] in both directions. *)
Definition Rect (x0 y0 x1 y1 : Z) : Rectangle :=
  let '(x0, x1) := if x1 <? x0 then (x1, x0) else (x0, x1) in
  let '(y0, y1) := if y1 <? y0 then (y1, y0) else (y0, y1) in
  mkRect x0 y0 x1 y1.

Definition Dx (r : Rectangle) : Z := MaxX r - MinX r.
Definition Dy (r : Rectangle) : Z := MaxY r - MinY r.

(** [Point{x, y}.In(r)]. *)
Definition inRect (x y : Z) (r : Rectangle) : bool :=
  (MinX r <=? x) && (x <? MaxX r) && (MinY r <=? y) && (y <? MaxY r).

(** [image.pixelBufferLength]: the constructors of the image package
    panic when the buffer length does not fit an [int]. *)
Definition pixelBufferLength (bytesPerPixel : Z) (r : Rectangle) : option Z :=
  let total := bytesPerPixel * Dx r * Dy r in
  if total <? 2 ^ 63 then Some total else None.

(** [image.Paletted]: palette indices per pixel and the shared palette. *)
Record Paletted := mkPaletted {
  pal_pix : gmap (Z * Z) Z;
  pal_rect : Rectangle;
  pal_palette : list RGBA
}.

(** [image.RGBA64]. *)
Record RGBA64Img := mkRGBA64Img {
  rgba64_pix : gmap (Z * Z) RGBA64;
  rgba64_rect : Rectangle
}.

(** [image.RGBA]. *)
Record RGBAImg := mkRGBAImg {
  rgba_pix : gmap (Z * Z) RGBA;
  rgba_rect : Rectangle
}.

(** The dynamic type behind an [image.Image] returned by the decoder. *)
Inductive Image :=
  | ImgPaletted (p : Paletted)
  | ImgRGBA64 (p : RGBA64Img)
  | ImgRGBA (p : RGBAImg).

(** The largest allocation the run time accepts: [maxAlloc] of Go's
    runtime on a 64-bit platform with 48-bit heap addresses
    (linux/amd64). *)
Definition maxAlloc : Z := 2 ^ 48.

(** [make([]uint8, n)] as the constructors below call it: the run-time
    function [makeslice] panics ("len out of range") on a negative
    length and on one above [maxAlloc]. *)
Definition makeslice (n : Z) : option Z :=
  if (n <? 0) || (maxAlloc <? n) then None else Some n.

(** [image.NewPaletted]:
    [Pix: make([]uint8, pixelBufferLength(1, r, ...))]. *)
Definition NewPaletted (r : Rectangle) (p : list RGBA) : option Paletted :=
  n ← pixelBufferLength 1 r; _ ← makeslice n; Some (mkPaletted ∅ r p).

(** [image.NewRGBA64]:
    [Pix: make([]uint8, pixelBufferLength(8, r, ...))]. *)
Definition NewRGBA64 (r : Rectangle) : option RGBA64Img :=
  n ← pixelBufferLength 8 r; _ ← makeslice n; Some (mkRGBA64Img ∅ r).

(** [image.NewRGBA]:
    [Pix: make([]uint8, pixelBufferLength(4, r, ...))]. *)
Definition NewRGBA (r : Rectangle) : option RGBAImg :=
  n ← pixelBufferLength 4 r; _ ← makeslice n; Some (mkRGBAImg ∅ r).

(** [Paletted.SetColorIndex]: a point outside the bounds is ignored. *)
Definition SetColorIndex (x y idx : Z) (p : Paletted) : Paletted :=
  if inRect x y (pal_rect p)
  then mkPaletted (<[(x, y) := idx]> (pal_pix p)) (pal_rect p) (pal_palette p)
  else p.

(** [Paletted.ColorIndexAt]. *)
Definition ColorIndexAt (p : Paletted) (x y : Z) : Z :=
  if inRect x y (pal_rect p) then default 0 (pal_pix p !! (x, y)) else 0.

(** [RGBA64.SetRGBA64]. *)
Definition SetRGBA64 (x y : Z) (c : RGBA64) (p : RGBA64Img) : RGBA64Img :=
  if inRect x y (rgba64_rect p)
  then mkRGBA64Img (<[(x, y) := c]> (rgba64_pix p)) (rgba64_rect p)
  else p.

(** [RGBA64.RGBA64At]. *)
Definition RGBA64At (p : RGBA64Img) (x y : Z) : RGBA64 :=
  if inRect x y (rgba64_rect p)
  then default (mkRGBA64 0 0 0 0) (rgba64_pix p !! (x, y))
  else mkRGBA64 0 0 0 0.

(** [RGBA.Set] on a [color.RGBA] value (its own colour model, hence
    stored unchanged). *)
Definition SetRGBA (x y : Z) (c : RGBA) (p : RGBAImg) : RGBAImg :=
  if inRect x y (rgba_rect p)
  then mkRGBAImg (<[(x, y) := c]> (rgba_pix p)) (rgba_rect p)
  else p.

(** [RGBA.RGBAAt]. *)
Definition RGBAAt (p : RGBAImg) (x y : Z) : RGBA :=
  if inRect x y (rgba_rect p)
  then default (mkRGBA 0 0 0 0) (rgba_pix p !! (x, y))
  else mkRGBA 0 0 0 0.

(** ** The input stream *)

Inductive error :=
  | EOF                    (* io.EOF *)
  | ErrUnexpectedEOF       (* io.ErrUnexpectedEOF *)
  | ErrNegativePosition    (* Seek to a negative position *)
  | ErrInvalidSignature    (* "invalid BMP signature" *)
  | ErrUnsupportedHeader   (* "unsupported BMP header" *)
  | ErrUnsupportedBitDepth (* "unsupported bit depth" *).

(** The spec's error taxonomy. *)
Definition IOError (e : error) : bool :=
  match e with
  | EOF | ErrUnexpectedEOF | ErrNegativePosition => true
  | _ => false
  end.

Definition FormatError (e : error) : bool := negb (IOError e).

Record Reader := mkReader { data : list byte; pos : Z }.

(** Computations over the stream; [None] is a call that does not
    return. *)
Definition M (A : Type) : Type := Reader → option (A * Reader).

#[local] Instance M_ret : MRet M := λ A a r, Some (a, r).

#[local] Instance M_bind : MBind M := λ A B f m r,
  match m r with
  | Some (a, r') => f a r'
  | None => None
  end.

Definition panic {A : Type} : M A := λ _, None.

(** An option-valued step inside [M]: its [None] is a panic. *)
Definition orPanic {A : Type} (o : option A) : M A := λ r,
  match o with
  | Some a => Some (a, r)
  | None => None
  end.

(** [io.ReadFull(r, buf)] with [len(buf) = n]: all [n] bytes, or [EOF]
    when none is left, or [ErrUnexpectedEOF] after a short read (which
    consumes what was left). *)
Definition ReadFull (n : Z) : M (list byte * option error) := λ r,
  let size := Z.of_nat (length (data r)) in
  let rest := drop (Z.to_nat (pos r)) (data r) in
  if n <=? 0 then Some (([], None), r)
  else if size <=? pos r then Some (([], Some EOF), r)
  else if size - pos r <? n
       then Some ((rest, Some ErrUnexpectedEOF), mkReader (data r) size)
       else Some ((take (Z.to_nat n) rest, None),
                  mkReader (data r) (pos r + n)).

(** [r.(io.Seeker).Seek(offset, io.SeekStart)]. *)
Definition Seek (offset : Z) : M (option error) := λ r,
  if offset <? 0 then Some (Some ErrNegativePosition, r)
  else Some (None, mkReader (data r) offset).

(** [make([]T, n)] panics on a negative length. *)
Definition make (n : Z) : M unit := λ r,
  if n <? 0 then None else Some ((), r).

(** [row[k]], with Go's bounds check. *)
Definition index (row : list byte) (k : Z) : option Z :=
  if k <? 0 then None else byteZ <$> row !! Z.to_nat k.

(** [buf[k]] where the index is known to be in range (0 otherwise). *)
Definition byteAt (buf : list byte) (k : Z) : Z := default 0 (index buf k).

(** [row[lo:hi]], with Go's bounds check. *)
Definition slice (row : list byte) (lo hi : Z) : option (list byte) :=
  if (0 <=? lo) && (lo <=? hi) && (hi <=? Z.of_nat (length row))
  then Some (sub row (Z.to_nat lo) (Z.to_nat hi))
  else None.

(** ** Headers *)

Definition bmpFileHeaderSize : Z := 14.
Definition coreHeaderSize : Z := 12.
Definition infoHeaderSize : Z := 40.
Definition biRGB : Z := 0.
Definition biBitFields : Z := 3.

Record FileHeader := mkFileHeader {
  Signature : list byte;
  FileSize : Z;
  Reserved : Z;
  DataOffset : Z
}.

Record InfoHeader := mkInfoHeader {
  Size : Z;
  Width : Z;
  Height : Z;
  Planes : Z;
  BitCount : Z;
  Compression : Z;
  SizeImage : Z;
  XPelsPerMeter : Z;
  YPelsPerMeter : Z;
  ClrUsed : Z;
  ClrImportant : Z;
  RedMask : Z;
  GreenMask : Z;
  BlueMask : Z;
  AlphaMask : Z
}.

(** [var info InfoHeader; info.Size = headerSize]. *)
Definition newInfo (headerSize : Z) : InfoHeader :=
  mkInfoHeader headerSize 0 0 0 0 0 0 0 0 0 0 0 0 0 0.

(** The five assignments that end either header branch. *)
Definition setFields (info : InfoHeader)
    (width height planes bitCount compression : Z) : InfoHeader :=
  mkInfoHeader (Size info) width height planes bitCount compression
    (SizeImage info) (XPelsPerMeter info) (YPelsPerMeter info)
    (ClrUsed info) (ClrImportant info)
    (RedMask info) (GreenMask info) (BlueMask info) (AlphaMask info).

(** [info.RedMask, info.GreenMask, info.BlueMask, info.AlphaMask = ...]. *)
Definition setMasks (info : InfoHeader) (r g b a : Z) : InfoHeader :=
  mkInfoHeader (Size info) (Width info) (Height info) (Planes info)
    (BitCount info) (Compression info)
    (SizeImage info) (XPelsPerMeter info) (YPelsPerMeter info)
    (ClrUsed info) (ClrImportant info) r g b a.

(** The ASCII literal "BM". *)
Definition BM : list byte := [x42; x4d].

#[local] Instance byte_eq_decision : EqDecision byte := Byte.byte_eq_dec.

(** [binary.Read(r, binary.LittleEndian, &fileHeader)] on the 14 bytes
    read: the fields are packed in declaration order. *)
Definition fileHeaderOf (buf : list byte) : FileHeader :=
  mkFileHeader (sub buf 0 2) (le (sub buf 2 6))
               (le (sub buf 6 10)) (le (sub buf 10 14)).

(** [Decode], the [switch headerSize] statement: the legacy core
    header, the 40-byte info header, or no supported header. *)
Definition headerSwitch (fileHeader : FileHeader) (headerSize : Z)
    : M (option (FileHeader * InfoHeader) * option error) :=
  let info := newInfo headerSize in
  if headerSize =? coreHeaderSize then
    '(core, err) ← ReadFull 8;
    match err with
    | Some e => mret (None, Some e)
    | None =>
      mret (Some (fileHeader,
                  setFields info
                    (int32 (le (sub core 0 2)))
                    (int32 (le (sub core 2 4)))
                    (le (sub core 4 6))
                    (le (sub core 6 8))
                    biRGB), None)
    end
  else if headerSize =? infoHeaderSize then
    '(remainingHeader, err) ← ReadFull (infoHeaderSize - 4);
    match err with
    | Some e => mret (None, Some e)
    | None =>
      mret (Some (fileHeader,
                  setFields info
                    (int32 (le (sub remainingHeader 0 4)))
                    (int32 (le (sub remainingHeader 4 8)))
                    (le (sub remainingHeader 8 10))
                    (le (sub remainingHeader 10 12))
                    (le (sub remainingHeader 12 16))), None)
    end
  else mret (None, Some ErrUnsupportedHeader).

(** [Decode], first part: the file header, the signature check, the
    header-size tag and the two header variants.  Returns the two
    headers, or the error [Decode] returns at that point. *)
Definition readHeaders : M (option (FileHeader * InfoHeader) * option error) :=
  '(buf, err) ← ReadFull bmpFileHeaderSize;
  match err with
  | Some e => mret (None, Some e)
  | None =>
    let fileHeader := fileHeaderOf buf in
    if negb (bool_decide (Signature fileHeader = BM))
    then mret (None, Some ErrInvalidSignature)
    else
      '(buf, err) ← ReadFull 4;
      match err with
      | Some e => mret (None, Some e)
      | None => headerSwitch fileHeader (le buf)
      end
  end.

(** ** parsePalette *)

(** The loop of [parsePalette].  The slice is allocated up front and
    filled by index in increasing order; a partly filled slice never
    leaves the function, so the model appends. *)
Fixpoint paletteLoop (count : nat) (palette : list RGBA)
    : M (list RGBA * option error) :=
  match count with
  | O => mret (palette, None)
  | S count' =>
      '(bgr, err) ← ReadFull 4;
      match err with
      | Some e => mret ([], Some e)
      | None =>
          paletteLoop count'
            (palette ++ [mkRGBA (byteAt bgr 2) (byteAt bgr 1)
                                (byteAt bgr 0) 255])
      end
  end.

Definition parsePalette (info : InfoHeader) : M (list RGBA * option error) :=
  if (8 <? BitCount info) && (ClrUsed info =? 0) then mret ([], None)
  else
    let entries := int (Z.shiftl 1 (BitCount info)) in
    let entries := if 0 <? ClrUsed info then ClrUsed info else entries in
    _ ← make entries;
    paletteLoop (Z.to_nat entries) [].

(** ** Pixel data *)

(** [for x := 0; x < n; x++ { body }], the body may panic. *)
Fixpoint forRange {St : Type} (count : nat) (x : Z)
    (body : Z → St → option St) (st : St) : option St :=
  match count with
  | O => Some st
  | S count' =>
      match body x st with
      | None => None
      | Some st' => forRange count' (x + 1) body st'
      end
  end.

(** The scanline loop all four readers share:
    [for y := 0; y < n; y++ { ReadFull(r, row) or return err; body }].
    The image is updated in place, so the rows stored before a failed
    read stay in it. *)
Fixpoint scanRows {I : Type} (count : nat) (y : Z) (bytesPerRow : Z)
    (body : Z → list byte → I → option I) (img : I) : M (I * option error) :=
  match count with
  | O => mret (img, None)
  | S count' =>
      '(row, err) ← ReadFull bytesPerRow;
      match err with
      | Some e => mret (img, Some e)
      | None =>
          img' ← orPanic (body y row img);
          scanRows count' (y + 1) bytesPerRow body img'
      end
  end.

(** [height := int(info.Height); if height < 0 { height = -height }]. *)
Definition absHeight (info : InfoHeader) : Z :=
  if Height info <? 0 then - Height info else Height info.

(** [targetY := y; if info.Height > 0 { targetY = height - 1 - y }]. *)
Definition targetRow (info : InfoHeader) (height y : Z) : Z :=
  if 0 <? Height info then height - 1 - y else y.

(** *** 1/4/8 bits: readIndexedData *)

(** Body of the column loop of [readIndexedData], up to the extracted
    colour index ([idx := (b >> bitOffset) & bitMask]). *)
Definition extractIndex (info : InfoHeader) (row : list byte) (x : Z)
    : option Z :=
  let bitsPerPixel := BitCount info in
  let pixelsPerByte := 8 ÷ bitsPerPixel in
  let bitMask := uint8 (Z.shiftl 1 bitsPerPixel - 1) in
  if pixelsPerByte =? 0 then None (* integer divide by zero *)
  else
    let bytePos := x ÷ pixelsPerByte in
    let bitOffset := Z.rem x pixelsPerByte * bitsPerPixel in
    let bitOffset := if BitCount info =? 1 then 7 - bitOffset else bitOffset in
    b ← index row bytePos;
    Some (Z.land (Z.shiftr b bitOffset) bitMask).

(** Body of the column loop of [readIndexedData]:
    [img.SetColorIndex(x, targetY, idx)] on the extracted index. *)
Definition indexedPixel (info : InfoHeader) (row : list byte) (targetY x : Z)
    (img : Paletted) : option Paletted :=
  idx ← extractIndex info row x;
  Some (SetColorIndex x targetY idx img).

Definition indexedBytesPerRow (info : InfoHeader) : Z :=
  (Width info * BitCount info + 31) ÷ 32 * 4.

Definition readIndexedData (img : Paletted) (info : InfoHeader)
    : M (Paletted * option error) :=
  let width := Width info in
  let height := absHeight info in
  if BitCount info =? 0 then panic (* integer divide by zero *)
  else
    let bytesPerRow := indexedBytesPerRow info in
    _ ← make bytesPerRow;
    scanRows (Z.to_nat height) 0 bytesPerRow
      (λ y row img,
         forRange (Z.to_nat width) 0
           (indexedPixel info row (targetRow info height y)) img)
      img.

(** *** 16 bits: read16BitData *)

(** One channel of a 16-bit pixel:
    [c := uint32(pixel) & mask; c = (c >> shift) << (16 - bits);
     c |= c >> bits].  A negative shift count panics. *)
Definition channel16 (pixel mask shift bits : Z) : option Z :=
  let c := Z.land pixel mask in
  if 16 - bits <? 0 then None
  else
    let c := uint32 (Z.shiftl (Z.shiftr c shift) (16 - bits)) in
    Some (Z.lor c (Z.shiftr c bits)).

(** Body of the column loop of [read16BitData], up to the colour:
    the little-endian 16-bit word of column [x] and its three
    channels; alpha is opaque. *)
Definition color16 (masks : Z * Z * Z) (rsb gsb bsb : Z * Z)
    (row : list byte) (x : Z) : option RGBA64 :=
  let '(redMask, greenMask, blueMask) := masks in
  pixel ← le <$> slice row (x * 2) (x * 2 + 2);
  r ← channel16 pixel redMask rsb.1 rsb.2;
  g ← channel16 pixel greenMask gsb.1 gsb.2;
  b ← channel16 pixel blueMask bsb.1 bsb.2;
  Some (mkRGBA64 (uint16 r) (uint16 g) (uint16 b) 0xFFFF).

(** Body of the column loop of [read16BitData]:
    [img.SetRGBA64(x, targetY, ...)] on that colour. *)
Definition pixel16 (masks : Z * Z * Z) (rsb gsb bsb : Z * Z)
    (row : list byte) (targetY x : Z) (img : RGBA64Img) : option RGBA64Img :=
  c ← color16 masks rsb gsb bsb row x;
  Some (SetRGBA64 x targetY c img).

Definition bytesPerRow16 (info : InfoHeader) : Z :=
  Z.ldiff (Width info * 2 + 3) 3.

(** The masks in force: RGB565 unless the compression is bit-fields. *)
Definition masks16 (info : InfoHeader) : Z * Z * Z :=
  if Compression info =? biBitFields
  then (RedMask info, GreenMask info, BlueMask info)
  else (0xF800, 0x07E0, 0x001F).

Definition read16BitData (img : RGBA64Img) (info : InfoHeader)
    : M (option Image * option error) :=
  let width := Width info in
  let height := absHeight info in
  let '(redMask, greenMask, blueMask) := masks16 info in
  rsb ← orPanic (maskShift redMask);
  gsb ← orPanic (maskShift greenMask);
  bsb ← orPanic (maskShift blueMask);
  let bytesPerRow := bytesPerRow16 info in
  _ ← make bytesPerRow;
  '(img', err) ←
    scanRows (Z.to_nat height) 0 bytesPerRow
      (λ y row img,
         forRange (Z.to_nat width) 0
           (pixel16 (redMask, greenMask, blueMask) rsb gsb bsb row
                    (targetRow info height y)) img)
      img;
  match err with
  | Some e => mret (None, Some e)
  | None => mret (Some (ImgRGBA64 img'), None)
  end.

(** *** 32 bits: read32BitData *)

(** Body of the column loop of [read32BitData], up to the colour:
    each channel is [byte((pixel & mask) >> shift)], alpha is opaque
    when its mask is zero. *)
Definition color32 (masks : Z * Z * Z * Z) (shifts : Z * Z * Z * Z)
    (row : list byte) (x : Z) : option RGBA :=
  let '(redMask, greenMask, blueMask, alphaMask) := masks in
  let '(rShift, gShift, bShift, aShift) := shifts in
  pixel ← le <$> slice row (x * 4) (x * 4 + 4);
  let r := uint8 (Z.shiftr (Z.land pixel redMask) rShift) in
  let g := uint8 (Z.shiftr (Z.land pixel greenMask) gShift) in
  let b := uint8 (Z.shiftr (Z.land pixel blueMask) bShift) in
  let a := uint8 (Z.shiftr (Z.land pixel alphaMask) aShift) in
  let a := if alphaMask =? 0 then 0xFF else a in
  Some (mkRGBA r g b a).

(** Body of the column loop of [read32BitData]:
    [img.Set(x, targetY, ...)] on that colour. *)
Definition pixel32 (masks : Z * Z * Z * Z) (shifts : Z * Z * Z * Z)
    (row : list byte) (targetY x : Z) (img : RGBAImg) : option RGBAImg :=
  c ← color32 masks shifts row x;
  Some (SetRGBA x targetY c img).

Definition bytesPerRow32 (info : InfoHeader) : Z := Width info * 4.

(** The masks in force: BGRA bytes unless the compression is
    bit-fields. *)
Definition masks32 (info : InfoHeader) : Z * Z * Z * Z :=
  if Compression info =? biBitFields
  then (RedMask info, GreenMask info, BlueMask info, AlphaMask info)
  else (0x00FF0000, 0x0000FF00, 0x000000FF, 0xFF000000).

Definition read32BitData (img : RGBAImg) (info : InfoHeader)
    : M (option Image * option error) :=
  let width := Width info in
  let height := absHeight info in
  let '(redMask, greenMask, blueMask, alphaMask) := masks32 info in
  rsb ← orPanic (maskShift redMask);
  gsb ← orPanic (maskShift greenMask);
  bsb ← orPanic (maskShift blueMask);
  asb ← orPanic (maskShift alphaMask);
  let bytesPerRow := bytesPerRow32 info in
  _ ← make bytesPerRow;
  '(img', err) ←
    scanRows (Z.to_nat height) 0 bytesPerRow
      (λ y row img,
         forRange (Z.to_nat width) 0
           (pixel32 (redMask, greenMask, blueMask, alphaMask)
                    (rsb.1, gsb.1, bsb.1, asb.1) row
                    (targetRow info height y)) img)
      img;
  match err with
  | Some e => mret (None, Some e)
  | None => mret (Some (ImgRGBA img'), None)
  end.

(** *** 24 bits: read24BitData *)

(** Body of the column loop of [read24BitData], up to the colour:
    the three bytes at [x * 3] are blue, green, red. *)
Definition color24 (row : list byte) (x : Z) : option RGBA :=
  let offset := x * 3 in
  r ← index row (offset + 2);
  g ← index row (offset + 1);
  b ← index row offset;
  Some (mkRGBA r g b 255).

(** Body of the column loop of [read24BitData]:
    [img.Set(x, targetY, ...)] on that colour. *)
Definition pixel24 (row : list byte) (targetY x : Z) (img : RGBAImg)
    : option RGBAImg :=
  c ← color24 row x;
  Some (SetRGBA x targetY c img).

Definition bytesPerRow24 (info : InfoHeader) : Z :=
  Z.ldiff (Width info * 3 + 3) 3.

(** Unlike its siblings, [read24BitData] loops up to [int(info.Height)]
    as declared, without taking the absolute value. *)
Definition read24BitData (img : RGBAImg) (info : InfoHeader)
    : M (option Image * option error) :=
  let bytesPerRow := bytesPerRow24 info in
  _ ← make bytesPerRow;
  '(img', err) ←
    scanRows (Z.to_nat (Height info)) 0 bytesPerRow
      (λ y row img,
         forRange (Z.to_nat (Width info)) 0
           (pixel24 row (targetRow info (Height info) y)) img)
      img;
  match err with
  | Some e => mret (None, Some e)
  | None => mret (Some (ImgRGBA img'), None)
  end.

(** *** decodePixelData *)

Definition decodePixelData (info : InfoHeader) (palette : list RGBA)
    : M (option Image * option error) :=
  let width := Width info in
  let height := absHeight info in
  let rect := Rect 0 0 width height in
  let bc := BitCount info in
  if (bc =? 1) || (bc =? 4) || (bc =? 8) then
    img ← orPanic (NewPaletted rect palette);
    '(img', err) ← readIndexedData img info;
    mret (Some (ImgPaletted img'), err)
  else if bc =? 16 then
    img ← orPanic (NewRGBA64 rect);
    read16BitData img info
  else if bc =? 24 then
    img ← orPanic (NewRGBA rect);
    read24BitData img info
  else if bc =? 32 then
    img ← orPanic (NewRGBA rect);
    read32BitData img info
  else mret (None, Some ErrUnsupportedBitDepth).

(** ** Decode *)

(** The bit-field step of [Decode]: four little-endian 32-bit masks
    when the compression is [biBitFields]. *)
Definition readMasks (info : InfoHeader) : M (InfoHeader * option error) :=
  if Compression info =? biBitFields then
    '(buf, err) ← ReadFull 16;
    match err with
    | Some e => mret (info, Some e)
    | None =>
        mret (setMasks info (le (sub buf 0 4)) (le (sub buf 4 8))
                            (le (sub buf 8 12)) (le (sub buf 12 16)), None)
    end
  else mret (info, None).

(** [Decode], second part: palette, masks, seek, pixel data. *)
Definition decodeBody (fileHeader : FileHeader) (info : InfoHeader)
    : M (option Image * option error) :=
  '(palette, err) ← parsePalette info;
  match err with
  | Some e => mret (None, Some e)
  | None =>
      '(info, err) ← readMasks info;
      match err with
      | Some e => mret (None, Some e)
      | None =>
          err ← Seek (DataOffset fileHeader);
          match err with
          | Some e => mret (None, Some e)
          | None => decodePixelData info palette
          end
      end
  end.

Definition Decode : M (option Image * option error) :=
  '(headers, err) ← readHeaders;
  match headers with
  | Some (fileHeader, info) => decodeBody fileHeader info
  | None => mret (None, err)
  end.

(** A stream as [Decode] receives it: the bytes of the file, read from
    the start. *)
Definition stream (bs : list byte) : Reader := mkReader bs 0.

(** ** Pixel stores *)

(** What the readers use of an image type of Go's image package: its
    bounds, storing a pixel value and reading it back. *)
Class PixelStore (I V : Type) := {
  bounds : I → Rectangle;
  store : Z → Z → V → I → I;
  pixelAt : I → Z → Z → V;
  bounds_store : forall x y v p, bounds (store x y v p) = bounds p;
  pixelAt_store_eq : forall x y v p,
    inRect x y (bounds p) = true -> pixelAt (store x y v p) x y = v;
  pixelAt_store_ne : forall x y v p x' y',
    (x, y) ≠ (x', y') -> pixelAt (store x y v p) x' y' = pixelAt p x' y'
}.

#[local, refine] Instance Paletted_store : PixelStore Paletted Z := {
  bounds := pal_rect;
  store := SetColorIndex;
  pixelAt := ColorIndexAt
}.
Proof.
  - intros x y v p. unfold SetColorIndex. now destruct (inRect x y (pal_rect p)).
  - intros x y v p Hin. unfold ColorIndexAt, SetColorIndex. rewrite Hin.
    cbn. rewrite Hin. now rewrite lookup_insert_eq.
  - intros x y v p x' y' Hne. unfold ColorIndexAt, SetColorIndex.
    destruct (inRect x y (pal_rect p)); [|reflexivity].
    cbn. now rewrite lookup_insert_ne.
Defined.

#[local, refine] Instance RGBA64_store : PixelStore RGBA64Img RGBA64 := {
  bounds := rgba64_rect;
  store := SetRGBA64;
  pixelAt := RGBA64At
}.
Proof.
  - intros x y v p. unfold SetRGBA64. now destruct (inRect x y (rgba64_rect p)).
  - intros x y v p Hin. unfold RGBA64At, SetRGBA64. rewrite Hin.
    cbn. rewrite Hin. now rewrite lookup_insert_eq.
  - intros x y v p x' y' Hne. unfold RGBA64At, SetRGBA64.
    destruct (inRect x y (rgba64_rect p)); [|reflexivity].
    cbn. now rewrite lookup_insert_ne.
Defined.

#[local, refine] Instance RGBA_store : PixelStore RGBAImg RGBA := {
  bounds := rgba_rect;
  store := SetRGBA;
  pixelAt := RGBAAt
}.
Proof.
  - intros x y v p. unfold SetRGBA. now destruct (inRect x y (rgba_rect p)).
  - intros x y v p Hin. unfold RGBAAt, SetRGBA. rewrite Hin.
    cbn. rewrite Hin. now rewrite lookup_insert_eq.
  - intros x y v p x' y' Hne. unfold RGBAAt, SetRGBA.
    destruct (inRect x y (rgba_rect p)); [|reflexivity].
    cbn. now rewrite lookup_insert_ne.
Defined.

(** ** Notions the statements use *)


(** The [n] bytes of the stream from offset [off] on: a scanline. *)
Definition scanline (bs : list byte) (off n : Z) : list byte :=
  take (Z.to_nat n) (drop (Z.to_nat off) bs).

(** The number of palette entries the spec gives: the colour-used
    count when nonzero, else [2^bitCount]. *)
Definition entryCount (info : InfoHeader) : Z :=
  if ClrUsed info =? 0 then 2 ^ BitCount info else ClrUsed info.

(** The palette entry stored at offset [off]: blue, green, red and a
    reserved byte on disk; opaque alpha. *)
Definition entryAt (bs : list byte) (off : Z) : RGBA :=
  mkRGBA (byteAt bs (off + 2)) (byteAt bs (off + 1)) (byteAt bs off) 255.

(** A header with the given dimensions and bit depth, no compression. *)
Definition plainInfo (width height bitCount : Z) : InfoHeader :=
  setFields (newInfo infoHeaderSize) width height 1 bitCount biRGB.

(** The same image with another palette. *)
Definition withPalette (palette : list RGBA) (img : Paletted) : Paletted :=
  mkPaletted (pal_pix img) (pal_rect img) palette.

(** What holds of the two headers whenever the header stage returns
    them: the ranges of the fields, and the fields it never fills. *)
Definition headerInvariant (fh : FileHeader) (info : InfoHeader) : Prop :=
  Signature fh = BM /\ 0 <= DataOffset fh < 2 ^ 32 /\
  (Size info = 12 \/ Size info = 40) /\
  - 2 ^ 31 <= Width info < 2 ^ 31 /\ - 2 ^ 31 <= Height info < 2 ^ 31 /\
  0 <= Planes info < 2 ^ 16 /\ 0 <= BitCount info < 2 ^ 16 /\
  0 <= Compression info < 2 ^ 32 /\
  (Size info = 12 ->
     0 <= Width info < 2 ^ 16 /\ 0 <= Height info < 2 ^ 16 /\
     Compression info = biRGB) /\
  SizeImage info = 0 /\ ClrUsed info = 0 /\ ClrImportant info = 0 /\
  RedMask info = 0 /\ GreenMask info = 0 /\ BlueMask info = 0 /\
  AlphaMask info = 0.

(** *** The metadata of a stream, as [Decode] reads it *)

(** The header-size tag at offset 14. *)
Definition headerTag (bs : list byte) : Z := le (sub bs 14 18).

(** The header fields [Decode] stores: from the 8 bytes of the 12-byte
    header, or from the first 16 bytes of the 40-byte one. *)
Definition headerInfo (bs : list byte) : InfoHeader :=
  if headerTag bs =? coreHeaderSize
  then setFields (newInfo coreHeaderSize)
         (le (sub bs 18 20)) (le (sub bs 20 22))
         (le (sub bs 22 24)) (le (sub bs 24 26)) biRGB
  else setFields (newInfo (headerTag bs))
         (int32 (le (sub bs 18 22))) (int32 (le (sub bs 22 26)))
         (le (sub bs 26 28)) (le (sub bs 28 30)) (le (sub bs 30 34)).

(** The offset right after the header. *)
Definition headerEnd (bs : list byte) : Z :=
  if headerTag bs =? coreHeaderSize then 26 else 54.

(** The palette that follows the header: [2^bitCount] entries of four
    bytes for a depth up to 8, none above. *)
Definition streamPalette (bs : list byte) : list RGBA :=
  if 8 <? BitCount (headerInfo bs) then []
  else map (λ i : nat, entryAt bs (headerEnd bs + 4 * Z.of_nat i))
           (seq 0 (Z.to_nat (2 ^ BitCount (headerInfo bs)))).

(** The offset right after the palette. *)
Definition paletteEnd (bs : list byte) : Z :=
  headerEnd bs +
  (if 8 <? BitCount (headerInfo bs) then 0
   else 4 * 2 ^ BitCount (headerInfo bs)).

(** The header with the four masks that follow the palette, when the
    compression is bit-fields. *)
Definition streamInfo (bs : list byte) : InfoHeader :=
  let info := headerInfo bs in
  let p := Z.to_nat (paletteEnd bs) in
  if Compression info =? biBitFields
  then setMasks info (le (sub bs p (p + 4))) (le (sub bs (p + 4) (p + 8)))
                     (le (sub bs (p + 8) (p + 12)))
                     (le (sub bs (p + 12) (p + 16)))
  else info.

(** The offset right after the masks: the end of what [Decode] reads
    before it seeks to the pixel data. *)
Definition metadataEnd (bs : list byte) : Z :=
  paletteEnd bs +
  (if Compression (headerInfo bs) =? biBitFields then 16 else 0).

(** The same result image with another palette, when it has one. *)
Definition repalette (palette : list RGBA) (oimg : option Image)
    : option Image :=
  match oimg with
  | Some (ImgPaletted p) => Some (ImgPaletted (withPalette palette p))
  | _ => oimg
  end.

(** The scanline length the reader of the header's depth uses. *)
Definition rowBytes (info : InfoHeader) : Z :=
  let bc := BitCount info in
  if (bc =? 1) || (bc =? 4) || (bc =? 8) then indexedBytesPerRow info
  else if bc =? 16 then bytesPerRow16 info
  else if bc =? 24 then bytesPerRow24 info
  else bytesPerRow32 info.

(** The number of scanlines the reader of the header's depth reads:
    the absolute value of the declared height, but for 24 bits the
    declared height when positive and none otherwise. *)
Definition rowCount (info : InfoHeader) : Z :=
  if BitCount info =? 24 then Z.max 0 (Height info) else absHeight info.

(** The bytes one pixel takes in the buffer of the image the header's
    depth gives: 1 in [image.Paletted], 8 in [image.RGBA64], 4 in
    [image.RGBA]. *)
Definition pixelBytes (info : InfoHeader) : Z :=
  let bc := BitCount info in
  if (bc =? 1) || (bc =? 4) || (bc =? 8) then 1
  else if bc =? 16 then 8 else 4.

(** ** Sample streams *)

(** Two bytes that are not "BM", and nothing else. *)
Definition shortStream : list byte := [x58; x59].

(** Fourteen bytes, the first two not "BM". *)
Definition badSignature : list byte :=
  [x58; x59; x00; x00; x00; x00; x00; x00; x00; x00; x00; x00; x00; x00].

(** A 1-bit 1x1 image with a core header and its two palette entries;
    the pixel data (offset 34) is missing. *)
Definition truncatedIndexed : list byte :=
  [x42; x4d; x00; x00; x00; x00; x00; x00; x00; x00; x22; x00; x00; x00;
   x0c; x00; x00; x00; x01; x00; x01; x00; x01; x00; x01; x00;
   x00; x00; x00; x00; xff; xff; xff; x00].

(** A 40-byte header of a 24-bit image, 1 wide, declared height -2
    (top-down); two scanlines: BGR = 1,2,3 and BGR = 4,5,6, each padded
    to four bytes. *)
Definition topDown24 : list byte :=
  [x42; x4d; x00; x00; x00; x00; x00; x00; x00; x00; x36; x00; x00; x00;
   x28; x00; x00; x00; x01; x00; x00; x00; xfe; xff; xff; xff; x01; x00;
   x18; x00; x00; x00; x00; x00; x00; x00; x00; x00; x00; x00; x00; x00;
   x00; x00; x00; x00; x00; x00; x00; x00; x00; x00; x00; x00;
   x01; x02; x03; x00; x04; x05; x06; x00].

(** The same image with declared height +2 (bottom-up). *)
Definition bottomUp24 : list byte :=
  [x42; x4d; x00; x00; x00; x00; x00; x00; x00; x00; x36; x00; x00; x00;
   x28; x00; x00; x00; x01; x00; x00; x00; x02; x00; x00; x00; x01; x00;
   x18; x00; x00; x00; x00; x00; x00; x00; x00; x00; x00; x00; x00; x00;
   x00; x00; x00; x00; x00; x00; x00; x00; x00; x00; x00; x00;
   x01; x02; x03; x00; x04; x05; x06; x00].

(** A 16-bit 1x1 bit-fields image: masks 0xF800, 0x07E0, 0x001F, 0 and
    the pixel word 0xFFFF at offset 70. *)
Definition white565 : list byte :=
  [x42; x4d; x00; x00; x00; x00; x00; x00; x00; x00; x46; x00; x00; x00;
   x28; x00; x00; x00; x01; x00; x00; x00; x01; x00; x00; x00; x01; x00;
   x10; x00; x03; x00; x00; x00; x00; x00; x00; x00; x00; x00; x00; x00;
   x00; x00; x00; x00; x00; x00; x00; x00; x00; x00; x00; x00;
   x00; xf8; x00; x00; xe0; x07; x00; x00; x1f; x00; x00; x00;
   x00; x00; x00; x00;
   xff; xff; x00; x00].

(** A 4-bit 2x1 image with a core header, sixteen grey palette entries
    and one scanline whose first byte is 0x12. *)
Definition nibbles : list byte :=
  [x42; x4d; x00; x00; x00; x00; x00; x00; x00; x00; x5a; x00; x00; x00;
   x0c; x00; x00; x00; x02; x00; x01; x00; x01; x00; x04; x00;
   x00; x00; x00; x00; x01; x01; x01; x00; x02; x02; x02; x00;
   x03; x03; x03; x00; x04; x04; x04; x00; x05; x05; x05; x00;
   x06; x06; x06; x00; x07; x07; x07; x00; x08; x08; x08; x00;
   x09; x09; x09; x00; x0a; x0a; x0a; x00; x0b; x0b; x0b; x00;
   x0c; x0c; x0c; x00; x0d; x0d; x0d; x00; x0e; x0e; x0e; x00;
   x0f; x0f; x0f; x00;
   x12; x00; x00; x00].

(** A core header that declares 2 bits per pixel, and the four palette
    entries this depth asks for. *)
Definition depth2 : list byte :=
  [x42; x4d; x00; x00; x00; x00; x00; x00; x00; x00; x2a; x00; x00; x00;
   x0c; x00; x00; x00; x01; x00; x01; x00; x01; x00; x02; x00;
   x00; x00; x00; x00; x01; x01; x01; x00; x02; x02; x02; x00;
   x03; x03; x03; x00].

(** A 16-bit 1x1 bit-fields image whose red mask 0x0001FFFF is 17 bits
    wide; the pixel word at offset 70. *)
Definition wideMask16 : list byte :=
  [x42; x4d; x00; x00; x00; x00; x00; x00; x00; x00; x46; x00; x00; x00;
   x28; x00; x00; x00; x01; x00; x00; x00; x01; x00; x00; x00; x01; x00;
   x10; x00; x03; x00; x00; x00; x00; x00; x00; x00; x00; x00; x00; x00;
   x00; x00; x00; x00; x00; x00; x00; x00; x00; x00; x00; x00;
   xff; xff; x01; x00; xe0; x07; x00; x00; x1f; x00; x00; x00;
   x00; x00; x00; x00;
   xff; xff; x00; x00].

(** * Theorems *)

Section MaskShift.

Lemma land1_odd (m : Z) : Z.land m 1 = Z.b2z (Z.odd m).
Proof.
  change 1 with (Z.ones 1). rewrite Z.land_ones by lia.
  change (2 ^ 1) with 2. rewrite <- Z.bit0_mod. now rewrite Z.bit0_odd.
Qed.

Lemma land1_eq0 (m : Z) : (Z.land m 1 =? 0) = negb (Z.testbit m 0).
Proof. rewrite land1_odd, Z.bit0_odd. now destruct (Z.odd m). Qed.

Lemma land1_eq1 (m : Z) : (Z.land m 1 =? 1) = Z.testbit m 0.
Proof. rewrite land1_odd, Z.bit0_odd. now destruct (Z.odd m). Qed.

Lemma shiftr1_bound (m : Z) (n : nat) :
  0 <= m < 2 ^ Z.of_nat (S n) -> 0 <= Z.shiftr m 1 < 2 ^ Z.of_nat n.
Proof.
  intros [H0 H1]. rewrite Z.shiftr_div_pow2 by lia. change (2 ^ 1) with 2.
  rewrite Nat2Z.inj_succ, Z.pow_succ_r in H1 by lia.
  split; [apply Z.div_pos; lia | apply Z.div_lt_upper_bound; lia].
Qed.

Lemma shiftr1_pos (m : Z) :
  0 < m -> Z.testbit m 0 = false -> 0 < Z.shiftr m 1.
Proof.
  intros Hm Hb. rewrite Z.shiftr_div_pow2 by lia. change (2 ^ 1) with 2.
  rewrite Z.bit0_odd in Hb.
  assert (m <> 1) by (intros ->; discriminate).
  apply Z.div_str_pos; lia.
Qed.

Lemma lowZeros_S (fuel : nat) (mask shift : Z) :
  lowZeros (S fuel) mask shift =
  if (Z.land mask 1 =? 0) && negb (mask =? 0)
  then lowZeros fuel (Z.shiftr mask 1) (shift + 1)
  else Some (mask, shift).
Proof. reflexivity. Qed.

Lemma highOnes_S (fuel : nat) (mask bits : Z) :
  highOnes (S fuel) mask bits =
  if Z.land mask 1 =? 1
  then highOnes fuel (Z.shiftr mask 1) (bits + 1)
  else Some (mask, bits).
Proof. reflexivity. Qed.

(** The first loop stops at the lowest set bit. *)
Lemma lowZeros_spec (n : nat) : forall mask shift,
  0 < mask < 2 ^ Z.of_nat n ->
  exists t, lowZeros (S n) mask shift = Some (Z.shiftr mask t, shift + t) /\
            0 <= t /\ lowest_set_bit mask t /\
            0 < Z.shiftr mask t < 2 ^ Z.of_nat n.
Proof.
  induction n as [|n IH]; intros mask shift Hm.
  - simpl in Hm. lia.
  - rewrite lowZeros_S, land1_eq0.
    destruct (Z.testbit mask 0) eqn:Hb; cbn [negb andb].
    + exists 0. rewrite Z.shiftr_0_r, Z.add_0_r.
      split; [reflexivity|]. split; [lia|]. split; [|lia].
      split; [lia|]. split; [assumption|]. intros i Hi; lia.
    + replace (mask =? 0) with false by (symmetry; apply Z.eqb_neq; lia).
      cbn [negb].
      assert (Hpos := shiftr1_pos mask ltac:(lia) Hb).
      assert (Hbd := shiftr1_bound mask n ltac:(lia)).
      destruct (IH (Z.shiftr mask 1) (shift + 1) ltac:(lia))
        as (t & Heq & Ht & (_ & Hset & Hlow) & Hrange).
      exists (t + 1).
      rewrite Z.shiftr_shiftr in Heq, Hrange by lia.
      rewrite Z.shiftr_spec in Hset by lia.
      replace (1 + t) with (t + 1) in * by lia.
      split.
      { rewrite Heq. f_equal. f_equal. lia. }
      split; [lia|]. split.
      { split; [lia|]. split; [assumption|].
        intros i Hi. destruct (Z.eq_dec i 0) as [->|Hne]; [assumption|].
        specialize (Hlow (i - 1) ltac:(lia)).
        rewrite Z.shiftr_spec in Hlow by lia.
        now replace (i - 1 + 1) with i in Hlow by lia. }
      split; [lia|].
      destruct Hrange as [_ Hr].
      eapply Z.lt_trans; [exact Hr|].
      apply Z.pow_lt_mono_r; lia.
Qed.

(** The second loop counts the set bits from bit 0 up to the first
    clear bit. *)
Lemma highOnes_spec (n : nat) : forall mask bits,
  0 <= mask < 2 ^ Z.of_nat n ->
  exists w m', highOnes (S n) mask bits = Some (m', bits + w) /\
               run_from mask 0 w.
Proof.
  induction n as [|n IH]; intros mask bits Hm.
  - assert (mask = 0) by (simpl in Hm; lia). subst mask.
    exists 0, 0. cbn. split; [now rewrite Z.add_0_r|].
    split; [lia|]. split; [intros i Hi; lia | reflexivity].
  - rewrite highOnes_S, land1_eq1.
    destruct (Z.testbit mask 0) eqn:Hb.
    + destruct (IH (Z.shiftr mask 1) (bits + 1) (shiftr1_bound mask n Hm))
        as (w & m' & Heq & Hw & Hones & Hstop).
      exists (w + 1), m'. split.
      { rewrite Heq. f_equal. f_equal. lia. }
      split; [lia|]. split.
      * intros i Hi. destruct (Z.eq_dec i 0) as [->|Hne]; [assumption|].
        specialize (Hones (i - 1) ltac:(lia)).
        rewrite Z.shiftr_spec in Hones by lia.
        now replace (i - 1 + 1) with i in Hones by lia.
      * rewrite Z.shiftr_spec in Hstop by lia.
        now replace (0 + (w + 1)) with (0 + w + 1) by lia.
    + exists 0, mask. split; [now rewrite Z.add_0_r|].
      split; [lia|]. split; [intros i Hi; lia | assumption].
Qed.

Lemma run_from_shiftr (mask s w : Z) :
  0 <= s -> run_from (Z.shiftr mask s) 0 w -> run_from mask s w.
Proof.
  intros Hs (Hw & Hones & Hstop). split; [assumption|]. split.
  - intros i Hi. specialize (Hones (i - s) ltac:(lia)).
    rewrite Z.shiftr_spec in Hones by lia.
    now replace (i - s + s) with i in Hones by lia.
  - rewrite Z.shiftr_spec in Hstop by lia.
    now replace (0 + w + s) with (s + w) in Hstop by lia.
Qed.

(** What [maskShift] returns on any nonzero 32-bit mask. *)
Lemma maskShift_nonzero (mask : Z) :
  0 < mask < 2 ^ 32 ->
  exists s w, maskShift mask = Some (s, w) /\
              lowest_set_bit mask s /\ run_from mask s w.
Proof.
  intros Hm. unfold maskShift.
  replace (mask =? 0) with false by (symmetry; apply Z.eqb_neq; lia).
  destruct (lowZeros_spec 32 mask 0 Hm) as (t & Heq & Ht & Hlow & Hrange).
  unfold maskFuel. rewrite Heq.
  destruct (highOnes_spec 32 (Z.shiftr mask t) 0 ltac:(lia))
    as (w & m' & Heq2 & Hrun).
  rewrite Heq2. exists t, w. rewrite !Z.add_0_l.
  split; [reflexivity|]. split; [assumption|].
  now apply run_from_shiftr.
Qed.

End MaskShift.

(** C5. [maskShift] is a function of the mask alone; on a zero mask it
    returns (0, 0); on every nonzero 32-bit mask whose set bits form
    one contiguous run [s .. s+w-1] it returns [(s, w)]: the index of
    the lowest set bit as the shift and the number of contiguous set
    bits from there as the width. *)
Theorem maskShift_spec :
  maskShift 0 = Some (0, 0) /\
  forall mask s w, 0 < mask < 2 ^ 32 -> contiguous_run mask s w ->
    maskShift mask = Some (s, w) /\
    lowest_set_bit mask s /\ run_from mask s w.
Proof.
  split; [reflexivity|].
  intros mask s w Hm [Hs Hrun].
  destruct (maskShift_nonzero mask Hm)
    as (s' & w' & Heq & (Hs' & Hset & Hlow) & (Hw' & Hones & Hstop)).
  assert (Hin : s <= s' < s + w).
  { rewrite Hrun in Hset by lia. apply andb_prop in Hset. lia. }
  assert (s' = s).
  { destruct (Z.eq_dec s' s) as [|Hne]; [assumption|].
    specialize (Hlow s ltac:(lia)). rewrite Hrun in Hlow by lia.
    apply andb_false_iff in Hlow. lia. }
  subst s'.
  assert (w' = w).
  { destruct (Z_lt_le_dec w' w) as [Hlt|Hge].
    - rewrite Hrun in Hstop by lia. apply andb_false_iff in Hstop. lia.
    - destruct (Z.eq_dec w' w) as [|Hne]; [assumption|].
      specialize (Hones (s + w) ltac:(lia)). rewrite Hrun in Hones by lia.
      apply andb_prop in Hones. lia. }
  subst w'.
  split; [assumption|]. split; [now repeat split|now repeat split].
Qed.

Lemma maskShift_spec_witness :
  maskShift 0x07E0 = Some (5, 6) /\
  lowest_set_bit 0x07E0 5 /\ run_from 0x07E0 5 6.
Proof.
  apply (proj2 maskShift_spec 0x07E0 5 6); [lia|].
  split; [lia|]. intros i Hi.
  destruct (Z_lt_le_dec i 11) as [Hlt|Hge].
  - assert (Hc : i = 0 \/ i = 1 \/ i = 2 \/ i = 3 \/ i = 4 \/ i = 5 \/
                 i = 6 \/ i = 7 \/ i = 8 \/ i = 9 \/ i = 10) by lia.
    repeat (destruct Hc as [->|Hc]; [reflexivity|]). subst i. reflexivity.
  - rewrite Z.bits_above_log2 by (simpl; lia).
    symmetry. apply andb_false_iff. right. apply Z.ltb_ge. lia.
Defined.

(** ** Reading from the stream *)

Section Stream.

Implicit Types (r : Reader) (bs : list byte).

Lemma M_bind_unfold {A B : Type} (m : M A) (f : A → M B) r :
  (m ≫= f) r = match m r with Some (a, r') => f a r' | None => None end.
Proof. reflexivity. Qed.

(** A read that the stream can satisfy returns the next [n] bytes and
    advances by [n]. *)
Lemma ReadFull_ok (n : Z) r :
  0 <= n -> 0 <= pos r -> pos r + n <= Z.of_nat (length (data r)) ->
  ReadFull n r =
  Some ((take (Z.to_nat n) (drop (Z.to_nat (pos r)) (data r)), None),
        mkReader (data r) (pos r + n)).
Proof.
  intros Hn Hp Hlen. unfold ReadFull.
  destruct (Z.leb_spec n 0) as [H0|H0].
  - assert (n = 0) by lia. subst n. destruct r as [d p]; cbn.
    now rewrite Z.add_0_r.
  - destruct (Z.leb_spec (Z.of_nat (length (data r))) (pos r)); [lia|].
    destruct (Z.ltb_spec (Z.of_nat (length (data r)) - pos r) n); [lia|].
    reflexivity.
Qed.

(** A read that the stream cannot satisfy fails with an I/O error and
    leaves the offset at the end of the data (or where it was, when
    that is beyond the end). *)
Lemma ReadFull_short (n : Z) r :
  0 < n -> 0 <= pos r -> Z.of_nat (length (data r)) < pos r + n ->
  exists buf e,
    ReadFull n r =
    Some ((buf, Some e),
          mkReader (data r) (Z.max (pos r) (Z.of_nat (length (data r))))) /\
    IOError e = true.
Proof.
  intros Hn Hp Hlen. unfold ReadFull.
  destruct (Z.leb_spec n 0) as [H0|H0]; [lia|].
  destruct (Z.leb_spec (Z.of_nat (length (data r))) (pos r)).
  - exists [], EOF. split; [|reflexivity].
    destruct r as [d p]; cbn in *. do 3 f_equal. lia.
  - destruct (Z.ltb_spec (Z.of_nat (length (data r)) - pos r) n); [|lia].
    eexists _, ErrUnexpectedEOF. split; [|reflexivity].
    do 3 f_equal. lia.
Qed.

Lemma sub_take_drop bs (n p a b : nat) :
  (b <= n)%nat -> sub (take n (drop p bs)) a b = sub bs (p + a) (p + b).
Proof.
  intros Hb. unfold sub.
  rewrite skipn_firstn_comm, take_take, drop_drop.
  f_equal. lia.
Qed.

Lemma sub_take bs (n a b : nat) :
  (b <= n)%nat -> sub (take n bs) a b = sub bs a b.
Proof. intros Hb. apply (sub_take_drop bs n 0 a b Hb). Qed.

Lemma byteZ_range (b : byte) : 0 <= byteZ b < 256.
Proof.
  unfold byteZ. pose proof (Byte.to_N_bounded b). lia.
Qed.

End Stream.

(** ** The header stage *)

Section Headers.

Variable bs : list byte.

(** The first read of [Decode] on a stream of at least 14 bytes. *)
Lemma read_file_header :
  (14 <= length bs)%nat ->
  ReadFull bmpFileHeaderSize (stream bs) =
  Some ((take 14 bs, None), mkReader bs 14).
Proof.
  intros Hlen. rewrite ReadFull_ok; [reflexivity | unfold bmpFileHeaderSize; cbn; lia..].
Qed.

(** A wrong signature ends [readHeaders] right after the file header. *)
Lemma readHeaders_bad_signature :
  (14 <= length bs)%nat -> sub bs 0 2 ≠ BM ->
  readHeaders (stream bs) =
  Some ((None, Some ErrInvalidSignature), mkReader bs 14).
Proof.
  intros Hlen Hsig. unfold readHeaders.
  rewrite M_bind_unfold, read_file_header by assumption.
  cbn [Signature fileHeaderOf]. rewrite sub_take by lia.
  rewrite bool_decide_eq_false_2 by assumption. reflexivity.
Qed.

(** A stream shorter than the file header fails in the first read. *)
Lemma readHeaders_short :
  (length bs < 14)%nat ->
  exists e,
    readHeaders (stream bs) =
    Some ((None, Some e), mkReader bs (Z.of_nat (length bs))) /\
    IOError e = true.
Proof.
  intros Hlen. unfold readHeaders. rewrite M_bind_unfold.
  destruct (ReadFull_short bmpFileHeaderSize (stream bs))
    as (buf & e & Heq & He);
    [reflexivity | cbn; lia | unfold bmpFileHeaderSize; cbn; lia |].
  rewrite Heq. exists e. split; [|assumption].
  unfold mret, M_ret. cbn. do 3 f_equal. lia.
Qed.

Lemma Decode_headers_failed (e : error) r :
  readHeaders (stream bs) = Some ((None, Some e), r) ->
  Decode (stream bs) = Some ((None, Some e), r).
Proof.
  intros Heq. unfold Decode. rewrite M_bind_unfold, Heq. reflexivity.
Qed.

End Headers.

Section LittleEndian.

Lemma le_range (bs : list byte) :
  0 <= le bs < 2 ^ (8 * Z.of_nat (length bs)).
Proof.
  induction bs as [|b bs IH]; [cbn; lia|].
  cbn [le length]. pose proof (byteZ_range b).
  replace (8 * Z.of_nat (S (length bs)))
    with (8 + 8 * Z.of_nat (length bs)) by lia.
  rewrite Z.pow_add_r by lia. change (2 ^ 8) with 256. lia.
Qed.

Lemma length_sub (bs : list byte) (lo hi : nat) :
  (length (sub bs lo hi) <= hi - lo)%nat.
Proof. unfold sub. rewrite length_take. lia. Qed.

Lemma le_sub_range (bs : list byte) (lo hi : nat) :
  0 <= le (sub bs lo hi) < 2 ^ (8 * Z.of_nat (hi - lo)).
Proof.
  pose proof (le_range (sub bs lo hi)) as [H0 H1].
  pose proof (length_sub bs lo hi).
  split; [assumption|]. eapply Z.lt_le_trans; [exact H1|].
  apply Z.pow_le_mono_r; lia.
Qed.

Lemma int32_small (z : Z) : 0 <= z < 2 ^ 31 -> int32 z = z.
Proof.
  intros Hz. unfold int32. rewrite Z.mod_small by lia.
  destruct (Z.ltb_spec z (2 ^ 31)); lia.
Qed.

Lemma int_small (z : Z) : - 2 ^ 63 <= z < 2 ^ 63 -> int z = z.
Proof.
  intros Hz. unfold int.
  destruct (Z_lt_le_dec z 0).
  - replace (z mod 2 ^ 64) with (z + 2 ^ 64).
    + destruct (Z.ltb_spec (z + 2 ^ 64) (2 ^ 63)); lia.
    + symmetry. rewrite <- (Z.mod_add z 1) by lia.
      rewrite Z.mod_small; lia.
  - rewrite Z.mod_small by lia.
    destruct (Z.ltb_spec z (2 ^ 63)); lia.
Qed.

End LittleEndian.

Section HeaderVariants.

Variable bs : list byte.
Hypothesis Hlen : (18 <= length bs)%nat.
Hypothesis Hsig : sub bs 0 2 = BM.

Lemma fileHeaderOf_take : fileHeaderOf (take 14 bs) = fileHeaderOf bs.
Proof. unfold fileHeaderOf. now rewrite !sub_take by lia. Qed.

(** [readHeaders] up to the branch on the header-size tag. *)
Lemma readHeaders_to_switch :
  readHeaders (stream bs) =
  headerSwitch (fileHeaderOf bs) (le (sub bs 14 18)) (mkReader bs 18).
Proof.
  unfold readHeaders.
  rewrite M_bind_unfold, read_file_header by lia.
  rewrite fileHeaderOf_take. cbn [Signature fileHeaderOf].
  rewrite (bool_decide_eq_true_2 _ Hsig). cbn [negb].
  rewrite M_bind_unfold, ReadFull_ok by (cbn; lia).
  reflexivity.
Qed.

Lemma headerSwitch_core :
  le (sub bs 14 18) = 12 -> (26 <= length bs)%nat ->
  headerSwitch (fileHeaderOf bs) 12 (mkReader bs 18) =
  Some ((Some (fileHeaderOf bs,
               setFields (newInfo 12)
                 (le (sub bs 18 20)) (le (sub bs 20 22))
                 (le (sub bs 22 24)) (le (sub bs 24 26)) biRGB), None),
        mkReader bs 26).
Proof.
  intros Htag Hlen26. unfold headerSwitch.
  change (12 =? coreHeaderSize) with true. cbv iota.
  rewrite M_bind_unfold, ReadFull_ok by (cbn; lia).
  cbn [pos data]. change (Z.to_nat 8) with 8%nat.
  change (Z.to_nat 18) with 18%nat.
  rewrite !sub_take_drop by lia. cbn [Nat.add].
  rewrite !int32_small
    by (split; [apply le_sub_range |
        eapply Z.lt_trans; [apply le_sub_range | reflexivity]]).
  reflexivity.
Qed.

Lemma headerSwitch_info :
  le (sub bs 14 18) = 40 -> (54 <= length bs)%nat ->
  headerSwitch (fileHeaderOf bs) 40 (mkReader bs 18) =
  Some ((Some (fileHeaderOf bs,
               setFields (newInfo 40)
                 (int32 (le (sub bs 18 22))) (int32 (le (sub bs 22 26)))
                 (le (sub bs 26 28)) (le (sub bs 28 30))
                 (le (sub bs 30 34))), None),
        mkReader bs 54).
Proof.
  intros Htag Hlen54. unfold headerSwitch.
  change (40 =? coreHeaderSize) with false.
  change (40 =? infoHeaderSize) with true. cbv iota.
  change (infoHeaderSize - 4) with 36.
  rewrite M_bind_unfold, ReadFull_ok by (cbn; lia).
  cbn [pos data]. change (Z.to_nat 36) with 36%nat.
  change (Z.to_nat 18) with 18%nat.
  rewrite !sub_take_drop by lia. reflexivity.
Qed.

Lemma headerSwitch_other (tag : Z) :
  tag ≠ 12 -> tag ≠ 40 ->
  headerSwitch (fileHeaderOf bs) tag (mkReader bs 18) =
  Some ((None, Some ErrUnsupportedHeader), mkReader bs 18).
Proof.
  intros H12 H40. unfold headerSwitch.
  destruct (Z.eqb_spec tag coreHeaderSize); [contradiction|].
  destruct (Z.eqb_spec tag infoHeaderSize); [contradiction|].
  reflexivity.
Qed.

End HeaderVariants.

(** C6 as stated fails on a stream that ends inside the file header:
    the two bytes "XY" are not "BM", yet [Decode] reports the short
    read ([io.ErrUnexpectedEOF]), an I/O error and not a format error. *)
Lemma Decode_bad_signature_short_stream :
  sub shortStream 0 2 ≠ BM /\
  Decode (stream shortStream) =
    Some ((None, Some ErrUnexpectedEOF), mkReader shortStream 2) /\
  FormatError ErrUnexpectedEOF = false /\
  ¬ (forall bs : list byte, sub bs 0 2 ≠ BM ->
       exists e r, Decode (stream bs) = Some ((None, Some e), r) /\
                   FormatError e = true).
Proof.
  split; [discriminate|]. split; [reflexivity|]. split; [reflexivity|].
  intros H. destruct (H shortStream) as (e & r & Heq & He).
  - discriminate.
  - vm_compute in Heq. injection Heq as <- _. discriminate He.
Qed.

(** C6, amended. For every stream whose first two bytes are not "BM":
    when it holds at least the 14 bytes of the file header, [Decode]
    fails with the invalid-signature format error and no image, having
    consumed the file header only; when it is shorter, [Decode] fails
    with an I/O error and no image.  In both cases the header stage
    itself returns the error, so the palette, mask and pixel stages
    ([decodeBody]) are not run. *)
Theorem Decode_bad_signature (bs : list byte) :
  sub bs 0 2 ≠ BM ->
  ((14 <= length bs)%nat ->
     readHeaders (stream bs) =
       Some ((None, Some ErrInvalidSignature), mkReader bs 14) /\
     Decode (stream bs) =
       Some ((None, Some ErrInvalidSignature), mkReader bs 14) /\
     FormatError ErrInvalidSignature = true) /\
  ((length bs < 14)%nat ->
     exists e,
       readHeaders (stream bs) =
         Some ((None, Some e), mkReader bs (Z.of_nat (length bs))) /\
       Decode (stream bs) =
         Some ((None, Some e), mkReader bs (Z.of_nat (length bs))) /\
       IOError e = true).
Proof.
  intros Hsig. split.
  - intros Hlen.
    pose proof (readHeaders_bad_signature bs Hlen Hsig) as Heq.
    split; [assumption|]. split; [|reflexivity].
    now apply Decode_headers_failed.
  - intros Hlen. destruct (readHeaders_short bs Hlen) as (e & Heq & He).
    exists e. split; [assumption|]. split; [|assumption].
    now apply Decode_headers_failed.
Qed.

Lemma Decode_bad_signature_witness :
  Decode (stream badSignature) =
    Some ((None, Some ErrInvalidSignature), mkReader badSignature 14) /\
  exists e,
    Decode (stream shortStream) = Some ((None, Some e), mkReader shortStream 2) /\
    IOError e = true.
Proof.
  split.
  - apply (proj1 (Decode_bad_signature badSignature ltac:(discriminate))).
    vm_compute; lia.
  - destruct (proj2 (Decode_bad_signature shortStream ltac:(discriminate)))
      as (e & _ & Heq & He); [vm_compute; lia|].
    exists e. split; assumption.
Defined.

(** C7. After the file header, [Decode] branches on the 4-byte
    header-size tag: for 12 it reads the 16-bit width, height, planes
    and bit count and sets the compression to none; for 40 it reads the
    signed 32-bit width and height, the planes, the bit count and the
    compression; for any other value it fails with the
    unsupported-header format error and no image. *)
Theorem header_size_branch (bs : list byte) :
  (18 <= length bs)%nat -> sub bs 0 2 = BM ->
  let tag := le (sub bs 14 18) in
  (tag = 12 -> (26 <= length bs)%nat ->
     exists info,
       readHeaders (stream bs) =
         Some ((Some (fileHeaderOf bs, info), None), mkReader bs 26) /\
       Size info = 12 /\
       Width info = le (sub bs 18 20) /\ 0 <= Width info < 2 ^ 16 /\
       Height info = le (sub bs 20 22) /\ 0 <= Height info < 2 ^ 16 /\
       Planes info = le (sub bs 22 24) /\
       BitCount info = le (sub bs 24 26) /\
       Compression info = biRGB) /\
  (tag = 40 -> (54 <= length bs)%nat ->
     exists info,
       readHeaders (stream bs) =
         Some ((Some (fileHeaderOf bs, info), None), mkReader bs 54) /\
       Size info = 40 /\
       Width info = int32 (le (sub bs 18 22)) /\
       Height info = int32 (le (sub bs 22 26)) /\
       Planes info = le (sub bs 26 28) /\
       BitCount info = le (sub bs 28 30) /\
       Compression info = le (sub bs 30 34)) /\
  (tag ≠ 12 -> tag ≠ 40 ->
     Decode (stream bs) =
       Some ((None, Some ErrUnsupportedHeader), mkReader bs 18) /\
     FormatError ErrUnsupportedHeader = true).
Proof.
  intros Hlen Hsig tag. subst tag.
  pose proof (readHeaders_to_switch bs Hlen Hsig) as Hsw.
  split; [|split].
  - intros Htag Hlen26. eexists. rewrite Hsw, Htag.
    rewrite headerSwitch_core by assumption.
    split; [reflexivity|]. cbn.
    pose proof (le_sub_range bs 18 20) as Hw.
    pose proof (le_sub_range bs 20 22) as Hh.
    unfold sub in Hw, Hh. cbn in Hw, Hh.
    repeat split; (reflexivity || lia).
  - intros Htag Hlen54. eexists. rewrite Hsw, Htag.
    rewrite headerSwitch_info by assumption.
    split; [reflexivity|]. cbn. repeat split.
  - intros H12 H40. split; [|reflexivity].
    apply Decode_headers_failed. rewrite Hsw.
    now apply headerSwitch_other.
Qed.

Lemma header_size_branch_witness :
  exists info,
    readHeaders (stream truncatedIndexed) =
      Some ((Some (fileHeaderOf truncatedIndexed, info), None),
            mkReader truncatedIndexed 26) /\
    Size info = 12 /\
    Width info = le (sub truncatedIndexed 18 20) /\ 0 <= Width info < 2 ^ 16 /\
    Height info = le (sub truncatedIndexed 20 22) /\
    0 <= Height info < 2 ^ 16 /\
    Planes info = le (sub truncatedIndexed 22 24) /\
    BitCount info = le (sub truncatedIndexed 24 26) /\
    Compression info = biRGB.
Proof.
  apply (proj1 (header_size_branch truncatedIndexed
                  ltac:(vm_compute; lia) ltac:(reflexivity))).
  - reflexivity.
  - vm_compute; lia.
Defined.

(** ** Scanline lengths *)

Section RowBytes.

Lemma ldiff_3 (a : Z) : Z.ldiff a 3 = a / 4 * 4.
Proof.
  change 3 with (Z.ones 2). rewrite Z.ldiff_ones_r by lia.
  rewrite Z.shiftl_mul_pow2, Z.shiftr_div_pow2 by lia. reflexivity.
Qed.



(** The row lengths are far from the limits of [int]: none of the
    products wraps around. *)
Lemma row_bytes_fit_int (info : InfoHeader) :
  0 <= Width info < 2 ^ 31 -> 0 <= BitCount info < 2 ^ 16 ->
  int (Width info * BitCount info + 31) = Width info * BitCount info + 31 /\
  int (Width info * 2 + 3) = Width info * 2 + 3 /\
  int (Width info * 3 + 3) = Width info * 3 + 3 /\
  int (Width info * 4) = Width info * 4.
Proof.
  intros Hw Hb. repeat split; apply int_small; nia.
Qed.

End RowBytes.

(** ** The palette *)

Section Palette.

Implicit Types (r : Reader) (acc : list RGBA).

Lemma byteAt_read (bs : list byte) (n p : nat) (k : Z) :
  0 <= k < Z.of_nat n ->
  byteAt (take n (drop p bs)) k = byteAt bs (Z.of_nat p + k).
Proof.
  intros Hk. unfold byteAt, index.
  destruct (Z.ltb_spec k 0); [lia|].
  destruct (Z.ltb_spec (Z.of_nat p + k) 0); [lia|].
  rewrite lookup_take_lt, lookup_drop by lia.
  do 3 f_equal. lia.
Qed.

(** One palette entry decoded from the four bytes read at [pos r]. *)
Lemma entry_of_read r :
  0 <= pos r ->
  let bgr := take 4 (drop (Z.to_nat (pos r)) (data r)) in
  mkRGBA (byteAt bgr 2) (byteAt bgr 1) (byteAt bgr 0) 255 =
  entryAt (data r) (pos r).
Proof.
  intros Hp bgr. subst bgr. unfold entryAt.
  rewrite !byteAt_read by lia.
  f_equal; f_equal; lia.
Qed.

Lemma paletteLoop_S (count : nat) acc r :
  paletteLoop (S count) acc r =
  match ReadFull 4 r with
  | Some ((bgr, Some e), r') => Some (([], Some e), r')
  | Some ((bgr, None), r') =>
      paletteLoop count
        (acc ++ [mkRGBA (byteAt bgr 2) (byteAt bgr 1) (byteAt bgr 0) 255]) r'
  | None => None
  end.
Proof.
  cbn [paletteLoop]. rewrite M_bind_unfold.
  destruct (ReadFull 4 r) as [[[bgr [e|]] r']|]; reflexivity.
Qed.

(** With the whole table in the stream, the loop appends one entry per
    four bytes and stops right after the table. *)
Lemma paletteLoop_ok (count : nat) : forall acc r,
  0 <= pos r ->
  pos r + 4 * Z.of_nat count <= Z.of_nat (length (data r)) ->
  exists entries,
    paletteLoop count acc r =
      Some ((acc ++ entries, None),
            mkReader (data r) (pos r + 4 * Z.of_nat count)) /\
    length entries = count /\
    forall i, (i < count)%nat ->
      entries !! i = Some (entryAt (data r) (pos r + 4 * Z.of_nat i)).
Proof.
  induction count as [|count IH]; intros acc r Hp Hlen.
  - exists []. split; [|split; [reflexivity | intros i Hi; lia]].
    cbn. unfold mret, M_ret. rewrite app_nil_r, Z.add_0_r.
    now destruct r.
  - rewrite paletteLoop_S, ReadFull_ok by lia.
    change (Z.to_nat 4) with 4%nat. rewrite entry_of_read by lia.
    destruct (IH (acc ++ [entryAt (data r) (pos r)])
                 (mkReader (data r) (pos r + 4)))
      as (entries & Heq & Hlen' & Hent); [cbn; lia | cbn; lia |].
    cbn [data pos] in Heq, Hent.
    exists (entryAt (data r) (pos r) :: entries).
    split; [|split].
    + rewrite Heq, <- app_assoc. cbn. do 3 f_equal. lia.
    + cbn. now rewrite Hlen'.
    + intros [|i] Hi.
      * cbn. now rewrite Z.add_0_r.
      * cbn [lookup list_lookup]. rewrite Hent by lia. do 2 f_equal. lia.
Qed.

(** With the stream ending inside the table, the loop fails with the
    error of the short read and returns no palette. *)
Lemma paletteLoop_short (count : nat) : forall acc r,
  0 <= pos r -> (0 < count)%nat ->
  Z.of_nat (length (data r)) < pos r + 4 * Z.of_nat count ->
  exists e r',
    paletteLoop count acc r = Some (([], Some e), r') /\ IOError e = true.
Proof.
  induction count as [|count IH]; intros acc r Hp Hc Hlen; [lia|].
  rewrite paletteLoop_S.
  destruct (Z_lt_le_dec (Z.of_nat (length (data r))) (pos r + 4)) as [Hs|Hs].
  - destruct (ReadFull_short 4 r) as (buf & e & Heq & He); [lia..|].
    rewrite Heq. eauto.
  - rewrite ReadFull_ok by lia.
    apply IH; cbn [pos data]; lia.
Qed.

Lemma entryCount_code (info : InfoHeader) :
  0 <= BitCount info -> 0 <= ClrUsed info < 2 ^ 32 ->
  ¬ (8 < BitCount info /\ ClrUsed info = 0) ->
  (if 0 <? ClrUsed info then ClrUsed info
   else int (Z.shiftl 1 (BitCount info))) = entryCount info /\
  0 < entryCount info.
Proof.
  intros Hb Hc Hnot. unfold entryCount.
  destruct (Z.ltb_spec 0 (ClrUsed info)), (Z.eqb_spec (ClrUsed info) 0);
    try lia.
  assert (Hb8 : BitCount info <= 8) by lia.
  rewrite Z.shiftl_1_l.
  assert (0 < 2 ^ BitCount info <= 2 ^ 8).
  { split; [apply Z.pow_pos_nonneg; lia | apply Z.pow_le_mono_r; lia]. }
  rewrite int_small; lia.
Qed.

End Palette.

(** C8. [parsePalette]: with a bit depth above 8 and a zero
    colour-used count it returns the empty palette and leaves the
    stream where it was.  Otherwise it reads [entryCount] entries (the
    colour-used count when nonzero, else [2^bitCount]), each from four
    bytes blue, green, red, reserved, into an opaque colour; when the
    stream ends inside the table it returns an I/O error and no
    palette. *)
Theorem parsePalette_spec (info : InfoHeader) (r : Reader) :
  0 <= BitCount info < 2 ^ 16 -> 0 <= ClrUsed info < 2 ^ 32 ->
  0 <= pos r ->
  (8 < BitCount info /\ ClrUsed info = 0 ->
     parsePalette info r = Some (([], None), r)) /\
  (¬ (8 < BitCount info /\ ClrUsed info = 0) ->
   pos r + 4 * entryCount info <= Z.of_nat (length (data r)) ->
     exists palette,
       parsePalette info r =
         Some ((palette, None),
               mkReader (data r) (pos r + 4 * entryCount info)) /\
       Z.of_nat (length palette) = entryCount info /\
       forall i, 0 <= i < entryCount info ->
         palette !! Z.to_nat i = Some (entryAt (data r) (pos r + 4 * i)) /\
         RGBA_A (entryAt (data r) (pos r + 4 * i)) = 255) /\
  (¬ (8 < BitCount info /\ ClrUsed info = 0) ->
   Z.of_nat (length (data r)) < pos r + 4 * entryCount info ->
     exists e r',
       parsePalette info r = Some (([], Some e), r') /\ IOError e = true).
Proof.
  intros Hb Hc Hp. split; [|split].
  - intros [H8 H0]. unfold parsePalette.
    destruct (Z.ltb_spec 8 (BitCount info)); [|lia].
    destruct (Z.eqb_spec (ClrUsed info) 0); [|lia]. reflexivity.
  - intros Hnot Hlen.
    destruct (entryCount_code info ltac:(lia) Hc Hnot) as [Hn Hpos].
    unfold parsePalette.
    replace ((8 <? BitCount info) && (ClrUsed info =? 0)) with false
      by (symmetry; apply andb_false_iff;
          rewrite Z.ltb_ge, Z.eqb_neq; lia).
    cbv zeta. rewrite Hn, M_bind_unfold. unfold make.
    destruct (Z.ltb_spec (entryCount info) 0); [lia|].
    destruct (paletteLoop_ok (Z.to_nat (entryCount info)) [] r Hp)
      as (entries & Heq & Hlen' & Hent); [lia|].
    exists entries. rewrite Heq. cbn [app].
    split; [do 3 f_equal; lia|]. split; [lia|].
    intros i Hi. split; [|reflexivity].
    rewrite Hent by lia. do 2 f_equal. lia.
  - intros Hnot Hlen.
    destruct (entryCount_code info ltac:(lia) Hc Hnot) as [Hn Hpos].
    unfold parsePalette.
    replace ((8 <? BitCount info) && (ClrUsed info =? 0)) with false
      by (symmetry; apply andb_false_iff;
          rewrite Z.ltb_ge, Z.eqb_neq; lia).
    cbv zeta. rewrite Hn, M_bind_unfold. unfold make.
    destruct (Z.ltb_spec (entryCount info) 0); [lia|].
    apply paletteLoop_short; lia.
Qed.

Lemma parsePalette_spec_witness :
  exists palette,
    parsePalette (plainInfo 1 1 1) (mkReader truncatedIndexed 26) =
      Some ((palette, None),
            mkReader truncatedIndexed (26 + 4 * entryCount (plainInfo 1 1 1))) /\
    Z.of_nat (length palette) = entryCount (plainInfo 1 1 1) /\
    forall i, 0 <= i < entryCount (plainInfo 1 1 1) ->
      palette !! Z.to_nat i = Some (entryAt truncatedIndexed (26 + 4 * i)) /\
      RGBA_A (entryAt truncatedIndexed (26 + 4 * i)) = 255.
Proof.
  refine (proj1 (proj2 (parsePalette_spec (plainInfo 1 1 1)
                          (mkReader truncatedIndexed 26) _ _ _)) _ _);
    vm_compute; intuition discriminate.
Defined.

(** ** The decoder on the sample streams *)

(** C2, evaluated: on an indexed image whose pixel data is missing,
    [Decode] returns the read error together with a non-nil image (the
    freshly allocated 1x1 paletted image), where the direct-colour
    readers return no image. *)
Theorem Decode_truncated_indexed_returns_image :
  exists img r,
    Decode (stream truncatedIndexed) = Some ((Some (ImgPaletted img), Some EOF), r) /\
    pal_rect img = mkRect 0 0 1 1 /\
    pal_palette img = [mkRGBA 0 0 0 255; mkRGBA 255 255 255 255].
Proof.
  eexists _, _. split; [vm_compute; reflexivity|]. split; reflexivity.
Qed.

(** The three channels of the full-scale word under the RGB565 masks:
    none reaches 0xFFFF. *)
Lemma channel16_full_scale :
  maskShift 0xF800 = Some (11, 5) /\ channel16 0xFFFF 0xF800 11 5 = Some 0xFFC0 /\
  maskShift 0x07E0 = Some (5, 6) /\ channel16 0xFFFF 0x07E0 5 6 = Some 0xFFF0 /\
  maskShift 0x001F = Some (0, 5) /\ channel16 0xFFFF 0x001F 0 5 = Some 0xFFC0.
Proof. repeat split. Qed.

(** C1, evaluated: with the masks 0xF800, 0x07E0, 0x001F the pixel word
    0xFFFF decodes to R = 0xFFC0, G = 0xFFF0, B = 0xFFC0: one round of
    replication fills 10 (12 for green) of the 16 bits only. *)
Theorem Decode_white565 :
  exists img r,
    Decode (stream white565) = Some ((Some (ImgRGBA64 img), None), r) /\
    RGBA64At img 0 0 = mkRGBA64 0xFFC0 0xFFF0 0xFFC0 0xFFFF.
Proof.
  eexists _, _. split; vm_compute; reflexivity.
Qed.

(** C3, evaluated: a 24-bit image of declared height -2 decodes without
    error into a 1x2 image, but no scanline is read (the stream stays at
    the pixel-data offset 54) and both pixels keep the zero colour. *)
Theorem Decode_topDown24_reads_no_row :
  exists img,
    Decode (stream topDown24) =
      Some ((Some (ImgRGBA img), None), mkReader topDown24 54) /\
    rgba_rect img = mkRect 0 0 1 2 /\
    RGBAAt img 0 0 = mkRGBA 0 0 0 0 /\
    RGBAAt img 0 1 = mkRGBA 0 0 0 0.
Proof.
  eexists. split; [vm_compute; reflexivity|]. repeat split.
Qed.

(** The same scanlines under declared height +2: both rows are read,
    the first on disk becomes row 1. *)
Lemma Decode_bottomUp24 :
  exists img,
    Decode (stream bottomUp24) =
      Some ((Some (ImgRGBA img), None), mkReader bottomUp24 62) /\
    RGBAAt img 0 1 = mkRGBA 3 2 1 255 /\
    RGBAAt img 0 0 = mkRGBA 6 5 4 255.
Proof.
  eexists. split; [vm_compute; reflexivity|]. split; vm_compute; reflexivity.
Qed.

(** C4, evaluated: in a 4-bit scanline starting with the byte 0x12 the
    pixel of column 0 is 2, the low nibble, and the pixel of column 1
    is 1, the high nibble. *)
Theorem Decode_nibbles_low_first :
  exists img r,
    Decode (stream nibbles) = Some ((Some (ImgPaletted img), None), r) /\
    ColorIndexAt img 0 0 = 2 /\ ColorIndexAt img 1 0 = 1.
Proof.
  eexists _, _. split; [vm_compute; reflexivity|]. split; vm_compute; reflexivity.
Qed.

(** ** The two loops *)

Section Loops.

(** Invariant rule for the column loop: a body that keeps [P] and never
    panics runs to the end. *)
Lemma forRange_inv {St : Type} (P : Z → St → Prop) (body : Z → St → option St)
    (count : nat) : forall x st,
  P x st ->
  (forall k st0, x <= k < x + Z.of_nat count -> P k st0 ->
     exists st1, body k st0 = Some st1 /\ P (k + 1) st1) ->
  exists st', forRange count x body st = Some st' /\
              P (x + Z.of_nat count) st'.
Proof.
  induction count as [|count IH]; intros x st HP Hstep.
  - exists st. split; [reflexivity|]. now rewrite Z.add_0_r.
  - destruct (Hstep x st ltac:(lia) HP) as (st1 & Hb & HP1).
    cbn [forRange]. rewrite Hb.
    destruct (IH (x + 1) st1 HP1) as (st' & Heq & HP').
    { intros k st0 Hk. apply Hstep. lia. }
    exists st'. split; [assumption|].
    now replace (x + Z.of_nat (S count)) with (x + 1 + Z.of_nat count) by lia.
Qed.

Lemma scanRows_S {I : Type} (count : nat) (y bytesPerRow : Z)
    (body : Z → list byte → I → option I) (img : I) (r : Reader) :
  scanRows (S count) y bytesPerRow body img r =
  match ReadFull bytesPerRow r with
  | Some ((row, Some e), r') => Some ((img, Some e), r')
  | Some ((row, None), r') =>
      match body y row img with
      | Some img' => scanRows count (y + 1) bytesPerRow body img' r'
      | None => None
      end
  | None => None
  end.
Proof.
  cbn [scanRows]. rewrite M_bind_unfold.
  destruct (ReadFull bytesPerRow r) as [[[row [e|]] r']|]; try reflexivity.
  rewrite M_bind_unfold. unfold orPanic.
  destruct (body y row img); reflexivity.
Qed.

(** Invariant rule for the scanline loop over a stream [bs] that holds
    all the rows from offset [base] on: row [k] is handed to the body
    as the [bytesPerRow] bytes at [base + k * bytesPerRow], no read
    fails, and the stream ends up right after the last row. *)
Lemma scanRows_inv {I : Type} (P : Z → I → Prop)
    (body : Z → list byte → I → option I)
    (bs : list byte) (base bytesPerRow : Z) (count : nat) : forall y img r,
  0 <= bytesPerRow -> 0 <= base -> 0 <= y ->
  data r = bs -> pos r = base + y * bytesPerRow ->
  base + (y + Z.of_nat count) * bytesPerRow <= Z.of_nat (length bs) ->
  P y img ->
  (forall k img0, y <= k < y + Z.of_nat count -> P k img0 ->
     exists img1,
       body k (scanline bs (base + k * bytesPerRow) bytesPerRow) img0
         = Some img1 /\ P (k + 1) img1) ->
  exists img',
    scanRows count y bytesPerRow body img r =
      Some ((img', None),
            mkReader bs (base + (y + Z.of_nat count) * bytesPerRow)) /\
    P (y + Z.of_nat count) img'.
Proof.
  induction count as [|count IH]; intros y img r Hb Hbase Hy Hd Hp Hlen HP Hstep.
  - exists img. rewrite Z.add_0_r. split; [|assumption].
    cbn. unfold mret, M_ret. destruct r as [d p]; cbn in *. now subst.
  - rewrite scanRows_S, ReadFull_ok by (rewrite ?Hd; nia).
    destruct (Hstep y img ltac:(lia) HP) as (img1 & Hbody & HP1).
    unfold scanline in Hbody. rewrite Hd, Hp, Hbody.
    specialize (IH (y + 1) img1
                  (mkReader bs (base + y * bytesPerRow + bytesPerRow))
                  Hb Hbase ltac:(lia) eq_refl ltac:(cbn; lia) ltac:(lia) HP1).
    destruct IH as (img' & Heq & HP').
    { intros k img0 Hk. apply Hstep. lia. }
    exists img'.
    replace (y + Z.of_nat (S count)) with (y + 1 + Z.of_nat count) by lia.
    split; assumption.
Qed.

End Loops.

(** ** Filling the image *)

Section Fill.

Context {I V : Type} `{PixelStore I V}.

(** The stream, the offset of the pixel data, the scanline length, the
    image size and the number of scanlines on disk. *)
Variables (bs : list byte) (base bytesPerRow W H' h : Z).

(** The pixel value of column [x] of a scanline (or a panic), and the
    image row of scanline [y]. *)
Variables (val : list byte → Z → option V) (ty : Z → Z).

(** Anything else about the image that storing a pixel keeps. *)
Variable Q : I → Prop.

Hypothesis Hbpr : 0 <= bytesPerRow.
Hypothesis Hbase : 0 <= base.
Hypothesis Hh : 0 <= h.
Hypothesis Hdata : base + h * bytesPerRow <= Z.of_nat (length bs).
Hypothesis Hty : forall y, 0 <= y < h -> 0 <= ty y < H'.
Hypothesis Hinj : forall y y', 0 <= y < h -> 0 <= y' < h -> ty y = ty y' -> y = y'.
Hypothesis Hval : forall y x, 0 <= y < h -> 0 <= x < W ->
  is_Some (val (scanline bs (base + y * bytesPerRow) bytesPerRow) x).
Hypothesis HQ : forall x y v p, Q p -> Q (store x y v p).

Let rowOf (y : Z) : list byte :=
  scanline bs (base + y * bytesPerRow) bytesPerRow.

(** The state of the image once the rows before [y] are stored. *)
Let rowsDone (y : Z) (img : I) : Prop :=
  bounds img = mkRect 0 0 W H' /\ Q img /\
  forall x y0, 0 <= x < W -> 0 <= y0 < y ->
    val (rowOf y0) x = Some (pixelAt img x (ty y0)).

Lemma fill_row (y : Z) (img : I) :
  0 <= y < h -> rowsDone y img ->
  exists img',
    forRange (Z.to_nat W) 0
      (λ x img, v ← val (rowOf y) x; Some (store x (ty y) v img)) img
      = Some img' /\
    rowsDone (y + 1) img'.
Proof.
  intros Hy (Hb & Hq & Hrows).
  destruct (Z_lt_le_dec W 0) as [Hneg|Hpos].
  { replace (Z.to_nat W) with 0%nat by lia. exists img.
    split; [reflexivity|]. split; [assumption|]. split; [assumption|].
    intros x y0 Hx. lia. }
  pose (colsDone := λ (x : Z) (img : I),
    bounds img = mkRect 0 0 W H' /\ Q img /\
    (forall x0 y0, 0 <= x0 < W -> 0 <= y0 < y ->
       val (rowOf y0) x0 = Some (pixelAt img x0 (ty y0))) /\
    (forall x0, 0 <= x0 < x ->
       val (rowOf y) x0 = Some (pixelAt img x0 (ty y)))).
  destruct (forRange_inv colsDone
              (λ x img, v ← val (rowOf y) x; Some (store x (ty y) v img))
              (Z.to_nat W) 0 img) as (img' & Heq & Hb' & Hq' & Hrows' & Hrow').
  - split; [assumption|]. split; [assumption|]. split; [assumption|].
    intros x0 Hx0. lia.
  - intros x img0 Hx (Hb0 & Hq0 & Hrows0 & Hrow0).
    destruct (Hval y x Hy ltac:(lia)) as [v Hv]. fold (rowOf y) in Hv.
    exists (store x (ty y) v img0). rewrite Hv. split; [reflexivity|].
    split; [now rewrite bounds_store|]. split; [now apply HQ|]. split.
    + intros x0 y0 Hx0 Hy0. rewrite pixelAt_store_ne; [now apply Hrows0|].
      intros Heq. apply (f_equal snd) in Heq. cbn in Heq.
      specialize (Hinj y y0 Hy ltac:(lia) Heq). lia.
    + intros x0 Hx0. destruct (Z.eq_dec x0 x) as [->|Hne].
      * rewrite pixelAt_store_eq; [assumption|].
        rewrite Hb0. unfold inRect. cbn.
        specialize (Hty y Hy).
        repeat (apply andb_true_intro; split);
          (apply Z.leb_le || apply Z.ltb_lt); lia.
      * rewrite pixelAt_store_ne; [apply Hrow0; lia|].
        intros Heq. apply (f_equal fst) in Heq. cbn in Heq. lia.
  - exists img'. split; [assumption|].
    split; [assumption|]. split; [assumption|].
    intros x y0 Hx Hy0. destruct (Z.eq_dec y0 y) as [->|Hne].
    + apply Hrow'. lia.
    + apply Hrows'; lia.
Qed.

(** All scanlines in the stream: the loops store every pixel of every
    scanline at its image row and consume exactly the pixel data. *)
Lemma fill_image (img : I) :
  bounds img = mkRect 0 0 W H' -> Q img ->
  exists img',
    scanRows (Z.to_nat h) 0 bytesPerRow
      (λ y row img,
         forRange (Z.to_nat W) 0
           (λ x img, v ← val row x; Some (store x (ty y) v img)) img)
      img (mkReader bs base)
    = Some ((img', None), mkReader bs (base + h * bytesPerRow)) /\
    bounds img' = bounds img /\ Q img' /\
    forall x y, 0 <= x < W -> 0 <= y < h ->
      val (rowOf y) x = Some (pixelAt img' x (ty y)).
Proof.
  intros Hb Hq.
  assert (Hlen : base + (0 + Z.of_nat (Z.to_nat h)) * bytesPerRow
                 <= Z.of_nat (length bs)) by (rewrite Z2Nat.id; lia).
  assert (H0 : rowsDone 0 img).
  { split; [assumption|]. split; [assumption|]. intros x y0 Hx Hy0. lia. }
  destruct (scanRows_inv rowsDone
              (λ y row img,
                 forRange (Z.to_nat W) 0
                   (λ x img, v ← val row x; Some (store x (ty y) v img)) img)
              bs base bytesPerRow (Z.to_nat h) 0 img (mkReader bs base)
              Hbpr Hbase ltac:(lia) eq_refl ltac:(cbn; lia) Hlen H0)
    as (img' & Heq & Hb' & Hq' & Hrows').
  - intros k img0 Hk HP. apply (fill_row k img0); [lia | assumption].
  - exists img'. rewrite Heq.
    replace (0 + Z.of_nat (Z.to_nat h)) with h in * by lia.
    split; [reflexivity|]. split; [congruence|]. split; [assumption|].
    intros x y Hx Hy. apply Hrows'; lia.
Qed.

End Fill.

(** ** Allocation of the pixel buffer *)

(** The length of the buffer the constructors ask for, when it fits an
    [int]. *)
Lemma buffer_fits (bytesPerPixel w h : Z) :
  bytesPerPixel * (w * h) < 2 ^ 63 ->
  pixelBufferLength bytesPerPixel (mkRect 0 0 w h) =
  Some (bytesPerPixel * w * h).
Proof.
  intros Hwh. unfold pixelBufferLength, Dx, Dy. cbn.
  rewrite !Z.sub_0_r.
  destruct (Z.ltb_spec (bytesPerPixel * w * h) (2 ^ 63)); [reflexivity|lia].
Qed.

Lemma makeslice_fits (n : Z) : 0 <= n <= maxAlloc -> makeslice n = Some n.
Proof.
  intros Hn. unfold makeslice.
  destruct (Z.ltb_spec n 0); [lia|]. destruct (Z.ltb_spec maxAlloc n); [lia|].
  reflexivity.
Qed.

(** The constructors return the empty image when the buffer is within
    the allocation limit. *)
Lemma NewPaletted_fits (w h : Z) (p : list RGBA) :
  0 <= w * h <= maxAlloc ->
  NewPaletted (mkRect 0 0 w h) p = Some (mkPaletted ∅ (mkRect 0 0 w h) p).
Proof.
  intros Hn. unfold NewPaletted. pose proof (eq_refl : maxAlloc = 2 ^ 48).
  rewrite buffer_fits by lia. cbn [mbind option_bind].
  rewrite makeslice_fits by lia. reflexivity.
Qed.

Lemma NewRGBA64_fits (w h : Z) :
  0 <= 8 * (w * h) <= maxAlloc ->
  NewRGBA64 (mkRect 0 0 w h) = Some (mkRGBA64Img ∅ (mkRect 0 0 w h)).
Proof.
  intros Hn. unfold NewRGBA64. pose proof (eq_refl : maxAlloc = 2 ^ 48).
  rewrite buffer_fits by lia. cbn [mbind option_bind].
  rewrite makeslice_fits by lia. reflexivity.
Qed.

Lemma NewRGBA_fits (w h : Z) :
  0 <= 4 * (w * h) <= maxAlloc ->
  NewRGBA (mkRect 0 0 w h) = Some (mkRGBAImg ∅ (mkRect 0 0 w h)).
Proof.
  intros Hn. unfold NewRGBA. pose proof (eq_refl : maxAlloc = 2 ^ 48).
  rewrite buffer_fits by lia. cbn [mbind option_bind].
  rewrite makeslice_fits by lia. reflexivity.
Qed.

(** Whatever a constructor returns is the empty image on the rectangle
    asked for. *)
Lemma NewPaletted_Some (r : Rectangle) (p : list RGBA) (img : Paletted) :
  NewPaletted r p = Some img -> img = mkPaletted ∅ r p.
Proof.
  unfold NewPaletted. destruct (pixelBufferLength 1 r) as [n|]; [|discriminate].
  cbn [mbind option_bind]. destruct (makeslice n); [|discriminate].
  cbn [mbind option_bind]. congruence.
Qed.

(** ** The indexed reader *)

Section Indexed.

Variable info : InfoHeader.

Lemma Rect_nonneg (w h : Z) :
  0 <= w -> 0 <= h -> Rect 0 0 w h = mkRect 0 0 w h.
Proof.
  intros Hw Hh. unfold Rect.
  destruct (Z.ltb_spec w 0); [lia|]. destruct (Z.ltb_spec h 0); [lia|].
  reflexivity.
Qed.

Lemma absHeight_nonneg : 0 <= absHeight info.
Proof. unfold absHeight. destruct (Z.ltb_spec (Height info) 0); lia. Qed.

(** Orientation: scanline [y] goes to row [height-1-y] under a positive
    declared height and to row [y] otherwise. *)
Lemma targetRow_spec (height y : Z) :
  (0 < Height info -> targetRow info height y = height - 1 - y) /\
  (Height info <= 0 -> targetRow info height y = y).
Proof.
  unfold targetRow. destruct (Z.ltb_spec 0 (Height info)); split; lia.
Qed.

Lemma targetRow_range (height y : Z) :
  0 <= y < height -> 0 <= targetRow info height y < height.
Proof.
  intros Hy. unfold targetRow. destruct (Z.ltb_spec 0 (Height info)); lia.
Qed.

Lemma targetRow_inj (height y y' : Z) :
  targetRow info height y = targetRow info height y' -> y = y'.
Proof.
  unfold targetRow. destruct (Z.ltb_spec 0 (Height info)); lia.
Qed.

Lemma index_is_Some (row : list byte) (k : Z) :
  0 <= k < Z.of_nat (length row) -> is_Some (index row k).
Proof.
  intros Hk. unfold index. destruct (Z.ltb_spec k 0); [lia|].
  destruct (lookup_lt_is_Some_2 row (Z.to_nat k) ltac:(lia)) as [b Hb].
  rewrite Hb. now eexists.
Qed.

Lemma length_scanline (bs : list byte) (off n : Z) :
  0 <= off -> 0 <= n -> off + n <= Z.of_nat (length bs) ->
  Z.of_nat (length (scanline bs off n)) = n.
Proof.
  intros Ho Hn Hlen. unfold scanline.
  rewrite length_take, length_drop. lia.
Qed.

(** The extracted index by bit depth.  One bit: bit [7 - x mod 8] of
    byte [x / 8], most significant bit first. *)
Lemma extractIndex_1 (row : list byte) (x : Z) :
  BitCount info = 1 -> 0 <= x ->
  extractIndex info row x =
  b ← index row (x / 8); Some (Z.land (Z.shiftr b (7 - x mod 8)) 1).
Proof.
  intros Hbc Hx. unfold extractIndex. rewrite Hbc.
  change (8 ÷ 1) with 8. change (8 =? 0) with false.
  change (1 =? 1) with true. cbv iota.
  rewrite Z.quot_div_nonneg, Z.rem_mod_nonneg, Z.mul_1_r by lia.
  reflexivity.
Qed.

(** Four bits: the low nibble of byte [x / 2] for an even column, the
    high nibble for an odd one. *)
Lemma extractIndex_4 (row : list byte) (x : Z) :
  BitCount info = 4 -> 0 <= x ->
  extractIndex info row x =
  b ← index row (x / 2); Some (Z.land (Z.shiftr b (x mod 2 * 4)) 15).
Proof.
  intros Hbc Hx. unfold extractIndex. rewrite Hbc.
  change (8 ÷ 4) with 2. change (2 =? 0) with false.
  change (4 =? 1) with false. cbv iota.
  rewrite Z.quot_div_nonneg, Z.rem_mod_nonneg by lia.
  reflexivity.
Qed.

(** Eight bits: byte [x] itself. *)
Lemma extractIndex_8 (row : list byte) (x : Z) :
  BitCount info = 8 -> 0 <= x ->
  extractIndex info row x = b ← index row x; Some (Z.land b 255).
Proof.
  intros Hbc Hx. unfold extractIndex. rewrite Hbc.
  change (8 ÷ 8) with 1. change (1 =? 0) with false.
  change (8 =? 1) with false. cbv iota.
  rewrite Z.quot_1_r, Z.rem_1_r. reflexivity.
Qed.

(** No column of a full scanline is out of range. *)
Lemma extractIndex_is_Some (row : list byte) (x : Z) :
  BitCount info = 1 \/ BitCount info = 4 \/ BitCount info = 8 ->
  0 <= x < Width info ->
  Z.of_nat (length row) = indexedBytesPerRow info ->
  is_Some (extractIndex info row x).
Proof.
  intros Hbc Hx Hlen. unfold indexedBytesPerRow in Hlen.
  destruct Hbc as [Hbc|[Hbc|Hbc]]; rewrite Hbc in Hlen;
    rewrite Z.quot_div_nonneg in Hlen by lia.
  - rewrite extractIndex_1 by (assumption || lia).
    destruct (index_is_Some row (x / 8)) as [b Hb].
    { split; [apply Z.div_pos; lia|]. rewrite Hlen.
      pose proof (Z.div_mod x 8 ltac:(lia)).
      pose proof (Z.mod_pos_bound x 8 ltac:(lia)).
      pose proof (Z.div_mod (Width info * 1 + 31) 32 ltac:(lia)).
      pose proof (Z.mod_pos_bound (Width info * 1 + 31) 32 ltac:(lia)). lia. }
    rewrite Hb. now eexists.
  - rewrite extractIndex_4 by (assumption || lia).
    destruct (index_is_Some row (x / 2)) as [b Hb].
    { split; [apply Z.div_pos; lia|]. rewrite Hlen.
      pose proof (Z.div_mod x 2 ltac:(lia)).
      pose proof (Z.mod_pos_bound x 2 ltac:(lia)).
      pose proof (Z.div_mod (Width info * 4 + 31) 32 ltac:(lia)).
      pose proof (Z.mod_pos_bound (Width info * 4 + 31) 32 ltac:(lia)). lia. }
    rewrite Hb. now eexists.
  - rewrite extractIndex_8 by (assumption || lia).
    destruct (index_is_Some row x) as [b Hb].
    { split; [lia|]. rewrite Hlen.
      pose proof (Z.div_mod (Width info * 8 + 31) 32 ltac:(lia)).
      pose proof (Z.mod_pos_bound (Width info * 8 + 31) 32 ltac:(lia)). lia. }
    rewrite Hb. now eexists.
Qed.

Lemma indexedBytesPerRow_nonneg :
  0 <= Width info -> 0 <= BitCount info -> 0 <= indexedBytesPerRow info.
Proof.
  intros Hw Hb. unfold indexedBytesPerRow.
  rewrite Z.quot_div_nonneg by nia.
  pose proof (Z.div_pos (Width info * BitCount info + 31) 32 ltac:(nia)). lia.
Qed.

End Indexed.

Section IndexedImage.

Variables (info : InfoHeader) (bs : list byte) (base : Z).

Hypothesis Hbc : BitCount info = 1 \/ BitCount info = 4 \/ BitCount info = 8.
Hypothesis Hw : 0 <= Width info.
Hypothesis Hbase : 0 <= base.
Hypothesis Hdata :
  base + absHeight info * indexedBytesPerRow info <= Z.of_nat (length bs).

(** [readIndexedData] on a stream that holds every scanline: no error,
    the stream is left right after the pixel data, the palette is
    untouched and pixel [(x, targetRow y)] holds the index extracted
    from column [x] of scanline [y]. *)
Lemma readIndexedData_spec (img : Paletted) :
  pal_rect img = mkRect 0 0 (Width info) (absHeight info) ->
  exists img',
    readIndexedData img info (mkReader bs base) =
      Some ((img', None),
            mkReader bs (base + absHeight info * indexedBytesPerRow info)) /\
    pal_rect img' = pal_rect img /\
    pal_palette img' = pal_palette img /\
    forall x y, 0 <= x < Width info -> 0 <= y < absHeight info ->
      extractIndex info
        (scanline bs (base + y * indexedBytesPerRow info)
                  (indexedBytesPerRow info)) x
      = Some (ColorIndexAt img' x (targetRow info (absHeight info) y)).
Proof.
  intros Hrect.
  assert (Hb0 : 0 <= BitCount info) by lia.
  pose proof (indexedBytesPerRow_nonneg info Hw Hb0) as Hbpr.
  pose proof (absHeight_nonneg info) as Hh.
  unfold readIndexedData.
  replace (BitCount info =? 0) with false by (symmetry; apply Z.eqb_neq; lia).
  rewrite M_bind_unfold. unfold make.
  destruct (Z.ltb_spec (indexedBytesPerRow info) 0); [lia|].
  destruct (fill_image (I := Paletted) (V := Z) bs base
              (indexedBytesPerRow info) (Width info) (absHeight info)
              (absHeight info) (extractIndex info)
              (targetRow info (absHeight info))
              (λ p, pal_palette p = pal_palette img) Hbpr Hbase Hh Hdata)
    with (img := img) as (img' & Heq & Hrect' & Hpal' & Hpix).
  - intros y Hy. now apply targetRow_range.
  - intros y y' _ _. apply targetRow_inj.
  - intros y x Hy Hx. apply extractIndex_is_Some; [assumption..|].
    apply length_scanline; nia.
  - intros x y v p Hp. cbn. unfold SetColorIndex.
    now destruct (inRect x y (pal_rect p)).
  - exact Hrect.
  - reflexivity.
  - exists img'. split; [exact Heq|]. split; [exact Hrect'|].
    split; [exact Hpal'|]. exact Hpix.
Qed.

End IndexedImage.

(** C10. For every 1/4/8-bit header whose pixel buffer is within the
    allocation limit and every palette, of any length,
    [decodePixelData] on a stream that holds the scanlines succeeds and
    returns a paletted image with that palette in which pixel
    [(x, targetRow y)] is exactly the index extracted from column [x]
    of scanline [y]: the index is never looked up in, nor compared
    with, the palette. *)
Theorem indexed_stores_indices_verbatim
    (info : InfoHeader) (palette : list RGBA) (r : Reader) :
  BitCount info = 1 \/ BitCount info = 4 \/ BitCount info = 8 ->
  0 <= Width info < 2 ^ 31 -> - 2 ^ 31 <= Height info < 2 ^ 31 ->
  Width info * absHeight info <= maxAlloc ->
  0 <= pos r ->
  pos r + absHeight info * indexedBytesPerRow info
    <= Z.of_nat (length (data r)) ->
  exists img,
    decodePixelData info palette r =
      Some ((Some (ImgPaletted img), None),
            mkReader (data r)
              (pos r + absHeight info * indexedBytesPerRow info)) /\
    pal_palette img = palette /\
    forall x y, 0 <= x < Width info -> 0 <= y < absHeight info ->
      extractIndex info
        (scanline (data r) (pos r + y * indexedBytesPerRow info)
                  (indexedBytesPerRow info)) x
      = Some (ColorIndexAt img x (targetRow info (absHeight info) y)).
Proof.
  intros Hbc Hw Hh Halloc Hp Hdata. destruct r as [bs base].
  cbn [data pos] in *.
  pose proof (absHeight_nonneg info) as Hh0.
  unfold decodePixelData.
  replace ((BitCount info =? 1) || (BitCount info =? 4) || (BitCount info =? 8))
    with true
    by (symmetry; rewrite !orb_true_iff, !Z.eqb_eq; tauto).
  rewrite Rect_nonneg by lia.
  rewrite M_bind_unfold. rewrite NewPaletted_fits by nia.
  cbn [mbind option_bind orPanic].
  destruct (readIndexedData_spec info bs base Hbc ltac:(lia) Hp Hdata
              (mkPaletted ∅ (mkRect 0 0 (Width info) (absHeight info)) palette)
              eq_refl)
    as (img' & Heq & Hrect & Hpal & Hpix).
  rewrite M_bind_unfold, Heq. exists img'.
  split; [reflexivity|]. split; assumption.
Qed.

Lemma indexed_stores_indices_verbatim_witness :
  exists img,
    decodePixelData (plainInfo 2 1 4) [] (mkReader nibbles 90) =
      Some ((Some (ImgPaletted img), None),
            mkReader nibbles
              (90 + absHeight (plainInfo 2 1 4)
                    * indexedBytesPerRow (plainInfo 2 1 4))) /\
    pal_palette img = [] /\
    forall x y, 0 <= x < Width (plainInfo 2 1 4) ->
                0 <= y < absHeight (plainInfo 2 1 4) ->
      extractIndex (plainInfo 2 1 4)
        (scanline nibbles (90 + y * indexedBytesPerRow (plainInfo 2 1 4))
                  (indexedBytesPerRow (plainInfo 2 1 4))) x
      = Some (ColorIndexAt img x
                (targetRow (plainInfo 2 1 4) (absHeight (plainInfo 2 1 4)) y)).
Proof.
  apply (indexed_stores_indices_verbatim (plainInfo 2 1 4) []
           (mkReader nibbles 90)).
  - right; left; reflexivity.
  - cbn; lia.
  - cbn; lia.
  - vm_compute; discriminate.
  - cbn; lia.
  - vm_compute; discriminate.
Defined.

(** ** The palette is never read *)

Section PaletteUnused.

Lemma forRange_commute {St : Type} (f : St → St) (body : Z → St → option St) :
  (forall x st, body x (f st) = f <$> body x st) ->
  forall count x st,
    forRange count x body (f st) = f <$> forRange count x body st.
Proof.
  intros Hbody. induction count as [|count IH]; intros x st; [reflexivity|].
  cbn [forRange]. rewrite Hbody.
  destruct (body x st) as [st'|]; cbn; [apply IH | reflexivity].
Qed.

Lemma scanRows_commute {I : Type} (f : I → I)
    (body : Z → list byte → I → option I) (bytesPerRow : Z) :
  (forall y row img, body y row (f img) = f <$> body y row img) ->
  forall count y img r,
    scanRows count y bytesPerRow body (f img) r =
    (λ res, ((f res.1.1, res.1.2), res.2))
      <$> scanRows count y bytesPerRow body img r.
Proof.
  intros Hbody. induction count as [|count IH]; intros y img r; [reflexivity|].
  rewrite !scanRows_S.
  destruct (ReadFull bytesPerRow r) as [[[row [e|]] r']|]; try reflexivity.
  rewrite Hbody. destruct (body y row img) as [img'|]; cbn; [apply IH | reflexivity].
Qed.

(** Changing the palette of the image handed to [readIndexedData]
    changes nothing but the palette of the image it leaves, on every
    stream: the same reads, the same error, the same indices. *)
Lemma readIndexedData_ignores_palette
    (img : Paletted) (info : InfoHeader) (palette : list RGBA) (r : Reader) :
  readIndexedData (withPalette palette img) info r =
  (λ res, ((withPalette palette res.1.1, res.1.2), res.2))
    <$> readIndexedData img info r.
Proof.
  unfold readIndexedData.
  destruct (BitCount info =? 0); [reflexivity|].
  rewrite !M_bind_unfold. unfold make.
  destruct (indexedBytesPerRow info <? 0); [reflexivity|].
  apply scanRows_commute. intros y row img0.
  apply forRange_commute. intros x st. unfold indexedPixel.
  destruct (extractIndex info row x) as [idx|]; [|reflexivity].
  cbn. f_equal. unfold SetColorIndex, withPalette. cbn.
  now destruct (inRect x (targetRow info (absHeight info) y) (pal_rect st)).
Qed.

End PaletteUnused.

(** ** The direct-colour readers *)

Section DirectColour.

Variables (info : InfoHeader) (bs : list byte) (base : Z).

Hypothesis Hw : 0 <= Width info.
Hypothesis Hbase : 0 <= base.

Lemma slice_ok (row : list byte) (lo hi : Z) :
  0 <= lo <= hi -> hi <= Z.of_nat (length row) ->
  slice row lo hi = Some (sub row (Z.to_nat lo) (Z.to_nat hi)).
Proof.
  intros Hlo Hhi. unfold slice.
  destruct (Z.leb_spec 0 lo); [|lia]. destruct (Z.leb_spec lo hi); [|lia].
  destruct (Z.leb_spec hi (Z.of_nat (length row))); [|lia]. reflexivity.
Qed.

Lemma maskShift_total (mask : Z) :
  0 <= mask < 2 ^ 32 -> is_Some (maskShift mask).
Proof.
  intros Hm. destruct (Z.eq_dec mask 0) as [->|Hne]; [now eexists|].
  destruct (maskShift_nonzero mask ltac:(lia)) as (s & w & Heq & _).
  rewrite Heq. now eexists.
Qed.

Lemma bytesPerRow16_bounds :
  Width info * 2 <= bytesPerRow16 info.
Proof.
  unfold bytesPerRow16. rewrite ldiff_3.
  pose proof (Z.div_mod (Width info * 2 + 3) 4 ltac:(lia)).
  pose proof (Z.mod_pos_bound (Width info * 2 + 3) 4 ltac:(lia)).
  lia.
Qed.

Lemma bytesPerRow24_bounds :
  Width info * 3 <= bytesPerRow24 info.
Proof.
  unfold bytesPerRow24. rewrite ldiff_3.
  pose proof (Z.div_mod (Width info * 3 + 3) 4 ltac:(lia)).
  pose proof (Z.mod_pos_bound (Width info * 3 + 3) 4 ltac:(lia)).
  lia.
Qed.

(** *** 16 bits *)

Section Direct16.

Variables (redMask greenMask blueMask : Z) (rsb gsb bsb : Z * Z).

Hypothesis Hmasks : masks16 info = (redMask, greenMask, blueMask).
Hypothesis Hr : maskShift redMask = Some rsb.
Hypothesis Hg : maskShift greenMask = Some gsb.
Hypothesis Hb : maskShift blueMask = Some bsb.
Hypothesis Hbits : rsb.2 <= 16 /\ gsb.2 <= 16 /\ bsb.2 <= 16.
Hypothesis Hdata :
  base + absHeight info * bytesPerRow16 info <= Z.of_nat (length bs).

Lemma color16_is_Some (row : list byte) (x : Z) :
  0 <= x < Width info -> Z.of_nat (length row) = bytesPerRow16 info ->
  is_Some (color16 (redMask, greenMask, blueMask) rsb gsb bsb row x).
Proof.
  intros Hx Hlen. pose proof bytesPerRow16_bounds.
  unfold color16. rewrite slice_ok by lia. cbn [fmap option_fmap option_map mbind option_bind].
  unfold channel16.
  destruct Hbits as (H1 & H2 & H3).
  destruct (Z.ltb_spec (16 - rsb.2) 0); [lia|].
  destruct (Z.ltb_spec (16 - gsb.2) 0); [lia|].
  destruct (Z.ltb_spec (16 - bsb.2) 0); [lia|].
  cbn. now eexists.
Qed.

(** [read16BitData] on a stream that holds every scanline: pixel
    [(x, targetRow y)] is the colour of column [x] of scanline [y]. *)
Lemma read16BitData_spec (img : RGBA64Img) :
  rgba64_rect img = mkRect 0 0 (Width info) (absHeight info) ->
  exists img',
    read16BitData img info (mkReader bs base) =
      Some ((Some (ImgRGBA64 img'), None),
            mkReader bs (base + absHeight info * bytesPerRow16 info)) /\
    forall x y, 0 <= x < Width info -> 0 <= y < absHeight info ->
      color16 (redMask, greenMask, blueMask) rsb gsb bsb
        (scanline bs (base + y * bytesPerRow16 info) (bytesPerRow16 info)) x
      = Some (RGBA64At img' x (targetRow info (absHeight info) y)).
Proof.
  intros Hrect.
  pose proof bytesPerRow16_bounds as Hbpr.
  pose proof (absHeight_nonneg info) as Hh.
  unfold read16BitData. rewrite Hmasks.
  rewrite !M_bind_unfold. unfold orPanic at 1. rewrite Hr.
  rewrite !M_bind_unfold. unfold orPanic at 1. rewrite Hg.
  rewrite !M_bind_unfold. unfold orPanic at 1. rewrite Hb.
  rewrite !M_bind_unfold. unfold make.
  destruct (Z.ltb_spec (bytesPerRow16 info) 0); [lia|].
  destruct (fill_image (I := RGBA64Img) (V := RGBA64) bs base
              (bytesPerRow16 info) (Width info) (absHeight info)
              (absHeight info)
              (color16 (redMask, greenMask, blueMask) rsb gsb bsb)
              (targetRow info (absHeight info))
              (λ _, True) ltac:(lia) Hbase Hh Hdata)
    with (img := img) as (img' & Heq & _ & _ & Hpix).
  - intros y Hy. now apply targetRow_range.
  - intros y y' _ _. apply targetRow_inj.
  - intros y x Hy Hx. apply color16_is_Some; [assumption|].
    apply length_scanline; nia.
  - trivial.
  - exact Hrect.
  - exact Logic.I.
  - exists img'. split; [|exact Hpix].
    rewrite M_bind_unfold.
    lazymatch goal with
    | |- match ?m with _ => _ end = _ => replace m with
        (Some ((img', @None error),
               mkReader bs (base + absHeight info * bytesPerRow16 info)))
        by (symmetry; exact Heq)
    end.
    reflexivity.
Qed.

End Direct16.

(** *** 32 bits *)

Section Direct32.

Variables (redMask greenMask blueMask alphaMask : Z) (rsb gsb bsb asb : Z * Z).

Hypothesis Hmasks : masks32 info = (redMask, greenMask, blueMask, alphaMask).
Hypothesis Hr : maskShift redMask = Some rsb.
Hypothesis Hg : maskShift greenMask = Some gsb.
Hypothesis Hb : maskShift blueMask = Some bsb.
Hypothesis Ha : maskShift alphaMask = Some asb.
Hypothesis Hdata :
  base + absHeight info * bytesPerRow32 info <= Z.of_nat (length bs).

Lemma color32_is_Some (row : list byte) (x : Z) :
  0 <= x < Width info -> Z.of_nat (length row) = bytesPerRow32 info ->
  is_Some (color32 (redMask, greenMask, blueMask, alphaMask)
                   (rsb.1, gsb.1, bsb.1, asb.1) row x).
Proof.
  intros Hx Hlen. unfold bytesPerRow32 in Hlen.
  unfold color32. rewrite slice_ok by lia. cbn. now eexists.
Qed.

(** [read32BitData] on a stream that holds every scanline: pixel
    [(x, targetRow y)] is the colour of column [x] of scanline [y]. *)
Lemma read32BitData_spec (img : RGBAImg) :
  rgba_rect img = mkRect 0 0 (Width info) (absHeight info) ->
  exists img',
    read32BitData img info (mkReader bs base) =
      Some ((Some (ImgRGBA img'), None),
            mkReader bs (base + absHeight info * bytesPerRow32 info)) /\
    forall x y, 0 <= x < Width info -> 0 <= y < absHeight info ->
      color32 (redMask, greenMask, blueMask, alphaMask)
              (rsb.1, gsb.1, bsb.1, asb.1)
        (scanline bs (base + y * bytesPerRow32 info) (bytesPerRow32 info)) x
      = Some (RGBAAt img' x (targetRow info (absHeight info) y)).
Proof.
  intros Hrect.
  assert (Hbpr : 0 <= bytesPerRow32 info) by (unfold bytesPerRow32; lia).
  pose proof (absHeight_nonneg info) as Hh.
  unfold read32BitData. rewrite Hmasks.
  rewrite !M_bind_unfold. unfold orPanic at 1. rewrite Hr.
  rewrite !M_bind_unfold. unfold orPanic at 1. rewrite Hg.
  rewrite !M_bind_unfold. unfold orPanic at 1. rewrite Hb.
  rewrite !M_bind_unfold. unfold orPanic at 1. rewrite Ha.
  rewrite !M_bind_unfold. unfold make.
  destruct (Z.ltb_spec (bytesPerRow32 info) 0); [lia|].
  destruct (fill_image (I := RGBAImg) (V := RGBA) bs base
              (bytesPerRow32 info) (Width info) (absHeight info)
              (absHeight info)
              (color32 (redMask, greenMask, blueMask, alphaMask)
                       (rsb.1, gsb.1, bsb.1, asb.1))
              (targetRow info (absHeight info))
              (λ _, True) Hbpr Hbase Hh Hdata)
    with (img := img) as (img' & Heq & _ & _ & Hpix).
  - intros y Hy. now apply targetRow_range.
  - intros y y' _ _. apply targetRow_inj.
  - intros y x Hy Hx. apply color32_is_Some; [assumption|].
    apply length_scanline; nia.
  - trivial.
  - exact Hrect.
  - exact Logic.I.
  - exists img'. split; [|exact Hpix].
    rewrite M_bind_unfold.
    lazymatch goal with
    | |- match ?m with _ => _ end = _ => replace m with
        (Some ((img', @None error),
               mkReader bs (base + absHeight info * bytesPerRow32 info)))
        by (symmetry; exact Heq)
    end.
    reflexivity.
Qed.

End Direct32.

(** *** 24 bits *)

Section Direct24.

Lemma color24_is_Some (row : list byte) (x : Z) :
  0 <= x < Width info -> Z.of_nat (length row) = bytesPerRow24 info ->
  is_Some (color24 row x).
Proof.
  intros Hx Hlen. pose proof bytesPerRow24_bounds. unfold color24.
  destruct (index_is_Some row (x * 3 + 2) ltac:(lia)) as [r Hr].
  destruct (index_is_Some row (x * 3 + 1) ltac:(lia)) as [g Hg].
  destruct (index_is_Some row (x * 3) ltac:(lia)) as [b Hb].
  rewrite Hr, Hg, Hb. cbn. now eexists.
Qed.

(** [read24BitData] under a positive declared height, on a stream that
    holds every scanline: pixel [(x, height-1-y)] is the colour of
    column [x] of scanline [y]. *)
Lemma read24BitData_spec (img : RGBAImg) :
  0 < Height info ->
  base + Height info * bytesPerRow24 info <= Z.of_nat (length bs) ->
  rgba_rect img = mkRect 0 0 (Width info) (Height info) ->
  exists img',
    read24BitData img info (mkReader bs base) =
      Some ((Some (ImgRGBA img'), None),
            mkReader bs (base + Height info * bytesPerRow24 info)) /\
    forall x y, 0 <= x < Width info -> 0 <= y < Height info ->
      color24 (scanline bs (base + y * bytesPerRow24 info)
                        (bytesPerRow24 info)) x
      = Some (RGBAAt img' x (Height info - 1 - y)).
Proof.
  intros Hh Hdata Hrect.
  pose proof bytesPerRow24_bounds as Hbpr.
  unfold read24BitData.
  rewrite !M_bind_unfold. unfold make.
  destruct (Z.ltb_spec (bytesPerRow24 info) 0); [lia|].
  destruct (fill_image (I := RGBAImg) (V := RGBA) bs base
              (bytesPerRow24 info) (Width info) (Height info)
              (Height info) color24
              (targetRow info (Height info))
              (λ _, True) ltac:(lia) Hbase ltac:(lia) Hdata)
    with (img := img) as (img' & Heq & _ & _ & Hpix).
  - intros y Hy. now apply targetRow_range.
  - intros y y' _ _. apply targetRow_inj.
  - intros y x Hy Hx. apply color24_is_Some; [assumption|].
    apply length_scanline; nia.
  - trivial.
  - exact Hrect.
  - exact Logic.I.
  - exists img'. split.
    + rewrite M_bind_unfold.
      lazymatch goal with
      | |- match ?m with _ => _ end = _ => replace m with
          (Some ((img', @None error),
                 mkReader bs (base + Height info * bytesPerRow24 info)))
          by (symmetry; exact Heq)
      end.
      reflexivity.
    + intros x y Hx Hy. rewrite (Hpix x y Hx Hy).
      now rewrite (proj1 (targetRow_spec info (Height info) y) Hh).
Qed.

(** Under a non-positive declared height the row loop of
    [read24BitData] does not run: whatever the stream holds, the image
    comes back as it was allocated and nothing is read. *)
Lemma read24BitData_top_down (img : RGBAImg) (r : Reader) :
  Height info <= 0 ->
  read24BitData img info r = Some ((Some (ImgRGBA img), None), r).
Proof.
  intros Hh. pose proof bytesPerRow24_bounds as Hbpr.
  unfold read24BitData. rewrite !M_bind_unfold. unfold make.
  destruct (Z.ltb_spec (bytesPerRow24 info) 0); [lia|].
  replace (Z.to_nat (Height info)) with 0%nat by lia. reflexivity.
Qed.

End Direct24.

End DirectColour.

(** ** Which results carry an image *)

Section ErrorResults.

Implicit Types (r : Reader) (e : error) (oimg : option Image).

Lemma orPanic_bind {A B : Type} (o : option A) (k : A → M B) r :
  (orPanic o ≫= k) r = match o with Some a => k a r | None => None end.
Proof. rewrite M_bind_unfold. unfold orPanic. now destruct o. Qed.

Lemma make_bind {B : Type} (n : Z) (k : unit → M B) r :
  (make n ≫= k) r = if n <? 0 then None else k () r.
Proof. rewrite M_bind_unfold. unfold make. now destruct (n <? 0). Qed.

(** The direct-colour readers return no image with an error. *)
Lemma read16BitData_error img info r oimg e r' :
  read16BitData img info r = Some ((oimg, Some e), r') -> oimg = None.
Proof.
  unfold read16BitData. destruct (masks16 info) as [[rm gm] bm].
  rewrite orPanic_bind. destruct (maskShift rm); [|discriminate].
  rewrite orPanic_bind. destruct (maskShift gm); [|discriminate].
  rewrite orPanic_bind. destruct (maskShift bm); [|discriminate].
  rewrite make_bind. destruct (_ <? 0); [discriminate|].
  rewrite M_bind_unfold.
  destruct (scanRows _ _ _ _ _ _) as [[[img' [e'|]] r'']|];
    unfold mret, M_ret; congruence.
Qed.

Lemma read32BitData_error img info r oimg e r' :
  read32BitData img info r = Some ((oimg, Some e), r') -> oimg = None.
Proof.
  unfold read32BitData. destruct (masks32 info) as [[[rm gm] bm] am].
  rewrite orPanic_bind. destruct (maskShift rm); [|discriminate].
  rewrite orPanic_bind. destruct (maskShift gm); [|discriminate].
  rewrite orPanic_bind. destruct (maskShift bm); [|discriminate].
  rewrite orPanic_bind. destruct (maskShift am); [|discriminate].
  rewrite make_bind. destruct (_ <? 0); [discriminate|].
  rewrite M_bind_unfold.
  destruct (scanRows _ _ _ _ _ _) as [[[img' [e'|]] r'']|];
    unfold mret, M_ret; congruence.
Qed.

Lemma read24BitData_error img info r oimg e r' :
  read24BitData img info r = Some ((oimg, Some e), r') -> oimg = None.
Proof.
  unfold read24BitData.
  rewrite make_bind. destruct (_ <? 0); [discriminate|].
  rewrite M_bind_unfold.
  destruct (scanRows _ _ _ _ _ _) as [[[img' [e'|]] r'']|];
    unfold mret, M_ret; congruence.
Qed.

(** The indexed path returns its image with whatever
    [readIndexedData] returns, an error included. *)
Lemma decodePixelData_indexed_image info palette r oimg oerr r' :
  BitCount info = 1 \/ BitCount info = 4 \/ BitCount info = 8 ->
  decodePixelData info palette r = Some ((oimg, oerr), r') ->
  exists img, oimg = Some (ImgPaletted img).
Proof.
  intros Hbc. unfold decodePixelData.
  replace ((BitCount info =? 1) || (BitCount info =? 4) || (BitCount info =? 8))
    with true
    by (symmetry; rewrite !orb_true_iff, !Z.eqb_eq; tauto).
  rewrite orPanic_bind. destruct (NewPaletted _ _); [|discriminate].
  rewrite M_bind_unfold.
  destruct (readIndexedData _ _ _) as [[[img' err] r'']|]; [|discriminate].
  unfold mret, M_ret. intros [= <- _ _]. now eexists.
Qed.

(** Outside the indexed depths [decodePixelData] returns no image with
    an error. *)
Lemma decodePixelData_direct_error info palette r oimg e r' :
  BitCount info ≠ 1 -> BitCount info ≠ 4 -> BitCount info ≠ 8 ->
  decodePixelData info palette r = Some ((oimg, Some e), r') -> oimg = None.
Proof.
  intros H1 H4 H8. unfold decodePixelData.
  destruct (Z.eqb_spec (BitCount info) 1); [contradiction|].
  destruct (Z.eqb_spec (BitCount info) 4); [contradiction|].
  destruct (Z.eqb_spec (BitCount info) 8); [contradiction|].
  cbn [orb].
  destruct (BitCount info =? 16).
  { rewrite orPanic_bind. destruct (NewRGBA64 _); [|discriminate].
    apply read16BitData_error. }
  destruct (BitCount info =? 24).
  { rewrite orPanic_bind. destruct (NewRGBA _); [|discriminate].
    apply read24BitData_error. }
  destruct (BitCount info =? 32).
  { rewrite orPanic_bind. destruct (NewRGBA _); [|discriminate].
    apply read32BitData_error. }
  unfold mret, M_ret. congruence.
Qed.

(** Every stage of [Decode] before the pixel data returns no image
    with its error; so an image returned together with an error is the
    paletted image of the indexed path. *)
Lemma Decode_error_image r oimg e r' :
  Decode r = Some ((oimg, Some e), r') ->
  oimg = None \/ exists img, oimg = Some (ImgPaletted img).
Proof.
  unfold Decode. rewrite M_bind_unfold.
  destruct (readHeaders r) as [[[[[fh info]|] err] r1]|]; [| |discriminate].
  2:{ unfold mret, M_ret. intros [= <- _ _]. now left. }
  unfold decodeBody. rewrite M_bind_unfold.
  destruct (parsePalette info r1) as [[[palette [e1|]] r2]|]; [| |discriminate].
  { unfold mret, M_ret. intros [= <- _ _]. now left. }
  rewrite M_bind_unfold.
  destruct (readMasks info r2) as [[[info' [e2|]] r3]|]; [| |discriminate].
  { unfold mret, M_ret. intros [= <- _ _]. now left. }
  rewrite M_bind_unfold.
  destruct (Seek (DataOffset fh) r3) as [[[e3|] r4]|]; [| |discriminate].
  { unfold mret, M_ret. intros [= <- _ _]. now left. }
  intros Hdec.
  destruct (Z.eq_dec (BitCount info') 1) as [H1|H1];
    [right; eapply decodePixelData_indexed_image; [|exact Hdec]; tauto|].
  destruct (Z.eq_dec (BitCount info') 4) as [H4|H4];
    [right; eapply decodePixelData_indexed_image; [|exact Hdec]; tauto|].
  destruct (Z.eq_dec (BitCount info') 8) as [H8|H8];
    [right; eapply decodePixelData_indexed_image; [|exact Hdec]; tauto|].
  left. eapply decodePixelData_direct_error; eassumption.
Qed.

End ErrorResults.

(** * Further properties of the decoder *)

(** ** maskShift on any mask *)

(** X1. On every nonzero 32-bit mask, contiguous or not, [maskShift]
    returns: the shift is the index of the lowest set bit, the width is
    the length of the run of set bits that starts there (set bits
    above that run are ignored), the width is at least 1 and the run
    ends within the 32 bits. *)
Theorem maskShift_any_mask (mask : Z) :
  0 < mask < 2 ^ 32 ->
  exists s w, maskShift mask = Some (s, w) /\
              lowest_set_bit mask s /\ run_from mask s w /\
              1 <= w /\ s + w <= 32.
Proof.
  intros Hm.
  destruct (maskShift_nonzero mask Hm)
    as (s & w & Heq & (Hs & Hset & Hlow) & (Hw & Hones & Hstop)).
  exists s, w. split; [assumption|].
  split; [now repeat split|]. split; [now repeat split|].
  assert (Hw1 : 1 <= w).
  { destruct (Z.eq_dec w 0) as [->|]; [|lia].
    rewrite Z.add_0_r in Hstop. congruence. }
  split; [assumption|].
  destruct (Z_le_gt_dec (s + w) 32) as [|Hgt]; [assumption|exfalso].
  specialize (Hones (s + w - 1) ltac:(lia)).
  rewrite Z.bits_above_log2 in Hones; [discriminate|lia|].
  assert (Z.log2 mask < 32) by (apply Z.log2_lt_pow2; lia). lia.
Qed.

Lemma maskShift_any_mask_witness :
  exists s w, maskShift 0x00F00F00 = Some (s, w) /\
              lowest_set_bit 0x00F00F00 s /\ run_from 0x00F00F00 s w /\
              1 <= w /\ s + w <= 32.
Proof.
  apply (maskShift_any_mask 0x00F00F00). lia.
Defined.

(** ** The header stage, whatever the stream *)

Section HeaderFields.

Lemma int32_range (z : Z) : - 2 ^ 31 <= int32 z < 2 ^ 31.
Proof.
  unfold int32. pose proof (Z.mod_pos_bound z (2 ^ 32) ltac:(lia)).
  destruct (Z.ltb_spec (z mod 2 ^ 32) (2 ^ 31)); lia.
Qed.

Lemma le_sub_16 (buf : list byte) (lo : nat) :
  0 <= le (sub buf lo (lo + 2)) < 2 ^ 16.
Proof.
  pose proof (le_sub_range buf lo (lo + 2)) as H.
  replace (lo + 2 - lo)%nat with 2%nat in H by lia. exact H.
Qed.

Lemma le_sub_32 (buf : list byte) (lo : nat) :
  0 <= le (sub buf lo (lo + 4)) < 2 ^ 32.
Proof.
  pose proof (le_sub_range buf lo (lo + 4)) as H.
  replace (lo + 4 - lo)%nat with 4%nat in H by lia. exact H.
Qed.

Lemma ReadFull_data (n : Z) (r r' : Reader) (buf : list byte)
    (oerr : option error) :
  ReadFull n r = Some ((buf, oerr), r') -> data r' = data r.
Proof.
  unfold ReadFull.
  destruct (n <=? 0); [|destruct (_ <=? _); [|destruct (_ <? _)]];
    intros [= _ _ <-]; reflexivity.
Qed.

Lemma headerSwitch_fields (fh fh' : FileHeader) (tag : Z)
    (info : InfoHeader) (oerr : option error) (r r' : Reader) :
  Signature fh = BM -> 0 <= DataOffset fh < 2 ^ 32 ->
  headerSwitch fh tag r = Some ((Some (fh', info), oerr), r') ->
  oerr = None /\ data r' = data r /\ headerInvariant fh' info.
Proof.
  intros Hsig Hoff. unfold headerSwitch.
  destruct (Z.eqb_spec tag coreHeaderSize) as [Ht|Ht].
  - rewrite M_bind_unfold.
    destruct (ReadFull 8 r) as [[[core [e|]] r1]|] eqn:E;
      [unfold mret, M_ret; discriminate | | discriminate].
    unfold mret, M_ret. intros [= <- <- <- <-].
    split; [reflexivity|]. split; [exact (ReadFull_data _ _ _ _ _ E)|].
    pose proof (le_sub_16 core 0). pose proof (le_sub_16 core 2).
    pose proof (le_sub_16 core 4). pose proof (le_sub_16 core 6).
    unfold headerInvariant, sub in *. cbn in *.
    rewrite !int32_small by lia. unfold coreHeaderSize, biRGB in *.
    repeat split; try lia; try assumption.
  - destruct (Z.eqb_spec tag infoHeaderSize) as [Ht'|Ht'].
    + rewrite M_bind_unfold.
      destruct (ReadFull (infoHeaderSize - 4) r) as [[[rem [e|]] r1]|] eqn:E;
        [unfold mret, M_ret; discriminate | | discriminate].
      unfold mret, M_ret. intros [= <- <- <- <-].
      split; [reflexivity|]. split; [exact (ReadFull_data _ _ _ _ _ E)|].
      pose proof (int32_range (le (sub rem 0 4))).
      pose proof (int32_range (le (sub rem 4 8))).
      pose proof (le_sub_16 rem 8). pose proof (le_sub_16 rem 10).
      pose proof (le_sub_32 rem 12).
      unfold headerInvariant, sub in *. cbn in *.
      unfold infoHeaderSize, coreHeaderSize in *.
      repeat split; try lia; try assumption.
    + unfold mret, M_ret. discriminate.
Qed.

(** The headers [readHeaders] returns satisfy [headerInvariant], and
    come without an error. *)
Lemma readHeaders_fields (r r' : Reader) (fh : FileHeader)
    (info : InfoHeader) (oerr : option error) :
  readHeaders r = Some ((Some (fh, info), oerr), r') ->
  oerr = None /\ data r' = data r /\ headerInvariant fh info.
Proof.
  unfold readHeaders. rewrite M_bind_unfold.
  destruct (ReadFull bmpFileHeaderSize r) as [[[buf [e|]] r1]|] eqn:E1;
    [unfold mret, M_ret; discriminate | | discriminate].
  pose proof (ReadFull_data _ _ _ _ _ E1) as Hd1.
  destruct (bool_decide_reflect (Signature (fileHeaderOf buf) = BM)) as [Hsig|];
    [|unfold mret, M_ret; discriminate].
  cbn [negb]. rewrite M_bind_unfold.
  destruct (ReadFull 4 r1) as [[[buf2 [e|]] r2]|] eqn:E2;
    [unfold mret, M_ret; discriminate | | discriminate].
  pose proof (ReadFull_data _ _ _ _ _ E2) as Hd2.
  intros Hsw.
  destruct (headerSwitch_fields _ _ _ _ _ _ _ Hsig (le_sub_32 buf 10) Hsw)
    as (He & Hd & Hinv).
  split; [assumption|]. split; [congruence|assumption].
Qed.

End HeaderFields.

(** X2. Whenever the header stage of [Decode] yields headers, on any
    stream: the signature is "BM", the header size is 12 or 40, width
    and height are 32-bit signed values (unsigned 16-bit ones under the
    12-byte header, where the compression is none), planes and bit
    count are 16-bit values, and the colour-used count, like the image
    size, the important-colour count and the four masks, is still
    zero: the 40-byte branch reads those bytes but never stores
    them. *)
Theorem readHeaders_invariant (r r' : Reader) (fh : FileHeader)
    (info : InfoHeader) (oerr : option error) :
  readHeaders r = Some ((Some (fh, info), oerr), r') ->
  oerr = None /\ headerInvariant fh info.
Proof.
  intros H. destruct (readHeaders_fields r r' fh info oerr H) as (He & _ & Hinv).
  split; assumption.
Qed.

Lemma readHeaders_invariant_witness :
  @None error = None /\
  headerInvariant (fileHeaderOf truncatedIndexed)
                  (setFields (newInfo 12) 1 1 1 1 biRGB).
Proof.
  apply (readHeaders_invariant (stream truncatedIndexed)
           (mkReader truncatedIndexed 26)).
  vm_compute. reflexivity.
Defined.

(** X3. A stream that starts with "BM" and ends inside the headers
    (before the header-size tag, or before the end of the 12-byte or
    40-byte header the tag announces) makes [Decode] fail with an I/O
    error and no image. *)
Theorem Decode_truncated_header (bs : list byte) :
  sub bs 0 2 = BM ->
  (length bs < 18)%nat \/
  (le (sub bs 14 18) = 12 /\ (length bs < 26)%nat) \/
  (le (sub bs 14 18) = 40 /\ (length bs < 54)%nat) ->
  exists e r,
    Decode (stream bs) = Some ((None, Some e), r) /\ IOError e = true.
Proof.
  intros Hsig Hcase.
  destruct (Nat.lt_ge_cases (length bs) 14) as [H14|H14].
  { destruct (readHeaders_short bs H14) as (e & Heq & He).
    exists e, (mkReader bs (Z.of_nat (length bs))).
    split; [now apply Decode_headers_failed | assumption]. }
  destruct (Nat.lt_ge_cases (length bs) 18) as [H18|H18].
  { destruct (ReadFull_short 4 (mkReader bs 14)) as (buf & e & Heq & He);
      [lia | cbn [pos data]; lia | cbn [pos data]; lia |].
    exists e. eexists. split; [|exact He].
    apply Decode_headers_failed. unfold readHeaders.
    rewrite M_bind_unfold, read_file_header by lia.
    unfold fileHeaderOf. rewrite !sub_take by lia. cbn [Signature].
    rewrite (bool_decide_eq_true_2 _ Hsig). cbn [negb].
    rewrite M_bind_unfold, Heq. reflexivity. }
  pose proof (readHeaders_to_switch bs H18 Hsig) as Hsw.
  destruct Hcase as [Hc|[[Htag Hc]|[Htag Hc]]]; [lia| |].
  - destruct (ReadFull_short 8 (mkReader bs 18)) as (buf & e & Heq & He);
      [lia | cbn [pos data]; lia | cbn [pos data]; lia |].
    exists e. eexists. split; [|exact He].
    apply Decode_headers_failed. rewrite Hsw, Htag. unfold headerSwitch.
    change (12 =? coreHeaderSize) with true. cbv iota.
    rewrite M_bind_unfold, Heq. reflexivity.
  - destruct (ReadFull_short 36 (mkReader bs 18)) as (buf & e & Heq & He);
      [lia | cbn [pos data]; lia | cbn [pos data]; lia |].
    exists e. eexists. split; [|exact He].
    apply Decode_headers_failed. rewrite Hsw, Htag. unfold headerSwitch.
    change (40 =? coreHeaderSize) with false.
    change (40 =? infoHeaderSize) with true. cbv iota.
    change (infoHeaderSize - 4) with 36.
    rewrite M_bind_unfold, Heq. reflexivity.
Qed.

Lemma Decode_truncated_header_witness :
  exists e r,
    Decode (stream (take 20 truncatedIndexed)) = Some ((None, Some e), r) /\
    IOError e = true.
Proof.
  apply (Decode_truncated_header (take 20 truncatedIndexed)).
  - reflexivity.
  - right; left. split; [reflexivity | vm_compute; lia].
Defined.

(** ** What the loops keep *)

Section Preservation.

(** A property of the state that every step of the column loop keeps
    holds when the loop ends. *)
Lemma forRange_preserves {St : Type} (Q : St → Prop)
    (body : Z → St → option St) :
  (forall x st st', Q st -> body x st = Some st' -> Q st') ->
  forall count x st st',
    Q st -> forRange count x body st = Some st' -> Q st'.
Proof.
  intros Hbody. induction count as [|count IH]; intros x st st' HQ.
  - cbn. now intros [= <-].
  - cbn [forRange]. destruct (body x st) as [st1|] eqn:E; [|discriminate].
    apply IH. eapply Hbody; eassumption.
Qed.

(** A property of the image that every scanline keeps holds of the
    image the scanline loop leaves, with or without an error. *)
Lemma scanRows_preserves {I : Type} (Q : I → Prop)
    (body : Z → list byte → I → option I) (bytesPerRow : Z) :
  (forall y row img img', Q img -> body y row img = Some img' -> Q img') ->
  forall count y img r img' oerr r',
    Q img ->
    scanRows count y bytesPerRow body img r = Some ((img', oerr), r') ->
    Q img'.
Proof.
  intros Hbody. induction count as [|count IH]; intros y img r img' oerr r' HQ.
  - cbn. unfold mret, M_ret. now intros [= <- _ _].
  - rewrite scanRows_S.
    destruct (ReadFull bytesPerRow r) as [[[row [e|]] r1]|]; [| |discriminate].
    + now intros [= <- _ _].
    + destruct (body y row img) as [img1|] eqn:E; [|discriminate].
      apply IH. eapply Hbody; eassumption.
Qed.

(** An extracted index is below [2^bitCount]. *)
Lemma extractIndex_range (info : InfoHeader) (row : list byte) (x idx : Z) :
  BitCount info = 1 \/ BitCount info = 4 \/ BitCount info = 8 ->
  extractIndex info row x = Some idx -> 0 <= idx < 2 ^ BitCount info.
Proof.
  intros Hbc. unfold extractIndex.
  destruct (8 ÷ BitCount info =? 0); [discriminate|].
  destruct (index row _) as [b|]; [|discriminate]. cbn.
  intros [= <-].
  destruct Hbc as [Hbc|[Hbc|Hbc]]; rewrite Hbc.
  - change (uint8 (Z.shiftl 1 1 - 1)) with (Z.ones 1).
    rewrite Z.land_ones by lia. apply Z.mod_pos_bound. lia.
  - change (uint8 (Z.shiftl 1 4 - 1)) with (Z.ones 4).
    rewrite Z.land_ones by lia. apply Z.mod_pos_bound. lia.
  - change (uint8 (Z.shiftl 1 8 - 1)) with (Z.ones 8).
    rewrite Z.land_ones by lia. apply Z.mod_pos_bound. lia.
Qed.

(** Every index [readIndexedData] stores, and so every index of the
    image it leaves, is below [2^bitCount]; the palette stays. *)
Lemma readIndexedData_indices (info : InfoHeader) (img img' : Paletted)
    (r r' : Reader) (oerr : option error) :
  BitCount info = 1 \/ BitCount info = 4 \/ BitCount info = 8 ->
  pal_pix img = ∅ ->
  readIndexedData img info r = Some ((img', oerr), r') ->
  pal_palette img' = pal_palette img /\
  forall x y, 0 <= ColorIndexAt img' x y < 2 ^ BitCount info.
Proof.
  intros Hbc Hempty. unfold readIndexedData.
  destruct (BitCount info =? 0); [discriminate|].
  rewrite M_bind_unfold. unfold make.
  destruct (indexedBytesPerRow info <? 0); [discriminate|].
  intros Hscan.
  pose (Q := λ p : Paletted,
    pal_palette p = pal_palette img /\
    forall k v, pal_pix p !! k = Some v -> 0 <= v < 2 ^ BitCount info).
  assert (HQ : Q img').
  { eapply (scanRows_preserves Q); [| |exact Hscan].
    - intros y row p p' Hp. apply (forRange_preserves Q); [|exact Hp].
      intros x st st' [Hpal Hpix]. unfold indexedPixel.
      destruct (extractIndex info row x) as [idx|] eqn:E; [|discriminate].
      cbn. intros [= <-]. unfold SetColorIndex.
      destruct (inRect _ _ _); [|now split].
      split; [exact Hpal|]. cbn [pal_pix].
      intros k v. rewrite lookup_insert. destruct (decide _).
      + intros [= <-]. eapply extractIndex_range; eassumption.
      + apply Hpix.
    - split; [reflexivity|]. intros k v. rewrite Hempty, lookup_empty.
      discriminate. }
  destruct HQ as [Hpal Hpix]. split; [assumption|].
  intros x y. unfold ColorIndexAt.
  assert (0 < 2 ^ BitCount info) by (apply Z.pow_pos_nonneg; lia).
  destruct (inRect _ _ _); [|cbn; lia].
  destruct (pal_pix img' !! (x, y)) as [v|] eqn:E; cbn; [eauto | lia].
Qed.

End Preservation.

(** ** The palette [Decode] hands to the pixel stage *)

Section PaletteLength.

Lemma paletteLoop_length (count : nat) : forall acc r palette r',
  paletteLoop count acc r = Some ((palette, None), r') ->
  length palette = (length acc + count)%nat.
Proof.
  induction count as [|count IH]; intros acc r palette r'.
  - cbn. unfold mret, M_ret. intros [= <- _]. lia.
  - rewrite paletteLoop_S.
    destruct (ReadFull 4 r) as [[[bgr [e|]] r1]|]; [discriminate| |discriminate].
    intros H. apply IH in H. rewrite length_app in H. cbn in H. lia.
Qed.

(** With a zero colour-used count, a palette read without error has
    [2^bitCount] entries for a depth up to 8 and none above. *)
Lemma parsePalette_length (info : InfoHeader) (r r' : Reader)
    (palette : list RGBA) :
  0 <= BitCount info -> ClrUsed info = 0 ->
  parsePalette info r = Some ((palette, None), r') ->
  if 8 <? BitCount info then palette = []
  else Z.of_nat (length palette) = 2 ^ BitCount info.
Proof.
  intros Hbc Hclr. unfold parsePalette. rewrite Hclr.
  change (0 =? 0) with true. change (0 <? 0) with false.
  rewrite andb_true_r.
  destruct (Z.ltb_spec 8 (BitCount info)).
  - unfold mret, M_ret. now intros [= <- _].
  - cbv zeta. rewrite M_bind_unfold. unfold make.
    rewrite Z.shiftl_1_l.
    assert (0 < 2 ^ BitCount info <= 2 ^ 8).
    { split; [apply Z.pow_pos_nonneg; lia | apply Z.pow_le_mono_r; lia]. }
    rewrite int_small by lia.
    destruct (Z.ltb_spec (2 ^ BitCount info) 0); [lia|].
    intros Hloop. apply paletteLoop_length in Hloop. cbn in Hloop. lia.
Qed.

Lemma readMasks_fields (info info' : InfoHeader) (r r' : Reader)
    (oerr : option error) :
  readMasks info r = Some ((info', oerr), r') ->
  data r' = data r /\
  Width info' = Width info /\ Height info' = Height info /\
  BitCount info' = BitCount info /\ Compression info' = Compression info /\
  (Compression info ≠ biBitFields -> info' = info /\ r' = r /\ oerr = None).
Proof.
  unfold readMasks.
  destruct (Z.eqb_spec (Compression info) biBitFields) as [Hc|Hc].
  - rewrite M_bind_unfold.
    destruct (ReadFull 16 r) as [[[buf [e|]] r1]|] eqn:E; [| |discriminate];
      unfold mret, M_ret; intros [= <- <- <-];
      (split; [exact (ReadFull_data _ _ _ _ _ E)|]);
      repeat split; try reflexivity; contradiction.
  - unfold mret, M_ret. intros [= <- <- <-]. repeat split; reflexivity.
Qed.

(** The direct-colour readers return images of their own type. *)
Lemma read16BitData_kind img info r i oerr r' :
  read16BitData img info r = Some ((Some i, oerr), r') ->
  exists p, i = ImgRGBA64 p.
Proof.
  unfold read16BitData. destruct (masks16 info) as [[rm gm] bm].
  rewrite orPanic_bind. destruct (maskShift rm); [|discriminate].
  rewrite orPanic_bind. destruct (maskShift gm); [|discriminate].
  rewrite orPanic_bind. destruct (maskShift bm); [|discriminate].
  rewrite make_bind. destruct (_ <? 0); [discriminate|].
  rewrite M_bind_unfold.
  destruct (scanRows _ _ _ _ _ _) as [[[img' [e'|]] r'']|];
    unfold mret, M_ret; [discriminate| |discriminate].
  intros [= <- _ _]. now eexists.
Qed.

Lemma read32BitData_kind img info r i oerr r' :
  read32BitData img info r = Some ((Some i, oerr), r') ->
  exists p, i = ImgRGBA p.
Proof.
  unfold read32BitData. destruct (masks32 info) as [[[rm gm] bm] am].
  rewrite orPanic_bind. destruct (maskShift rm); [|discriminate].
  rewrite orPanic_bind. destruct (maskShift gm); [|discriminate].
  rewrite orPanic_bind. destruct (maskShift bm); [|discriminate].
  rewrite orPanic_bind. destruct (maskShift am); [|discriminate].
  rewrite make_bind. destruct (_ <? 0); [discriminate|].
  rewrite M_bind_unfold.
  destruct (scanRows _ _ _ _ _ _) as [[[img' [e'|]] r'']|];
    unfold mret, M_ret; [discriminate| |discriminate].
  intros [= <- _ _]. now eexists.
Qed.

Lemma read24BitData_kind img info r i oerr r' :
  read24BitData img info r = Some ((Some i, oerr), r') ->
  exists p, i = ImgRGBA p.
Proof.
  unfold read24BitData.
  rewrite make_bind. destruct (_ <? 0); [discriminate|].
  rewrite M_bind_unfold.
  destruct (scanRows _ _ _ _ _ _) as [[[img' [e'|]] r'']|];
    unfold mret, M_ret; [discriminate| |discriminate].
  intros [= <- _ _]. now eexists.
Qed.

(** A paletted image comes out of [decodePixelData] from the indexed
    path only: its palette is the one given and its indices are below
    [2^bitCount]. *)
Lemma decodePixelData_paletted info palette r img oerr r' :
  decodePixelData info palette r = Some ((Some (ImgPaletted img), oerr), r') ->
  (BitCount info = 1 \/ BitCount info = 4 \/ BitCount info = 8) /\
  pal_palette img = palette /\
  forall x y, 0 <= ColorIndexAt img x y < 2 ^ BitCount info.
Proof.
  unfold decodePixelData.
  destruct (Z.eqb_spec (BitCount info) 1) as [H1|H1];
    [|destruct (Z.eqb_spec (BitCount info) 4) as [H4|H4];
      [|destruct (Z.eqb_spec (BitCount info) 8) as [H8|H8]]]; cbn [orb].
  4:{ destruct (BitCount info =? 16).
      { rewrite orPanic_bind. destruct (NewRGBA64 _); [|discriminate].
        intros H. apply read16BitData_kind in H as [p [=]]. }
      destruct (BitCount info =? 24).
      { rewrite orPanic_bind. destruct (NewRGBA _); [|discriminate].
        intros H. apply read24BitData_kind in H as [p [=]]. }
      destruct (BitCount info =? 32).
      { rewrite orPanic_bind. destruct (NewRGBA _); [|discriminate].
        intros H. apply read32BitData_kind in H as [p [=]]. }
      unfold mret, M_ret. discriminate. }
  all: rewrite orPanic_bind;
    destruct (NewPaletted _ _) as [img0|] eqn:Enew; [|discriminate];
    apply NewPaletted_Some in Enew; subst img0;
    rewrite M_bind_unfold;
    destruct (readIndexedData _ _ _) as [[[img' err] r'']|] eqn:E; [|discriminate];
    unfold mret, M_ret; intros [= <- _ _];
    pose proof (λ Hb He, readIndexedData_indices _ _ _ _ _ _ Hb He E) as HI;
    destruct HI as [Hpal Hidx]; [tauto|reflexivity|];
    (split; [tauto|]); split; assumption.
Qed.

End PaletteLength.

(** X4. Every paletted image [Decode] returns, with or without an
    error, has all its colour indices inside its palette: the palette
    holds [2^bitCount] entries (the colour-used field not being
    consulted) and every stored index is masked to [bitCount] bits. *)
Theorem Decode_indices_within_palette (r r' : Reader) (img : Paletted)
    (oerr : option error) :
  Decode r = Some ((Some (ImgPaletted img), oerr), r') ->
  forall x y, 0 <= ColorIndexAt img x y < Z.of_nat (length (pal_palette img)).
Proof.
  unfold Decode. rewrite M_bind_unfold.
  destruct (readHeaders r) as [[[[[fh info]|] err] r1]|] eqn:Eh;
    [|unfold mret, M_ret; discriminate|discriminate].
  destruct (readHeaders_fields _ _ _ _ _ Eh)
    as (_ & _ & _ & _ & _ & _ & _ & _ & Hbc & _ & _ & _ & Hclr & _).
  unfold decodeBody. rewrite M_bind_unfold.
  destruct (parsePalette info r1) as [[[palette [e1|]] r2]|] eqn:Ep;
    [unfold mret, M_ret; discriminate| |discriminate].
  rewrite M_bind_unfold.
  destruct (readMasks info r2) as [[[info' [e2|]] r3]|] eqn:Em;
    [unfold mret, M_ret; discriminate| |discriminate].
  destruct (readMasks_fields _ _ _ _ _ Em) as (_ & _ & _ & Hbc' & _).
  rewrite M_bind_unfold.
  destruct (Seek (DataOffset fh) r3) as [[[e3|] r4]|];
    [unfold mret, M_ret; discriminate| |discriminate].
  intros Hdec x y.
  destruct (decodePixelData_paletted _ _ _ _ _ _ Hdec) as (Hd & Hpal & Hidx).
  specialize (Hidx x y). rewrite Hbc' in Hd, Hidx.
  pose proof (parsePalette_length info r1 r2 palette ltac:(lia) Hclr Ep) as Hlen.
  destruct (Z.ltb_spec 8 (BitCount info)); [lia|].
  rewrite Hpal, Hlen. exact Hidx.
Qed.

Lemma Decode_indices_within_palette_witness :
  exists img,
    Decode (stream nibbles) =
      Some ((Some (ImgPaletted img), None), mkReader nibbles 94) /\
    forall x y,
      0 <= ColorIndexAt img x y < Z.of_nat (length (pal_palette img)).
Proof.
  eexists. split; [vm_compute; reflexivity|].
  apply (Decode_indices_within_palette (stream nibbles) (mkReader nibbles 94)
           _ None).
  vm_compute. reflexivity.
Defined.

(** ** From the stream to the pixel stage *)

Section Stages.

Variable bs : list byte.
Hypothesis Hsig : sub bs 0 2 = BM.
Hypothesis Htag : headerTag bs = 12 \/ headerTag bs = 40.

Lemma headerInfo_BitCount : 0 <= BitCount (headerInfo bs) < 2 ^ 16.
Proof.
  unfold headerInfo. destruct (headerTag bs =? coreHeaderSize); cbn.
  - apply (le_sub_16 bs 24).
  - apply (le_sub_16 bs 28).
Qed.

Lemma paletteEnd_bounds : headerEnd bs <= paletteEnd bs <= metadataEnd bs.
Proof.
  unfold metadataEnd, paletteEnd. pose proof headerInfo_BitCount.
  assert (0 < 2 ^ BitCount (headerInfo bs)) by (apply Z.pow_pos_nonneg; lia).
  destruct (8 <? _), (_ =? biBitFields); lia.
Qed.

Lemma headerEnd_bounds : 26 <= headerEnd bs <= 54.
Proof. unfold headerEnd. destruct (_ =? _); lia. Qed.

(** The header stage on a stream that holds the header. *)
Lemma readHeaders_stage :
  headerEnd bs <= Z.of_nat (length bs) ->
  readHeaders (stream bs) =
  Some ((Some (fileHeaderOf bs, headerInfo bs), None),
        mkReader bs (headerEnd bs)).
Proof.
  intros Hlen. pose proof headerEnd_bounds.
  rewrite readHeaders_to_switch by (assumption || lia).
  unfold headerInfo, headerEnd, headerTag in *.
  destruct Htag as [Ht|Ht]; rewrite Ht in *.
  - change (12 =? coreHeaderSize) with true in *. cbv iota in *.
    apply headerSwitch_core; [lia | assumption | lia].
  - change (40 =? coreHeaderSize) with false in *. cbv iota in *.
    apply headerSwitch_info; [lia | assumption | lia].
Qed.

(** The palette loop in equational form. *)
Lemma paletteLoop_eq (count : nat) (r : Reader) :
  0 <= pos r ->
  pos r + 4 * Z.of_nat count <= Z.of_nat (length (data r)) ->
  paletteLoop count [] r =
  Some ((map (λ i : nat, entryAt (data r) (pos r + 4 * Z.of_nat i))
             (seq 0 count), None),
        mkReader (data r) (pos r + 4 * Z.of_nat count)).
Proof.
  intros Hp Hl.
  destruct (paletteLoop_ok count [] r Hp Hl) as (entries & Heq & Hn & Hent).
  rewrite Heq. cbn [app]. do 3 f_equal.
  apply list_eq. intros i. rewrite list_lookup_fmap.
  destruct (Nat.lt_ge_cases i count) as [Hi|Hi].
  - rewrite Hent, lookup_seq_lt by assumption. reflexivity.
  - rewrite lookup_seq_ge by assumption.
    apply lookup_ge_None. lia.
Qed.

(** The palette stage. *)
Lemma parsePalette_stage :
  paletteEnd bs <= Z.of_nat (length bs) ->
  parsePalette (headerInfo bs) (mkReader bs (headerEnd bs)) =
  Some ((streamPalette bs, None), mkReader bs (paletteEnd bs)).
Proof.
  intros Hlen.
  pose proof paletteEnd_bounds as Hpe. pose proof headerEnd_bounds.
  pose proof headerInfo_BitCount as Hbc.
  assert (Hclr : ClrUsed (headerInfo bs) = 0).
  { unfold headerInfo. destruct (_ =? _); reflexivity. }
  unfold parsePalette, streamPalette, paletteEnd in *. rewrite Hclr.
  change (0 =? 0) with true. change (0 <? 0) with false.
  rewrite andb_true_r.
  destruct (Z.ltb_spec 8 (BitCount (headerInfo bs))).
  - unfold mret, M_ret. do 3 f_equal. lia.
  - cbv zeta. rewrite M_bind_unfold. unfold make. rewrite Z.shiftl_1_l.
    assert (0 < 2 ^ BitCount (headerInfo bs) <= 2 ^ 8).
    { split; [apply Z.pow_pos_nonneg; lia | apply Z.pow_le_mono_r; lia]. }
    rewrite int_small by lia.
    destruct (Z.ltb_spec (2 ^ BitCount (headerInfo bs)) 0); [lia|].
    rewrite paletteLoop_eq by (cbn [pos data]; lia).
    cbn [pos data]. do 3 f_equal. lia.
Qed.

(** The bit-field stage. *)
Lemma readMasks_stage :
  metadataEnd bs <= Z.of_nat (length bs) ->
  readMasks (headerInfo bs) (mkReader bs (paletteEnd bs)) =
  Some ((streamInfo bs, None), mkReader bs (metadataEnd bs)).
Proof.
  intros Hlen.
  pose proof paletteEnd_bounds as Hpe. pose proof headerEnd_bounds.
  unfold readMasks, streamInfo, metadataEnd in *.
  destruct (Compression (headerInfo bs) =? biBitFields).
  - rewrite M_bind_unfold, ReadFull_ok by (cbn [pos data]; lia).
    cbn [pos data]. change (Z.to_nat 16) with 16%nat.
    rewrite !sub_take_drop by lia. cbn [Nat.add]. unfold mret, M_ret.
    rewrite !Nat.add_0_r. reflexivity.
  - unfold mret, M_ret. do 3 f_equal. lia.
Qed.

(** [Decode] is its pixel stage on the metadata of the stream, started
    at the declared data offset. *)
Lemma Decode_stages :
  metadataEnd bs <= Z.of_nat (length bs) ->
  Decode (stream bs) =
  decodePixelData (streamInfo bs) (streamPalette bs)
    (mkReader bs (DataOffset (fileHeaderOf bs))).
Proof.
  intros Hlen. pose proof paletteEnd_bounds as Hpe.
  unfold Decode. rewrite M_bind_unfold, readHeaders_stage by lia.
  unfold decodeBody. rewrite M_bind_unfold, parsePalette_stage by lia.
  rewrite M_bind_unfold, readMasks_stage by lia.
  rewrite M_bind_unfold. unfold Seek.
  pose proof (le_sub_32 bs 10) as Hoff. cbn [Nat.add] in Hoff.
  cbn [DataOffset fileHeaderOf].
  destruct (Z.ltb_spec (le (sub bs 10 14)) 0); [lia|]. reflexivity.
Qed.

End Stages.

(** X5. On a stream with the "BM" signature and a header-size tag of
    12 or 40 that holds the metadata (the header; right after it the
    palette of [2^bitCount] four-byte entries when the depth is at most
    8, whatever the colour-used field says; after the palette the 16
    bytes of masks when the compression is bit-fields), [Decode]
    returns what [decodePixelData] returns for these header fields,
    palette and masks with the stream moved to the declared data
    offset, wherever the metadata ended. *)
Theorem Decode_is_pixel_stage (bs : list byte) :
  sub bs 0 2 = BM ->
  headerTag bs = 12 \/ headerTag bs = 40 ->
  metadataEnd bs <= Z.of_nat (length bs) ->
  Decode (stream bs) =
  decodePixelData (streamInfo bs) (streamPalette bs)
    (mkReader bs (DataOffset (fileHeaderOf bs))).
Proof. apply Decode_stages. Qed.

Lemma Decode_is_pixel_stage_witness :
  Decode (stream nibbles) =
  decodePixelData (streamInfo nibbles) (streamPalette nibbles)
    (mkReader nibbles (DataOffset (fileHeaderOf nibbles))).
Proof.
  apply (Decode_is_pixel_stage nibbles).
  - reflexivity.
  - left. reflexivity.
  - vm_compute. discriminate.
Defined.

(** ** Scanlines as bytes of the stream *)

Section ScanlineBytes.

Variables (bs : list byte) (off n : Z).
Hypothesis Hoff : 0 <= off.
Hypothesis Hn : 0 <= n.
Hypothesis Hlen : off + n <= Z.of_nat (length bs).

(** Byte [k] of a scanline is byte [off + k] of the stream. *)
Lemma index_scanline (k : Z) :
  0 <= k < n -> index (scanline bs off n) k = Some (byteAt bs (off + k)).
Proof.
  intros Hk. unfold byteAt, index, scanline.
  destruct (Z.ltb_spec k 0); [lia|].
  destruct (Z.ltb_spec (off + k) 0); [lia|].
  rewrite lookup_take_lt, lookup_drop by lia.
  replace (Z.to_nat off + Z.to_nat k)%nat with (Z.to_nat (off + k)) by lia.
  destruct (lookup_lt_is_Some_2 bs (Z.to_nat (off + k)) ltac:(lia)) as [b Hb].
  rewrite Hb. reflexivity.
Qed.

Lemma sub_scanline_cons (k m : nat) :
  (k < m)%nat -> Z.of_nat m <= n ->
  le (sub (scanline bs off n) k m) =
  byteAt bs (off + Z.of_nat k) + 256 * le (sub (scanline bs off n) (S k) m).
Proof.
  intros Hk Hm.
  pose proof (index_scanline (Z.of_nat k) ltac:(lia)) as Hi. unfold index in Hi.
  destruct (Z.ltb_spec (Z.of_nat k) 0); [lia|]. rewrite Nat2Z.id in Hi.
  destruct (scanline bs off n !! k) as [b|] eqn:Hb; [|discriminate].
  injection Hi as Hi. unfold sub. rewrite (drop_S _ _ _ Hb).
  replace (m - k)%nat with (S (m - S k)) by lia.
  cbn [take firstn le]. now rewrite Hi.
Qed.

Lemma sub_scanline_nil (k : nat) : le (sub (scanline bs off n) k k) = 0.
Proof. unfold sub. now rewrite Nat.sub_diag. Qed.

(** The 16-bit word at byte [k] of a scanline. *)
Lemma word16_scanline (k : Z) :
  0 <= k -> k + 2 <= n ->
  le <$> slice (scanline bs off n) k (k + 2) =
  Some (byteAt bs (off + k) + 256 * byteAt bs (off + k + 1)).
Proof.
  intros Hk Hm.
  assert (Hl : Z.of_nat (length (scanline bs off n)) = n).
  { unfold scanline. rewrite length_take, length_drop. lia. }
  rewrite slice_ok by lia. cbn [fmap option_fmap option_map]. f_equal.
  replace (Z.to_nat (k + 2)) with (S (S (Z.to_nat k))) by lia.
  rewrite !sub_scanline_cons, sub_scanline_nil by lia.
  replace (Z.of_nat (Z.to_nat k)) with k by lia.
  replace (Z.of_nat (S (Z.to_nat k))) with (k + 1) by lia.
  rewrite Z.add_assoc. lia.
Qed.

(** The 32-bit word at byte [k] of a scanline. *)
Lemma word32_scanline (k : Z) :
  0 <= k -> k + 4 <= n ->
  le <$> slice (scanline bs off n) k (k + 4) =
  Some (byteAt bs (off + k) + 256 * (byteAt bs (off + k + 1) +
        256 * (byteAt bs (off + k + 2) + 256 * byteAt bs (off + k + 3)))).
Proof.
  intros Hk Hm.
  assert (Hl : Z.of_nat (length (scanline bs off n)) = n).
  { unfold scanline. rewrite length_take, length_drop. lia. }
  rewrite slice_ok by lia. cbn [fmap option_fmap option_map]. f_equal.
  replace (Z.to_nat (k + 4)) with (S (S (S (S (Z.to_nat k))))) by lia.
  rewrite !sub_scanline_cons, sub_scanline_nil by lia.
  replace (Z.of_nat (Z.to_nat k)) with k by lia.
  replace (Z.of_nat (S (Z.to_nat k))) with (k + 1) by lia.
  replace (Z.of_nat (S (S (Z.to_nat k)))) with (k + 2) by lia.
  replace (Z.of_nat (S (S (S (Z.to_nat k))))) with (k + 3) by lia.
  rewrite !Z.add_assoc. lia.
Qed.

Lemma byteAt_range (k : Z) : 0 <= byteAt bs k < 256.
Proof.
  unfold byteAt, index. destruct (k <? 0); [cbn; lia|].
  destruct (bs !! Z.to_nat k) as [b|]; cbn; [apply byteZ_range | lia].
Qed.

End ScanlineBytes.

(** ** The bounds of the image *)

Section Bounds.

(** Storing pixels through the two loops keeps the bounds. *)
Lemma rows_keep_bounds {I V : Type} `{PixelStore I V}
    (pixel : list byte → Z → Z → I → option I) (ty : Z → Z)
    (width : nat) (bytesPerRow : Z) :
  (forall row t x img img', pixel row t x img = Some img' ->
     bounds img' = bounds img) ->
  forall count y img r img' oerr r',
    scanRows count y bytesPerRow
      (λ y row img, forRange width 0 (pixel row (ty y)) img) img r
    = Some ((img', oerr), r') ->
    bounds img' = bounds img.
Proof.
  intros Hpixel count y img r img' oerr r'.
  apply (scanRows_preserves (λ p, bounds p = bounds img)); [|reflexivity].
  intros y0 row p p' Hp.
  apply (forRange_preserves (λ p, bounds p = bounds img)); [|exact Hp].
  intros x st st' Hst Hb. rewrite (Hpixel _ _ _ _ _ Hb). exact Hst.
Qed.

Lemma read24BitData_rect img info r img' oerr r' :
  read24BitData img info r = Some ((Some (ImgRGBA img'), oerr), r') ->
  rgba_rect img' = rgba_rect img.
Proof.
  unfold read24BitData.
  rewrite make_bind. destruct (_ <? 0); [discriminate|].
  rewrite M_bind_unfold.
  destruct (scanRows _ _ _ _ _ _) as [[[img1 [e'|]] r'']|] eqn:E;
    unfold mret, M_ret; [discriminate| |discriminate].
  intros [= <- _ _].
  apply (rows_keep_bounds (I := RGBAImg) (V := RGBA)
           (λ row t x img, pixel24 row t x img)
           (targetRow info (Height info))) in E; [exact E|].
  intros row t x p p'. unfold pixel24.
  destruct (color24 row x); [|discriminate]. cbn. intros [= <-].
  apply (@bounds_store RGBAImg RGBA RGBA_store).
Qed.

Lemma read32BitData_rect img info r img' oerr r' :
  read32BitData img info r = Some ((Some (ImgRGBA img'), oerr), r') ->
  rgba_rect img' = rgba_rect img.
Proof.
  unfold read32BitData. destruct (masks32 info) as [[[rm gm] bm] am].
  rewrite orPanic_bind. destruct (maskShift rm); [|discriminate].
  rewrite orPanic_bind. destruct (maskShift gm); [|discriminate].
  rewrite orPanic_bind. destruct (maskShift bm); [|discriminate].
  rewrite orPanic_bind. destruct (maskShift am); [|discriminate].
  rewrite make_bind. destruct (_ <? 0); [discriminate|].
  rewrite M_bind_unfold.
  destruct (scanRows _ _ _ _ _ _) as [[[img1 [e'|]] r'']|] eqn:E;
    unfold mret, M_ret; [discriminate| |discriminate].
  intros [= <- _ _].
  apply (rows_keep_bounds (I := RGBAImg) (V := RGBA)
           (λ row t x img, pixel32 _ _ row t x img)
           (targetRow info (absHeight info))) in E; [exact E|].
  intros row t x st st'. unfold pixel32.
  destruct (color32 _ _ row x); [|discriminate]. cbn. intros [= <-].
  apply (@bounds_store RGBAImg RGBA RGBA_store).
Qed.

Lemma read16BitData_rect img info r img' oerr r' :
  read16BitData img info r = Some ((Some (ImgRGBA64 img'), oerr), r') ->
  rgba64_rect img' = rgba64_rect img.
Proof.
  unfold read16BitData. destruct (masks16 info) as [[rm gm] bm].
  rewrite orPanic_bind. destruct (maskShift rm); [|discriminate].
  rewrite orPanic_bind. destruct (maskShift gm); [|discriminate].
  rewrite orPanic_bind. destruct (maskShift bm); [|discriminate].
  rewrite make_bind. destruct (_ <? 0); [discriminate|].
  rewrite M_bind_unfold.
  destruct (scanRows _ _ _ _ _ _) as [[[img1 [e'|]] r'']|] eqn:E;
    unfold mret, M_ret; [discriminate| |discriminate].
  intros [= <- _ _].
  apply (rows_keep_bounds (I := RGBA64Img) (V := RGBA64)
           (λ row t x img, pixel16 _ _ _ _ row t x img)
           (targetRow info (absHeight info))) in E; [exact E|].
  intros row t x st st'. unfold pixel16.
  destruct (color16 _ _ _ _ row x); [|discriminate]. cbn. intros [= <-].
  apply (@bounds_store RGBA64Img RGBA64 RGBA64_store).
Qed.

End Bounds.

(** ** 24 bits *)

(** X6. A 24-bit image of positive declared height whose pixel buffer
    is within the allocation limit, on a stream that holds its
    scanlines from the reader's offset on: [decodePixelData] returns
    without error a [width x height] image, leaves the stream
    right after the last scanline, and pixel [(x, height-1-y)] is
    opaque with blue, green, red taken from the three bytes at
    [x * 3] of scanline [y], scanlines being [bytesPerRow24] bytes
    apart. *)
Theorem decode24_bottom_up (info : InfoHeader) (palette : list RGBA)
    (bs : list byte) (base : Z) :
  BitCount info = 24 -> 0 <= Width info -> 0 < Height info ->
  4 * (Width info * Height info) <= maxAlloc ->
  0 <= base ->
  base + Height info * bytesPerRow24 info <= Z.of_nat (length bs) ->
  exists img,
    decodePixelData info palette (mkReader bs base) =
      Some ((Some (ImgRGBA img), None),
            mkReader bs (base + Height info * bytesPerRow24 info)) /\
    rgba_rect img = mkRect 0 0 (Width info) (Height info) /\
    forall x y, 0 <= x < Width info -> 0 <= y < Height info ->
      let o := base + y * bytesPerRow24 info + x * 3 in
      RGBAAt img x (Height info - 1 - y) =
      mkRGBA (byteAt bs (o + 2)) (byteAt bs (o + 1)) (byteAt bs o) 255.
Proof.
  intros Hbc Hw Hh Halloc Hbase Hdata.
  pose proof (bytesPerRow24_bounds info) as Hbpr.
  assert (Habs : absHeight info = Height info).
  { unfold absHeight. destruct (Z.ltb_spec (Height info) 0); lia. }
  unfold decodePixelData. rewrite Hbc, Habs. cbn [Z.eqb Pos.eqb orb].
  rewrite Rect_nonneg by lia. rewrite orPanic_bind.
  rewrite NewRGBA_fits by nia.
  destruct (read24BitData_spec info bs base Hw Hbase
              (mkRGBAImg ∅ (mkRect 0 0 (Width info) (Height info)))
              Hh Hdata eq_refl) as (img & Heq & Hpix).
  exists img. split; [exact Heq|]. split.
  { now rewrite (read24BitData_rect _ _ _ _ _ _ Heq). }
  cbv zeta. intros x y Hx Hy. specialize (Hpix x y Hx Hy).
  unfold color24 in Hpix.
  rewrite !index_scanline in Hpix by nia. cbn in Hpix.
  injection Hpix as <-. f_equal; f_equal; lia.
Qed.

Lemma decode24_bottom_up_witness :
  exists img,
    decodePixelData (plainInfo 1 2 24) [] (mkReader bottomUp24 54) =
      Some ((Some (ImgRGBA img), None),
            mkReader bottomUp24
              (54 + Height (plainInfo 1 2 24) * bytesPerRow24 (plainInfo 1 2 24))) /\
    rgba_rect img =
      mkRect 0 0 (Width (plainInfo 1 2 24)) (Height (plainInfo 1 2 24)) /\
    forall x y, 0 <= x < Width (plainInfo 1 2 24) ->
                0 <= y < Height (plainInfo 1 2 24) ->
      let o := 54 + y * bytesPerRow24 (plainInfo 1 2 24) + x * 3 in
      RGBAAt img x (Height (plainInfo 1 2 24) - 1 - y) =
      mkRGBA (byteAt bottomUp24 (o + 2)) (byteAt bottomUp24 (o + 1))
             (byteAt bottomUp24 o) 255.
Proof.
  apply (decode24_bottom_up (plainInfo 1 2 24) [] bottomUp24 54);
    vm_compute; intuition discriminate.
Defined.

(** X7. A 24-bit image whose declared height is zero or negative
    (top-down) and whose pixel buffer, [4 * width * |height|] bytes, is
    within the allocation limit: [decodePixelData] returns without
    error a [width x |height|] image in which every pixel is still the
    zero colour, and reads nothing, whatever the stream holds: the row
    loop runs up to the declared height, not its absolute value. *)
Theorem decode24_top_down_blank (info : InfoHeader) (palette : list RGBA)
    (r : Reader) :
  BitCount info = 24 -> 0 <= Width info -> Height info <= 0 ->
  4 * (Width info * absHeight info) <= maxAlloc ->
  exists img,
    decodePixelData info palette r = Some ((Some (ImgRGBA img), None), r) /\
    rgba_rect img = mkRect 0 0 (Width info) (- Height info) /\
    forall x y, RGBAAt img x y = mkRGBA 0 0 0 0.
Proof.
  intros Hbc Hw Hh Hsize.
  assert (Habs : absHeight info = - Height info).
  { unfold absHeight. destruct (Z.ltb_spec (Height info) 0); lia. }
  unfold decodePixelData. rewrite Hbc. cbn [Z.eqb Pos.eqb orb].
  rewrite Habs in *. rewrite Rect_nonneg by lia.
  rewrite orPanic_bind. rewrite NewRGBA_fits by nia.
  rewrite read24BitData_top_down by assumption.
  eexists. split; [reflexivity|]. split; [reflexivity|].
  intros x y. unfold RGBAAt. cbn [rgba_pix rgba_rect].
  rewrite lookup_empty. now destruct (inRect _ _ _).
Qed.

Lemma decode24_top_down_blank_witness :
  exists img,
    decodePixelData (plainInfo 1 (-2) 24) [] (mkReader topDown24 54) =
      Some ((Some (ImgRGBA img), None), mkReader topDown24 54) /\
    rgba_rect img =
      mkRect 0 0 (Width (plainInfo 1 (-2) 24)) (- Height (plainInfo 1 (-2) 24)) /\
    forall x y, RGBAAt img x y = mkRGBA 0 0 0 0.
Proof.
  apply (decode24_top_down_blank (plainInfo 1 (-2) 24) []
           (mkReader topDown24 54));
    vm_compute; intuition discriminate.
Defined.

(** ** 32 bits *)

Section Word32.

(** [byte((p & (0xFF << s)) >> s)] is byte [s/8] of the word. *)
Lemma byte_of_word (p s : Z) :
  0 <= s ->
  uint8 (Z.shiftr (Z.land p (Z.shiftl 255 s)) s) = (p / 2 ^ s) mod 256.
Proof.
  intros Hs. rewrite Z.shiftr_land, Z.shiftr_shiftl_l by lia.
  rewrite Z.sub_diag, Z.shiftl_0_r. change 255 with (Z.ones 8).
  rewrite Z.land_ones, Z.shiftr_div_pow2 by lia.
  unfold uint8. change (2 ^ 8) with 256. now rewrite Z.mod_mod by lia.
Qed.

Lemma byte0_of_word (p : Z) :
  uint8 (Z.shiftr (Z.land p 255) 0) = p mod 256.
Proof.
  rewrite Z.shiftr_0_r. change 255 with (Z.ones 8).
  rewrite Z.land_ones by lia.
  unfold uint8. change (2 ^ 8) with 256. now rewrite Z.mod_mod by lia.
Qed.

(** The four bytes of a little-endian word. *)
Lemma word32_bytes (b0 b1 b2 b3 : Z) :
  0 <= b0 < 256 -> 0 <= b1 < 256 -> 0 <= b2 < 256 -> 0 <= b3 < 256 ->
  let p := b0 + 256 * (b1 + 256 * (b2 + 256 * b3)) in
  p mod 256 = b0 /\ (p / 2 ^ 8) mod 256 = b1 /\
  (p / 2 ^ 16) mod 256 = b2 /\ (p / 2 ^ 24) mod 256 = b3.
Proof.
  intros H0 H1 H2 H3 p. subst p.
  change (2 ^ 8) with 256.
  change (2 ^ 16) with 65536. change (2 ^ 24) with 16777216.
  repeat split.
  - symmetry. apply (Z.mod_unique_pos _ _
      (b1 + 256 * (b2 + 256 * b3))); lia.
  - symmetry. apply (Z.mod_unique_pos _ _ (b2 + 256 * b3)); [lia|].
    symmetry. apply (Z.div_unique_pos _ _ _ b0); lia.
  - symmetry. apply (Z.mod_unique_pos _ _ b3); [lia|].
    symmetry. apply (Z.div_unique_pos _ _ _ (b0 + 256 * b1)); lia.
  - rewrite Z.mod_small.
    + symmetry. apply (Z.div_unique_pos _ _ _ (b0 + 256 * (b1 + 256 * b2))); lia.
    + assert (E : (b0 + 256 * (b1 + 256 * (b2 + 256 * b3))) / 16777216 = b3).
      { symmetry.
        apply (Z.div_unique_pos _ _ _ (b0 + 256 * (b1 + 256 * b2))); lia. }
      rewrite E. lia.
Qed.

(** The colour of a pixel under the default masks: the four bytes are
    blue, green, red, alpha. *)
Lemma color32_default (row : list byte) (x b0 b1 b2 b3 : Z) :
  0 <= b0 < 256 -> 0 <= b1 < 256 -> 0 <= b2 < 256 -> 0 <= b3 < 256 ->
  le <$> slice row (x * 4) (x * 4 + 4) =
    Some (b0 + 256 * (b1 + 256 * (b2 + 256 * b3))) ->
  color32 (0x00FF0000, 0x0000FF00, 0x000000FF, 0xFF000000) (16, 8, 0, 24)
          row x = Some (mkRGBA b2 b1 b0 b3).
Proof.
  intros H0 H1 H2 H3 Hword. unfold color32. rewrite Hword.
  cbn [mbind option_bind].
  destruct (word32_bytes b0 b1 b2 b3 H0 H1 H2 H3) as (E0 & E1 & E2 & E3).
  change (0xFF000000 =? 0) with false. cbv iota.
  change 0x00FF0000 with (Z.shiftl 255 16).
  change 0x0000FF00 with (Z.shiftl 255 8).
  change 0xFF000000 with (Z.shiftl 255 24).
  rewrite !byte_of_word by lia. rewrite byte0_of_word.
  now rewrite E0, E1, E2, E3.
Qed.

End Word32.

(** X8. A 32-bit image without bit-fields compression whose pixel
    buffer is within the allocation limit, on a stream that holds its
    scanlines: [decodePixelData] returns without error a
    [width x |height|] image, leaves the stream right after the last
    scanline, and the pixel of column [x] of scanline [y] (stored at
    row [|height|-1-y] under a positive declared height, at row [y]
    under a negative one) has blue, green, red and alpha equal to the
    four bytes at [x * 4] of that scanline: the alpha byte is kept as
    it is. *)
Theorem decode32_default (info : InfoHeader) (palette : list RGBA)
    (bs : list byte) (base : Z) :
  BitCount info = 32 -> Compression info ≠ biBitFields ->
  0 <= Width info -> 0 <= base ->
  base + absHeight info * (Width info * 4) <= Z.of_nat (length bs) ->
  4 * (Width info * absHeight info) <= maxAlloc ->
  exists img,
    decodePixelData info palette (mkReader bs base) =
      Some ((Some (ImgRGBA img), None),
            mkReader bs (base + absHeight info * (Width info * 4))) /\
    rgba_rect img = mkRect 0 0 (Width info) (absHeight info) /\
    forall x y, 0 <= x < Width info -> 0 <= y < absHeight info ->
      let o := base + y * (Width info * 4) + x * 4 in
      RGBAAt img x (targetRow info (absHeight info) y) =
      mkRGBA (byteAt bs (o + 2)) (byteAt bs (o + 1)) (byteAt bs o)
             (byteAt bs (o + 3)).
Proof.
  intros Hbc Hcomp Hw Hbase Hdata Hlen.
  pose proof (absHeight_nonneg info) as Hh.
  unfold decodePixelData. rewrite Hbc. cbn [Z.eqb Pos.eqb orb].
  rewrite Rect_nonneg by lia. rewrite orPanic_bind.
  rewrite NewRGBA_fits by nia.
  assert (Hmasks : masks32 info =
                   (0x00FF0000, 0x0000FF00, 0x000000FF, 0xFF000000)).
  { unfold masks32. now destruct (Z.eqb_spec (Compression info) biBitFields). }
  destruct (read32BitData_spec info bs base Hw Hbase
              0x00FF0000 0x0000FF00 0x000000FF 0xFF000000
              (16, 8) (8, 8) (0, 8) (24, 8) Hmasks
              eq_refl eq_refl eq_refl eq_refl Hdata
              (mkRGBAImg ∅ (mkRect 0 0 (Width info) (absHeight info)))
              eq_refl) as (img & Heq & Hpix).
  exists img. split; [exact Heq|]. split.
  { now rewrite (read32BitData_rect _ _ _ _ _ _ Heq). }
  cbv zeta. intros x y Hx Hy. specialize (Hpix x y Hx Hy).
  cbn [fst snd] in Hpix. unfold bytesPerRow32 in Hpix.
  assert (Hrow : 0 <= y * (Width info * 4) /\
                 y * (Width info * 4) + Width info * 4
                 <= absHeight info * (Width info * 4)) by nia.
  pose proof (word32_scanline bs (base + y * (Width info * 4))
                (Width info * 4) ltac:(lia) ltac:(lia)
                (x * 4) ltac:(lia) ltac:(lia)) as Hword.
  rewrite (color32_default _ _ _ _ _ _
             (byteAt_range bs _) (byteAt_range bs _)
             (byteAt_range bs _) (byteAt_range bs _) Hword) in Hpix.
  injection Hpix as <-. f_equal; f_equal; lia.
Qed.

Lemma decode32_default_witness :
  exists img,
    decodePixelData (plainInfo 1 (-2) 32) [] (mkReader topDown24 54) =
      Some ((Some (ImgRGBA img), None),
            mkReader topDown24
              (54 + absHeight (plainInfo 1 (-2) 32)
                    * (Width (plainInfo 1 (-2) 32) * 4))) /\
    rgba_rect img =
      mkRect 0 0 (Width (plainInfo 1 (-2) 32)) (absHeight (plainInfo 1 (-2) 32)) /\
    forall x y, 0 <= x < Width (plainInfo 1 (-2) 32) ->
                0 <= y < absHeight (plainInfo 1 (-2) 32) ->
      let o := 54 + y * (Width (plainInfo 1 (-2) 32) * 4) + x * 4 in
      RGBAAt img x
        (targetRow (plainInfo 1 (-2) 32) (absHeight (plainInfo 1 (-2) 32)) y) =
      mkRGBA (byteAt topDown24 (o + 2)) (byteAt topDown24 (o + 1))
             (byteAt topDown24 o) (byteAt topDown24 (o + 3)).
Proof.
  apply (decode32_default (plainInfo 1 (-2) 32) [] topDown24 54);
    vm_compute; intuition discriminate.
Defined.

(** ** 16 bits *)

Section Channel16.

(** A mask that is one run of [w] bits from bit [s] on is
    [ones w << s]. *)
Lemma contiguous_run_mask (mask s w : Z) :
  0 <= w -> contiguous_run mask s w -> mask = Z.shiftl (Z.ones w) s.
Proof.
  intros Hw [Hs Hrun]. apply Z.bits_inj'. intros i Hi.
  rewrite Hrun by assumption.
  destruct (Z_lt_le_dec i s) as [Hlt|Hge].
  - rewrite Z.shiftl_spec_low by assumption.
    destruct (Z.leb_spec s i); [lia|reflexivity].
  - rewrite Z.shiftl_spec by assumption.
    destruct (Z.leb_spec s i); [|lia]. cbn [andb].
    destruct (Z.ltb_spec i (s + w)).
    + rewrite Z.ones_spec_low by lia. reflexivity.
    + rewrite Z.ones_spec_high by lia. reflexivity.
Qed.

(** The sample a run mask selects: the [w] bits of the word from bit
    [s] on. *)
Lemma sample_of_run (p s w : Z) :
  0 <= s -> 0 <= w ->
  Z.shiftr (Z.land p (Z.shiftl (Z.ones w) s)) s = (p / 2 ^ s) mod 2 ^ w.
Proof.
  intros Hs Hw. rewrite Z.shiftr_land, Z.shiftr_shiftl_l by lia.
  rewrite Z.sub_diag, Z.shiftl_0_r, Z.land_ones, Z.shiftr_div_pow2 by lia.
  reflexivity.
Qed.

(** A value shifted left by [n] shares no bit with a value below
    [2^n]. *)
Lemma land_shiftl_small (a b n : Z) :
  0 <= n -> 0 <= b < 2 ^ n -> Z.land (Z.shiftl a n) b = 0.
Proof.
  intros Hn Hb. apply Z.bits_inj'. intros i Hi.
  rewrite Z.land_spec, Z.bits_0.
  destruct (Z_lt_le_dec i n) as [Hlt|Hge].
  - now rewrite Z.shiftl_spec_low by assumption.
  - rewrite <- (Z.mod_small b (2 ^ n)) by assumption.
    rewrite Z.mod_pow2_bits_high by lia. apply andb_false_r.
Qed.

(** The value [channel16] gives a sample [v] of [w] bits,
    [1 <= w <= 16]; for [w = 0] the sample and the value are 0. *)
Lemma channel16_closed (pixel mask s w : Z) :
  contiguous_run mask s w -> 0 <= w <= 16 ->
  let v := (pixel / 2 ^ s) mod 2 ^ w in
  channel16 pixel mask s w =
    Some (v * 2 ^ (16 - w) + v * 2 ^ (16 - w) / 2 ^ w) /\
  0 <= v < 2 ^ w /\
  0 <= v * 2 ^ (16 - w) / 2 ^ w < 2 ^ (16 - w).
Proof.
  intros Hrun Hw v.
  pose proof (contiguous_run_mask mask s w ltac:(lia) Hrun) as ->.
  destruct Hrun as [Hs _].
  assert (Hv : 0 <= v < 2 ^ w) by (apply Z.mod_pos_bound, Z.pow_pos_nonneg; lia).
  assert (HP : 0 < 2 ^ (16 - w)) by (apply Z.pow_pos_nonneg; lia).
  assert (HQ : 0 < 2 ^ w) by (apply Z.pow_pos_nonneg; lia).
  assert (HPQ : 2 ^ (16 - w) * 2 ^ w = 2 ^ 16)
    by (rewrite <- Z.pow_add_r by lia; f_equal; lia).
  assert (Hc : 0 <= v * 2 ^ (16 - w) < 2 ^ 16) by nia.
  assert (Hlow : 0 <= v * 2 ^ (16 - w) / 2 ^ w < 2 ^ (16 - w)).
  { split; [apply Z.div_pos; lia|]. apply Z.div_lt_upper_bound; nia. }
  split; [|split; assumption].
  unfold channel16. destruct (Z.ltb_spec (16 - w) 0); [lia|].
  rewrite sample_of_run by lia. fold v. f_equal.
  rewrite Z.shiftl_mul_pow2 by lia. unfold uint32.
  rewrite Z.mod_small by lia.
  rewrite Z.shiftr_div_pow2 by lia.
  assert (Hdisj : Z.land (v * 2 ^ (16 - w)) (v * 2 ^ (16 - w) / 2 ^ w) = 0).
  { rewrite <- (Z.shiftl_mul_pow2 v (16 - w)) at 1 by lia.
    apply land_shiftl_small; lia. }
  now rewrite <- Z.lxor_lor, <- Z.add_nocarry_lxor by exact Hdisj.
Qed.

End Channel16.

(** X9. One channel of a 16-bit pixel, for a mask made of [w]
    contiguous bits from bit [s] on with [w <= 16]: with [v] the
    [w]-bit sample of the pixel, [channel16] returns
    [v * 2^(16-w) + (v * 2^(16-w)) / 2^w] (the sample moved to the top
    of 16 bits and one copy of it below); this value fits in 16 bits
    and its top [w] bits are the sample; a zero sample gives 0. *)
Theorem channel16_expansion (pixel mask s w : Z) :
  contiguous_run mask s w -> 0 <= w <= 16 ->
  let v := (pixel / 2 ^ s) mod 2 ^ w in
  exists c,
    channel16 pixel mask s w = Some c /\
    c = v * 2 ^ (16 - w) + v * 2 ^ (16 - w) / 2 ^ w /\
    0 <= c < 2 ^ 16 /\ c / 2 ^ (16 - w) = v /\ (v = 0 -> c = 0).
Proof.
  intros Hrun Hw v.
  destruct (channel16_closed pixel mask s w Hrun Hw) as (Heq & Hv & Hlow).
  fold v in Heq, Hv, Hlow. eexists. split; [exact Heq|].
  split; [reflexivity|].
  assert (HP : 0 < 2 ^ (16 - w)) by (apply Z.pow_pos_nonneg; lia).
  assert (HPQ : 2 ^ (16 - w) * 2 ^ w = 2 ^ 16)
    by (rewrite <- Z.pow_add_r by lia; f_equal; lia).
  split; [nia|]. split.
  - symmetry. apply (Z.div_unique_pos _ _ _ (v * 2 ^ (16 - w) / 2 ^ w)); lia.
  - intros ->. rewrite Z.mul_0_l. reflexivity.
Qed.

Lemma channel16_expansion_witness :
  exists c,
    channel16 0xFFFF 0x07E0 5 6 = Some c /\
    c = (0xFFFF / 2 ^ 5) mod 2 ^ 6 * 2 ^ (16 - 6)
        + (0xFFFF / 2 ^ 5) mod 2 ^ 6 * 2 ^ (16 - 6) / 2 ^ 6 /\
    0 <= c < 2 ^ 16 /\
    c / 2 ^ (16 - 6) = (0xFFFF / 2 ^ 5) mod 2 ^ 6 /\
    ((0xFFFF / 2 ^ 5) mod 2 ^ 6 = 0 -> c = 0).
Proof.
  apply (channel16_expansion 0xFFFF 0x07E0 5 6); [|lia].
  split; [lia|]. intros i Hi.
  destruct (Z_lt_le_dec i 11) as [Hlt|Hge].
  - assert (Hc : i = 0 \/ i = 1 \/ i = 2 \/ i = 3 \/ i = 4 \/ i = 5 \/
                 i = 6 \/ i = 7 \/ i = 8 \/ i = 9 \/ i = 10) by lia.
    repeat (destruct Hc as [->|Hc]; [reflexivity|]). subst i. reflexivity.
  - rewrite Z.bits_above_log2 by (simpl; lia).
    symmetry. apply andb_false_iff. right. apply Z.ltb_ge. lia.
Defined.

Section RGB565.

Lemma run_mask_contiguous (s w : Z) :
  0 <= s -> 0 <= w -> contiguous_run (Z.shiftl (Z.ones w) s) s w.
Proof.
  intros Hs Hw. split; [assumption|]. intros i Hi.
  destruct (Z_lt_le_dec i s) as [Hlt|Hge].
  - rewrite Z.shiftl_spec_low by assumption.
    destruct (Z.leb_spec s i); [lia|reflexivity].
  - rewrite Z.shiftl_spec by assumption.
    destruct (Z.leb_spec s i); [|lia]. cbn [andb].
    destruct (Z.ltb_spec i (s + w)).
    + rewrite Z.ones_spec_low by lia. reflexivity.
    + rewrite Z.ones_spec_high by lia. reflexivity.
Qed.

(** The three channels of a 16-bit word under the default masks. *)
Lemma channels_565 (p : Z) :
  0 <= p < 65536 ->
  channel16 p 0xF800 11 5 = Some (2112 * (p / 2048)) /\
  channel16 p 0x07E0 5 6 = Some (1040 * (p / 32 mod 64)) /\
  channel16 p 0x001F 0 5 = Some (2112 * (p mod 32)).
Proof.
  intros Hp.
  destruct (channel16_closed p 0xF800 11 5 (run_mask_contiguous 11 5
              ltac:(lia) ltac:(lia)) ltac:(lia)) as (Er & Hr & _).
  destruct (channel16_closed p 0x07E0 5 6 (run_mask_contiguous 5 6
              ltac:(lia) ltac:(lia)) ltac:(lia)) as (Eg & Hg & _).
  destruct (channel16_closed p 0x001F 0 5 (run_mask_contiguous 0 5
              ltac:(lia) ltac:(lia)) ltac:(lia)) as (Eb & Hb & _).
  rewrite Er, Eg, Eb.
  change (2 ^ 11) with 2048 in *. change (2 ^ 5) with 32 in *.
  change (2 ^ 6) with 64 in *. change (2 ^ 0) with 1 in *.
  change (2 ^ (16 - 5)) with (64 * 32) in *.
  change (2 ^ (16 - 6)) with (16 * 64) in *.
  rewrite Z.div_1_r in *.
  assert (Hsmall : p / 2048 < 32) by (apply Z.div_lt_upper_bound; lia).
  rewrite (Z.mod_small (p / 2048) 32)
    by (split; [apply Z.div_pos; lia | assumption]).
  rewrite !Z.mul_assoc, !Z.div_mul by lia.
  repeat split; f_equal; lia.
Qed.

Lemma color16_565 (row : list byte) (x p : Z) :
  0 <= p < 65536 ->
  le <$> slice row (x * 2) (x * 2 + 2) = Some p ->
  color16 (0xF800, 0x07E0, 0x001F) (11, 5) (5, 6) (0, 5) row x =
  Some (mkRGBA64 (2112 * (p / 2048)) (1040 * (p / 32 mod 64))
                 (2112 * (p mod 32)) 0xFFFF).
Proof.
  intros Hp Hword. unfold color16. rewrite Hword.
  destruct (channels_565 p Hp) as (Er & Eg & Eb).
  cbn [fst snd mbind option_bind]. rewrite Er. cbn [mbind option_bind].
  rewrite Eg. cbn [mbind option_bind]. rewrite Eb. cbn [mbind option_bind].
  assert (0 <= p / 2048 < 32)
    by (split; [apply Z.div_pos; lia | apply Z.div_lt_upper_bound; lia]).
  pose proof (Z.mod_pos_bound (p / 32) 64 ltac:(lia)).
  pose proof (Z.mod_pos_bound p 32 ltac:(lia)).
  unfold uint16. f_equal. f_equal; apply Z.mod_small; lia.
Qed.

End RGB565.

(** X10. A 16-bit image without bit-fields compression whose pixel
    buffer is within the allocation limit, on a stream that holds its
    scanlines: [decodePixelData] returns without error
    a [width x |height|] image and leaves the stream right after the
    last scanline.  With [p] the little-endian word at [x * 2] of
    scanline [y], the pixel (stored at row [|height|-1-y] under a
    positive declared height, at row [y] under a negative one) is
    R = 2112 * (5 top bits of [p]), G = 1040 * (6 middle bits),
    B = 2112 * (5 low bits), A = 0xFFFF; so the brightest red and blue
    are 0xFFC0 and the brightest green is 0xFFF0. *)
Theorem decode16_rgb565 (info : InfoHeader) (palette : list RGBA)
    (bs : list byte) (base : Z) :
  BitCount info = 16 -> Compression info ≠ biBitFields ->
  0 <= Width info -> 0 <= base ->
  base + absHeight info * bytesPerRow16 info <= Z.of_nat (length bs) ->
  8 * (Width info * absHeight info) <= maxAlloc ->
  exists img,
    decodePixelData info palette (mkReader bs base) =
      Some ((Some (ImgRGBA64 img), None),
            mkReader bs (base + absHeight info * bytesPerRow16 info)) /\
    rgba64_rect img = mkRect 0 0 (Width info) (absHeight info) /\
    forall x y, 0 <= x < Width info -> 0 <= y < absHeight info ->
      let o := base + y * bytesPerRow16 info + x * 2 in
      let p := byteAt bs o + 256 * byteAt bs (o + 1) in
      RGBA64At img x (targetRow info (absHeight info) y) =
        mkRGBA64 (2112 * (p / 2048)) (1040 * (p / 32 mod 64))
                 (2112 * (p mod 32)) 0xFFFF /\
      RGBA64_R (RGBA64At img x (targetRow info (absHeight info) y)) <= 0xFFC0 /\
      RGBA64_G (RGBA64At img x (targetRow info (absHeight info) y)) <= 0xFFF0 /\
      RGBA64_B (RGBA64At img x (targetRow info (absHeight info) y)) <= 0xFFC0.
Proof.
  intros Hbc Hcomp Hw Hbase Hdata Hlen.
  pose proof (absHeight_nonneg info) as Hh.
  pose proof (bytesPerRow16_bounds info) as Hbpr.
  unfold decodePixelData. rewrite Hbc. cbn [Z.eqb Pos.eqb orb].
  rewrite Rect_nonneg by lia. rewrite orPanic_bind.
  rewrite NewRGBA64_fits by nia.
  assert (Hmasks : masks16 info = (0xF800, 0x07E0, 0x001F)).
  { unfold masks16. now destruct (Z.eqb_spec (Compression info) biBitFields). }
  destruct (read16BitData_spec info bs base Hw Hbase
              0xF800 0x07E0 0x001F (11, 5) (5, 6) (0, 5) Hmasks
              eq_refl eq_refl eq_refl ltac:(cbn; lia) Hdata
              (mkRGBA64Img ∅ (mkRect 0 0 (Width info) (absHeight info)))
              eq_refl) as (img & Heq & Hpix).
  exists img. split; [exact Heq|]. split.
  { now rewrite (read16BitData_rect _ _ _ _ _ _ Heq). }
  cbv zeta. intros x y Hx Hy. specialize (Hpix x y Hx Hy).
  assert (Hrow : 0 <= y * bytesPerRow16 info /\
                 y * bytesPerRow16 info + bytesPerRow16 info
                 <= absHeight info * bytesPerRow16 info) by nia.
  pose proof (word16_scanline bs (base + y * bytesPerRow16 info)
                (bytesPerRow16 info) ltac:(lia) ltac:(lia)
                (x * 2) ltac:(lia) ltac:(lia)) as Hword.
  pose proof (byteAt_range bs (base + y * bytesPerRow16 info + x * 2)) as H0.
  pose proof (byteAt_range bs (base + y * bytesPerRow16 info + x * 2 + 1)) as H1.
  assert (Hp : 0 <= byteAt bs (base + y * bytesPerRow16 info + x * 2)
                    + 256 * byteAt bs (base + y * bytesPerRow16 info + x * 2 + 1)
                < 65536) by lia.
  rewrite (color16_565 _ _ _ Hp Hword) in Hpix.
  injection Hpix as <-. split; [reflexivity|]. cbn [RGBA64_R RGBA64_G RGBA64_B].
  set (p := byteAt bs _ + 256 * byteAt bs _) in *.
  assert (0 <= p / 2048 < 32)
    by (split; [apply Z.div_pos; lia | apply Z.div_lt_upper_bound; lia]).
  pose proof (Z.mod_pos_bound (p / 32) 64 ltac:(lia)).
  pose proof (Z.mod_pos_bound p 32 ltac:(lia)).
  lia.
Qed.

Lemma decode16_rgb565_witness :
  exists img,
    decodePixelData (plainInfo 1 1 16) [] (mkReader white565 70) =
      Some ((Some (ImgRGBA64 img), None),
            mkReader white565
              (70 + absHeight (plainInfo 1 1 16)
                    * bytesPerRow16 (plainInfo 1 1 16))) /\
    rgba64_rect img =
      mkRect 0 0 (Width (plainInfo 1 1 16)) (absHeight (plainInfo 1 1 16)) /\
    forall x y, 0 <= x < Width (plainInfo 1 1 16) ->
                0 <= y < absHeight (plainInfo 1 1 16) ->
      let o := 70 + y * bytesPerRow16 (plainInfo 1 1 16) + x * 2 in
      let p := byteAt white565 o + 256 * byteAt white565 (o + 1) in
      RGBA64At img x
        (targetRow (plainInfo 1 1 16) (absHeight (plainInfo 1 1 16)) y) =
        mkRGBA64 (2112 * (p / 2048)) (1040 * (p / 32 mod 64))
                 (2112 * (p mod 32)) 0xFFFF /\
      RGBA64_R (RGBA64At img x
        (targetRow (plainInfo 1 1 16) (absHeight (plainInfo 1 1 16)) y))
        <= 0xFFC0 /\
      RGBA64_G (RGBA64At img x
        (targetRow (plainInfo 1 1 16) (absHeight (plainInfo 1 1 16)) y))
        <= 0xFFF0 /\
      RGBA64_B (RGBA64At img x
        (targetRow (plainInfo 1 1 16) (absHeight (plainInfo 1 1 16)) y))
        <= 0xFFC0.
Proof.
  apply (decode16_rgb565 (plainInfo 1 1 16) [] white565 70);
    vm_compute; intuition discriminate.
Defined.

(** ** Indexed pixels as bits of the stream *)

Section IndexedLayout.

Variable info : InfoHeader.
Hypothesis Hw : 0 <= Width info.

Lemma bytePos_bound_1 (x : Z) :
  BitCount info = 1 -> 0 <= x < Width info ->
  0 <= x / 8 < indexedBytesPerRow info.
Proof.
  intros Hbc Hx. unfold indexedBytesPerRow. rewrite Hbc.
  rewrite Z.quot_div_nonneg by lia.
  split; [apply Z.div_pos; lia|].
  pose proof (Z.div_mod x 8 ltac:(lia)).
  pose proof (Z.mod_pos_bound x 8 ltac:(lia)).
  pose proof (Z.div_mod (Width info * 1 + 31) 32 ltac:(lia)).
  pose proof (Z.mod_pos_bound (Width info * 1 + 31) 32 ltac:(lia)). lia.
Qed.

Lemma bytePos_bound_4 (x : Z) :
  BitCount info = 4 -> 0 <= x < Width info ->
  0 <= x / 2 < indexedBytesPerRow info.
Proof.
  intros Hbc Hx. unfold indexedBytesPerRow. rewrite Hbc.
  rewrite Z.quot_div_nonneg by lia.
  split; [apply Z.div_pos; lia|].
  pose proof (Z.div_mod x 2 ltac:(lia)).
  pose proof (Z.mod_pos_bound x 2 ltac:(lia)).
  pose proof (Z.div_mod (Width info * 4 + 31) 32 ltac:(lia)).
  pose proof (Z.mod_pos_bound (Width info * 4 + 31) 32 ltac:(lia)). lia.
Qed.

Lemma bytePos_bound_8 (x : Z) :
  BitCount info = 8 -> 0 <= x < Width info ->
  0 <= x < indexedBytesPerRow info.
Proof.
  intros Hbc Hx. unfold indexedBytesPerRow. rewrite Hbc.
  rewrite Z.quot_div_nonneg by lia. split; [lia|].
  pose proof (Z.div_mod (Width info * 8 + 31) 32 ltac:(lia)).
  pose proof (Z.mod_pos_bound (Width info * 8 + 31) 32 ltac:(lia)). lia.
Qed.

Lemma land_shiftr_ones (b k n : Z) :
  0 <= k -> 0 <= n ->
  Z.land (Z.shiftr b k) (Z.ones n) = (b / 2 ^ k) mod 2 ^ n.
Proof.
  intros Hk Hn. now rewrite Z.land_ones, Z.shiftr_div_pow2 by lia.
Qed.

End IndexedLayout.

(** X11. A 1-, 4- or 8-bit image whose pixel buffer is within the
    allocation limit, on a stream that holds its scanlines:
    [decodePixelData] returns without error a
    [width x |height|] paletted image with the palette given and leaves
    the stream right after the last scanline.  The index of column [x]
    of scanline [y] (stored at row [|height|-1-y] under a positive
    declared height, at row [y] under a negative one) is: at 1 bit,
    bit [7 - x mod 8] of byte [x / 8] of the scanline; at 4 bits, the
    low nibble of byte [x / 2] for an even [x] and the high nibble for
    an odd [x]; at 8 bits, byte [x]. *)
Theorem indexed_pixel_layout (info : InfoHeader) (palette : list RGBA)
    (bs : list byte) (base : Z) :
  BitCount info = 1 \/ BitCount info = 4 \/ BitCount info = 8 ->
  0 <= Width info < 2 ^ 31 -> - 2 ^ 31 <= Height info < 2 ^ 31 ->
  Width info * absHeight info <= maxAlloc ->
  0 <= base ->
  base + absHeight info * indexedBytesPerRow info <= Z.of_nat (length bs) ->
  exists img,
    decodePixelData info palette (mkReader bs base) =
      Some ((Some (ImgPaletted img), None),
            mkReader bs (base + absHeight info * indexedBytesPerRow info)) /\
    pal_rect img = mkRect 0 0 (Width info) (absHeight info) /\
    pal_palette img = palette /\
    forall x y, 0 <= x < Width info -> 0 <= y < absHeight info ->
      let row := base + y * indexedBytesPerRow info in
      let idx := ColorIndexAt img x (targetRow info (absHeight info) y) in
      (BitCount info = 1 ->
         idx = (byteAt bs (row + x / 8) / 2 ^ (7 - x mod 8)) mod 2) /\
      (BitCount info = 4 ->
         idx = (byteAt bs (row + x / 2) / 2 ^ (4 * (x mod 2))) mod 16) /\
      (BitCount info = 8 -> idx = byteAt bs (row + x)).
Proof.
  intros Hbc Hw Hh Halloc Hbase Hdata.
  pose proof (absHeight_nonneg info) as Hh0.
  assert (Hh1 : absHeight info <= 2 ^ 31).
  { unfold absHeight. destruct (Z.ltb_spec (Height info) 0); lia. }
  assert (Hbpr : 0 <= indexedBytesPerRow info)
    by (apply indexedBytesPerRow_nonneg; lia).
  unfold decodePixelData.
  replace ((BitCount info =? 1) || (BitCount info =? 4) || (BitCount info =? 8))
    with true
    by (symmetry; rewrite !orb_true_iff, !Z.eqb_eq; tauto).
  rewrite Rect_nonneg by lia.
  rewrite orPanic_bind. rewrite NewPaletted_fits by nia.
  destruct (readIndexedData_spec info bs base Hbc ltac:(lia) Hbase Hdata
              (mkPaletted ∅ (mkRect 0 0 (Width info) (absHeight info)) palette)
              eq_refl)
    as (img & Heq & Hrect & Hpal & Hpix).
  rewrite M_bind_unfold, Heq. exists img.
  split; [reflexivity|]. split; [exact Hrect|]. split; [exact Hpal|].
  cbv zeta. intros x y Hx Hy. specialize (Hpix x y Hx Hy).
  assert (Hrow : 0 <= y * indexedBytesPerRow info /\
                 y * indexedBytesPerRow info + indexedBytesPerRow info
                 <= absHeight info * indexedBytesPerRow info) by nia.
  pose proof (index_scanline bs (base + y * indexedBytesPerRow info)
                (indexedBytesPerRow info) ltac:(lia) ltac:(lia)) as Hidx.
  split; [|split]; intros Hb.
  - rewrite extractIndex_1 in Hpix by (assumption || lia).
    rewrite Hidx in Hpix by (apply bytePos_bound_1; assumption || lia).
    cbn [mbind option_bind] in Hpix. injection Hpix as <-.
    pose proof (Z.mod_pos_bound x 8 ltac:(lia)).
    change 1 with (Z.ones 1) at 1. rewrite land_shiftr_ones by lia.
    reflexivity.
  - rewrite extractIndex_4 in Hpix by (assumption || lia).
    rewrite Hidx in Hpix by (apply bytePos_bound_4; assumption || lia).
    cbn [mbind option_bind] in Hpix. injection Hpix as <-.
    pose proof (Z.mod_pos_bound x 2 ltac:(lia)).
    change 15 with (Z.ones 4). rewrite land_shiftr_ones by lia.
    do 3 f_equal. lia.
  - rewrite extractIndex_8 in Hpix by (assumption || lia).
    rewrite Hidx in Hpix by (apply bytePos_bound_8; assumption || lia).
    cbn [mbind option_bind] in Hpix. injection Hpix as <-.
    change 255 with (Z.ones 8). rewrite Z.land_ones by lia.
    apply Z.mod_small. apply byteAt_range.
Qed.

Lemma indexed_pixel_layout_witness :
  exists img,
    decodePixelData (plainInfo 2 1 4) [] (mkReader nibbles 90) =
      Some ((Some (ImgPaletted img), None),
            mkReader nibbles
              (90 + absHeight (plainInfo 2 1 4)
                    * indexedBytesPerRow (plainInfo 2 1 4))) /\
    pal_rect img =
      mkRect 0 0 (Width (plainInfo 2 1 4)) (absHeight (plainInfo 2 1 4)) /\
    pal_palette img = [] /\
    forall x y, 0 <= x < Width (plainInfo 2 1 4) ->
                0 <= y < absHeight (plainInfo 2 1 4) ->
      let row := 90 + y * indexedBytesPerRow (plainInfo 2 1 4) in
      let idx := ColorIndexAt img x
                   (targetRow (plainInfo 2 1 4) (absHeight (plainInfo 2 1 4)) y) in
      (BitCount (plainInfo 2 1 4) = 1 ->
         idx = (byteAt nibbles (row + x / 8) / 2 ^ (7 - x mod 8)) mod 2) /\
      (BitCount (plainInfo 2 1 4) = 4 ->
         idx = (byteAt nibbles (row + x / 2) / 2 ^ (4 * (x mod 2))) mod 16) /\
      (BitCount (plainInfo 2 1 4) = 8 -> idx = byteAt nibbles (row + x)).
Proof.
  apply (indexed_pixel_layout (plainInfo 2 1 4) [] nibbles 90).
  - right; left; reflexivity.
  - cbn; lia.
  - cbn; lia.
  - vm_compute; discriminate.
  - lia.
  - vm_compute; discriminate.
Defined.

(** ** The palette and the pixel stage *)

(** X12. [decodePixelData] uses the palette for nothing but handing it
    to the paletted image it returns: on every header and stream, the
    result under a palette [p'] is the result under a palette [p] with
    the palette of the image replaced, same error and same stream
    offset; at 16, 24 and 32 bits the two results are equal. *)
Theorem decodePixelData_palette_unused (info : InfoHeader)
    (p p' : list RGBA) (r : Reader) :
  decodePixelData info p' r =
  (λ res, ((repalette p' res.1.1, res.1.2), res.2))
    <$> decodePixelData info p r.
Proof.
  unfold decodePixelData.
  destruct ((BitCount info =? 1) || (BitCount info =? 4) || (BitCount info =? 8)).
  - rewrite !orPanic_bind. unfold NewPaletted.
    destruct (pixelBufferLength 1 _) as [n|]; [|reflexivity].
    cbn [mbind option_bind].
    destruct (makeslice n); [|reflexivity]. cbn [mbind option_bind].
    rewrite !M_bind_unfold.
    change (mkPaletted ∅ (Rect 0 0 (Width info) (absHeight info)) p')
      with (withPalette p'
              (mkPaletted ∅ (Rect 0 0 (Width info) (absHeight info)) p)).
    rewrite readIndexedData_ignores_palette.
    destruct (readIndexedData _ info r) as [[[img err] r1]|]; reflexivity.
  - assert (Hsame : forall X : option ((option Image * option error) * Reader),
              (forall i oe r1, X = Some ((Some i, oe), r1) ->
                 forall q, i ≠ ImgPaletted q) ->
              X = (λ res, ((repalette p' res.1.1, res.1.2), res.2)) <$> X).
    { intros [[[[[q|q|q]|] oe] r1]|] HX; try reflexivity.
      exfalso. exact (HX _ _ _ eq_refl q eq_refl). }
    destruct (BitCount info =? 16).
    { rewrite !orPanic_bind. destruct (NewRGBA64 _); [|reflexivity].
      apply Hsame. intros i oe r1 Hi q ->.
      apply read16BitData_kind in Hi as [q' [=]]. }
    destruct (BitCount info =? 24).
    { rewrite !orPanic_bind. destruct (NewRGBA _); [|reflexivity].
      apply Hsame. intros i oe r1 Hi q ->.
      apply read24BitData_kind in Hi as [q' [=]]. }
    destruct (BitCount info =? 32).
    { rewrite !orPanic_bind. destruct (NewRGBA _); [|reflexivity].
      apply Hsame. intros i oe r1 Hi q ->.
      apply read32BitData_kind in Hi as [q' [=]]. }
    reflexivity.
Qed.

(** ** Errors of the pixel stage *)

Section PixelErrors.

(** An error of the scanline loop is the error of a read. *)
Lemma ReadFull_error (n : Z) (r r' : Reader) (buf : list byte) (e : error) :
  ReadFull n r = Some ((buf, Some e), r') -> IOError e = true.
Proof.
  unfold ReadFull.
  destruct (n <=? 0); [|destruct (_ <=? _); [|destruct (_ <? _)]];
    intros [= _ <- _]; reflexivity.
Qed.

Lemma scanRows_error {I : Type} (body : Z → list byte → I → option I)
    (bytesPerRow : Z) : forall count y img r img' e r',
  scanRows count y bytesPerRow body img r = Some ((img', Some e), r') ->
  IOError e = true.
Proof.
  induction count as [|count IH]; intros y img r img' e r'.
  - cbn. unfold mret, M_ret. discriminate.
  - rewrite scanRows_S.
    destruct (ReadFull bytesPerRow r) as [[[row [e0|]] r1]|] eqn:E;
      [| |discriminate].
    + intros [= _ <- _]. exact (ReadFull_error _ _ _ _ _ E).
    + destruct (body y row img) as [img1|]; [|discriminate]. apply IH.
Qed.

Lemma readIndexedData_error img info r img' e r' :
  readIndexedData img info r = Some ((img', Some e), r') -> IOError e = true.
Proof.
  unfold readIndexedData. destruct (BitCount info =? 0); [discriminate|].
  rewrite make_bind. destruct (_ <? 0); [discriminate|].
  apply scanRows_error.
Qed.

Lemma decodePixelData_indexed_error info palette r oimg e r' :
  BitCount info = 1 \/ BitCount info = 4 \/ BitCount info = 8 ->
  decodePixelData info palette r = Some ((oimg, Some e), r') ->
  IOError e = true.
Proof.
  intros Hbc. unfold decodePixelData.
  replace ((BitCount info =? 1) || (BitCount info =? 4) || (BitCount info =? 8))
    with true
    by (symmetry; rewrite !orb_true_iff, !Z.eqb_eq; tauto).
  rewrite orPanic_bind. destruct (NewPaletted _ _); [|discriminate].
  rewrite M_bind_unfold.
  destruct (readIndexedData _ _ _) as [[[img' [e'|]] r'']|] eqn:E;
    unfold mret, M_ret; [|discriminate|discriminate].
  intros [= _ <- _]. exact (readIndexedData_error _ _ _ _ _ _ E).
Qed.

End PixelErrors.

(** X13. Whenever [Decode] returns an error, on any stream: either it
    returns no image, or the image is the paletted image of the
    1/4/8-bit path and the error is the I/O error of a failed scanline
    read.  The header, palette, mask and seek stages and the 16-, 24-
    and 32-bit readers never return an image with an error. *)
Theorem Decode_image_with_error (r r' : Reader) (oimg : option Image)
    (e : error) :
  Decode r = Some ((oimg, Some e), r') ->
  oimg = None \/
  (exists img, oimg = Some (ImgPaletted img)) /\ IOError e = true.
Proof.
  unfold Decode. rewrite M_bind_unfold.
  destruct (readHeaders r) as [[[[[fh info]|] err] r1]|]; [| |discriminate].
  2:{ unfold mret, M_ret. intros [= <- _ _]. now left. }
  unfold decodeBody. rewrite M_bind_unfold.
  destruct (parsePalette info r1) as [[[palette [e1|]] r2]|]; [| |discriminate].
  { unfold mret, M_ret. intros [= <- _ _]. now left. }
  rewrite M_bind_unfold.
  destruct (readMasks info r2) as [[[info' [e2|]] r3]|]; [| |discriminate].
  { unfold mret, M_ret. intros [= <- _ _]. now left. }
  rewrite M_bind_unfold.
  destruct (Seek (DataOffset fh) r3) as [[[e3|] r4]|]; [| |discriminate].
  { unfold mret, M_ret. intros [= <- _ _]. now left. }
  intros Hdec.
  assert (Hidx : BitCount info' = 1 \/ BitCount info' = 4 \/
                 BitCount info' = 8 ->
                 (exists img, oimg = Some (ImgPaletted img)) /\
                 IOError e = true).
  { intros Hbc. split.
    - eapply decodePixelData_indexed_image; eassumption.
    - eapply decodePixelData_indexed_error; eassumption. }
  destruct (Z.eq_dec (BitCount info') 1) as [H1|H1]; [right; tauto|].
  destruct (Z.eq_dec (BitCount info') 4) as [H4|H4]; [right; tauto|].
  destruct (Z.eq_dec (BitCount info') 8) as [H8|H8]; [right; tauto|].
  left. eapply decodePixelData_direct_error; eassumption.
Qed.

Lemma Decode_image_with_error_witness :
  exists oimg,
    Decode (stream truncatedIndexed) =
      Some ((oimg, Some EOF), mkReader truncatedIndexed 34) /\
    (oimg = None \/
     (exists img, oimg = Some (ImgPaletted img)) /\ IOError EOF = true).
Proof.
  eexists. split; [vm_compute; reflexivity|].
  apply (Decode_image_with_error (stream truncatedIndexed)
           (mkReader truncatedIndexed 34)).
  vm_compute. reflexivity.
Defined.

(** ** Pixel data that ends early *)

Section ShortData.

Lemma forRange_total {St : Type} (body : Z → St → option St)
    (count : nat) (x : Z) (st : St) :
  (forall k st0, x <= k < x + Z.of_nat count -> is_Some (body k st0)) ->
  is_Some (forRange count x body st).
Proof.
  intros Hbody.
  destruct (forRange_inv (λ _ _, True) body count x st Logic.I)
    as (st' & Heq & _).
  - intros k st0 Hk _. destruct (Hbody k st0 Hk) as [st1 H1]. eauto.
  - rewrite Heq. now eexists.
Qed.

(** A scanline loop whose stream ends before the last scanline, its
    body never panicking on a full scanline, returns the I/O error of
    the read that failed. *)
Lemma scanRows_short {I : Type} (body : Z → list byte → I → option I)
    (bytesPerRow : Z) :
  0 < bytesPerRow ->
  (forall y row img, Z.of_nat (length row) = bytesPerRow ->
     is_Some (body y row img)) ->
  forall count y img r,
    0 <= pos r -> (0 < count)%nat ->
    Z.of_nat (length (data r)) < pos r + Z.of_nat count * bytesPerRow ->
    exists img' e r',
      scanRows count y bytesPerRow body img r = Some ((img', Some e), r') /\
      IOError e = true.
Proof.
  intros Hbpr Hbody. induction count as [|count IH];
    intros y img r Hp Hc Hlen; [lia|].
  rewrite scanRows_S.
  destruct (Z_lt_le_dec (Z.of_nat (length (data r))) (pos r + bytesPerRow))
    as [Hs|Hs].
  - destruct (ReadFull_short bytesPerRow r) as (buf & e & Heq & He); [lia..|].
    rewrite Heq. eauto.
  - rewrite ReadFull_ok by lia.
    destruct (Hbody y (take (Z.to_nat bytesPerRow)
                            (drop (Z.to_nat (pos r)) (data r))) img)
      as [img1 Himg1].
    { rewrite length_take, length_drop. lia. }
    rewrite Himg1. apply IH; cbn [pos data]; [lia| |]; nia.
Qed.

Variable info : InfoHeader.
Hypothesis Hw : 0 < Width info < 2 ^ 31.

Lemma rows_total {I V : Type} (val : list byte → Z → option V)
    (set : Z → Z → V → I → I) (ty : Z → Z) (bytesPerRow : Z) :
  (forall row x, 0 <= x < Width info ->
     Z.of_nat (length row) = bytesPerRow -> is_Some (val row x)) ->
  forall y row img, Z.of_nat (length row) = bytesPerRow ->
    is_Some (forRange (Z.to_nat (Width info)) 0
               (λ x img, v ← val row x; Some (set x (ty y) v img)) img).
Proof.
  intros Hval y row img Hlen. apply forRange_total. intros k st0 Hk.
  destruct (Hval row k ltac:(lia) Hlen) as [v Hv]. rewrite Hv. now eexists.
Qed.

Lemma rowBytes_pos :
  BitCount info = 1 \/ BitCount info = 4 \/ BitCount info = 8 \/
  BitCount info = 16 \/ BitCount info = 24 \/ BitCount info = 32 ->
  0 < rowBytes info.
Proof.
  intros Hbc. unfold rowBytes.
  pose proof (bytesPerRow16_bounds info). pose proof (bytesPerRow24_bounds info).
  destruct Hbc as [Hb|[Hb|[Hb|[Hb|[Hb|Hb]]]]]; rewrite Hb; cbn [Z.eqb Pos.eqb orb];
    try lia; try (unfold bytesPerRow32; lia);
    unfold indexedBytesPerRow; rewrite Hb, Z.quot_div_nonneg by lia;
    match goal with
    | |- 0 < ?a / 32 * 4 =>
        pose proof (Z.div_mod a 32 ltac:(lia));
        pose proof (Z.mod_pos_bound a 32 ltac:(lia)); lia
    end.
Qed.

Variable r : Reader.
Hypothesis Hp : 0 <= pos r.

Lemma readIndexedData_short (img : Paletted) :
  BitCount info = 1 \/ BitCount info = 4 \/ BitCount info = 8 ->
  0 < absHeight info ->
  Z.of_nat (length (data r))
    < pos r + absHeight info * indexedBytesPerRow info ->
  exists img' e r',
    readIndexedData img info r = Some ((img', Some e), r') /\
    IOError e = true.
Proof.
  intros Hbc Hh Hlen.
  assert (Hrb : 0 < indexedBytesPerRow info).
  { pose proof (rowBytes_pos ltac:(tauto)) as H. unfold rowBytes in H.
    destruct Hbc as [Hb|[Hb|Hb]]; rewrite Hb in H; exact H. }
  unfold readIndexedData.
  replace (BitCount info =? 0) with false by (symmetry; apply Z.eqb_neq; lia).
  rewrite make_bind.
  destruct (Z.ltb_spec (indexedBytesPerRow info) 0); [lia|].
  apply scanRows_short; [exact Hrb | | exact Hp | lia |
                         rewrite Z2Nat.id by lia; exact Hlen].
  intros y row img0 Hl.
  apply (rows_total (extractIndex info) SetColorIndex
           (targetRow info (absHeight info)) (indexedBytesPerRow info));
    [|exact Hl].
  intros row0 x Hx Hl0. apply extractIndex_is_Some; assumption.
Qed.

Lemma read16BitData_short (img : RGBA64Img) :
  Compression info ≠ biBitFields -> 0 < absHeight info ->
  Z.of_nat (length (data r)) < pos r + absHeight info * bytesPerRow16 info ->
  exists e r',
    read16BitData img info r = Some ((None, Some e), r') /\ IOError e = true.
Proof.
  intros Hcomp Hh Hlen. pose proof (bytesPerRow16_bounds info) as Hrb.
  unfold read16BitData, masks16.
  destruct (Z.eqb_spec (Compression info) biBitFields); [contradiction|].
  change (maskShift 0xF800) with (Some (11, 5)).
  change (maskShift 0x07E0) with (Some (5, 6)).
  change (maskShift 0x001F) with (Some (0, 5)).
  rewrite !orPanic_bind.
  rewrite make_bind.
  destruct (Z.ltb_spec (bytesPerRow16 info) 0); [lia|].
  rewrite M_bind_unfold.
  edestruct (scanRows_short (I := RGBA64Img)) as (img' & e & r' & Heq & He);
    [ | | exact Hp | | | rewrite Heq; unfold mret, M_ret; eauto].
  - lia.
  - intros y row img0 Hl.
    apply (rows_total
             (color16 (0xF800, 0x07E0, 0x001F) (11, 5) (5, 6) (0, 5))
             SetRGBA64 (targetRow info (absHeight info)) (bytesPerRow16 info));
      [|exact Hl].
    intros row0 x Hx Hl0.
    apply (color16_is_Some info []); [cbn; lia | exact Hx | exact Hl0].
  - lia.
  - rewrite Z2Nat.id by lia. exact Hlen.
Qed.

Lemma read24BitData_short (img : RGBAImg) :
  0 < Height info ->
  Z.of_nat (length (data r)) < pos r + Height info * bytesPerRow24 info ->
  exists e r',
    read24BitData img info r = Some ((None, Some e), r') /\ IOError e = true.
Proof.
  intros Hh Hlen. pose proof (bytesPerRow24_bounds info) as Hrb.
  unfold read24BitData. rewrite make_bind.
  destruct (Z.ltb_spec (bytesPerRow24 info) 0); [lia|].
  rewrite M_bind_unfold.
  edestruct (scanRows_short (I := RGBAImg)) as (img' & e & r' & Heq & He);
    [ | | exact Hp | | | rewrite Heq; unfold mret, M_ret; eauto].
  - lia.
  - intros y row img0 Hl.
    apply (rows_total color24 SetRGBA
             (targetRow info (Height info)) (bytesPerRow24 info)); [|exact Hl].
    intros row0 x Hx Hl0. apply (color24_is_Some info); assumption.
  - lia.
  - rewrite Z2Nat.id by lia. exact Hlen.
Qed.

Lemma read32BitData_short (img : RGBAImg) :
  Compression info ≠ biBitFields -> 0 < absHeight info ->
  Z.of_nat (length (data r)) < pos r + absHeight info * bytesPerRow32 info ->
  exists e r',
    read32BitData img info r = Some ((None, Some e), r') /\ IOError e = true.
Proof.
  intros Hcomp Hh Hlen.
  unfold read32BitData, masks32.
  destruct (Z.eqb_spec (Compression info) biBitFields); [contradiction|].
  change (maskShift 0x00FF0000) with (Some (16, 8)).
  change (maskShift 0x0000FF00) with (Some (8, 8)).
  change (maskShift 0x000000FF) with (Some (0, 8)).
  change (maskShift 0xFF000000) with (Some (24, 8)).
  rewrite !orPanic_bind.
  rewrite make_bind.
  destruct (Z.ltb_spec (bytesPerRow32 info) 0);
    [unfold bytesPerRow32 in *; lia|].
  rewrite M_bind_unfold.
  edestruct (scanRows_short (I := RGBAImg)) as (img' & e & r' & Heq & He);
    [ | | exact Hp | | | rewrite Heq; unfold mret, M_ret; eauto].
  - unfold bytesPerRow32. lia.
  - intros y row img0 Hl.
    apply (rows_total
             (color32 (0x00FF0000, 0x0000FF00, 0x000000FF, 0xFF000000)
                      (16, 8, 0, 24))
             SetRGBA (targetRow info (absHeight info)) (bytesPerRow32 info));
      [|exact Hl].
    intros row0 x Hx Hl0.
    apply (color32_is_Some info [] _ _ _ _ (16, 8) (8, 8) (0, 8) (24, 8));
      assumption.
  - lia.
  - rewrite Z2Nat.id by lia. exact Hlen.
Qed.

End ShortData.

(** ** Scanlines on disk *)

Section Scanlines.

Variable info : InfoHeader.
Hypothesis Hbc :
  BitCount info = 1 \/ BitCount info = 4 \/ BitCount info = 8 \/
  BitCount info = 16 \/ BitCount info = 24 \/ BitCount info = 32.
Hypothesis Hw : 0 < Width info < 2 ^ 31.


Variables (palette : list RGBA) (bs : list byte) (base : Z).
Hypothesis Hrows : 0 < rowCount info.
Hypothesis Hcomp : Compression info ≠ biBitFields.
Hypothesis Halloc :
  pixelBytes info * (Width info * absHeight info) <= maxAlloc.
Hypothesis Hbase : 0 <= base.



End Scanlines.



(** X14. Pixel data that ends early: for a supported depth, a positive
    width, at least one scanline to read, no bit-fields compression
    and an image whose pixel buffer ([pixelBytes] bytes for each of the
    [width * |height|] pixels) is within the allocation limit,
    [decodePixelData] on a stream that ends before the last scanline
    returns an I/O error (never a panic, never success). *)
Theorem truncated_pixel_data (info : InfoHeader) (palette : list RGBA)
    (r : Reader) :
  BitCount info = 1 \/ BitCount info = 4 \/ BitCount info = 8 \/
  BitCount info = 16 \/ BitCount info = 24 \/ BitCount info = 32 ->
  0 < Width info < 2 ^ 31 -> 0 < rowCount info ->
  Compression info ≠ biBitFields ->
  pixelBytes info * (Width info * absHeight info) <= maxAlloc ->
  0 <= pos r ->
  Z.of_nat (length (data r)) < pos r + rowCount info * rowBytes info ->
  exists oimg e r',
    decodePixelData info palette r = Some ((oimg, Some e), r') /\
    IOError e = true.
Proof.
  intros Hbc Hw Hrows Hcomp Hsize Hp Hlen.
  pose proof (absHeight_nonneg info) as Hh.
  unfold rowCount, rowBytes, pixelBytes in *. unfold decodePixelData.
  rewrite Rect_nonneg by lia.
  destruct Hbc as [Hb|[Hb|[Hb|[Hb|[Hb|Hb]]]]]; rewrite Hb in *;
    cbn [Z.eqb Pos.eqb orb] in *.
  1-3: rewrite orPanic_bind; rewrite NewPaletted_fits by nia;
    rewrite M_bind_unfold;
    edestruct (readIndexedData_short info Hw r Hp) as (img' & e & r' & Heq & He);
    [rewrite Hb; tauto | exact Hrows | exact Hlen |
     rewrite Heq; unfold mret, M_ret; eauto].
  - rewrite orPanic_bind. rewrite NewRGBA64_fits by nia.
    edestruct (read16BitData_short info Hw r Hp) as (e & r' & Heq & He);
      [exact Hcomp | exact Hrows | exact Hlen | rewrite Heq; eauto].
  - rewrite orPanic_bind. rewrite NewRGBA_fits by nia.
    edestruct (read24BitData_short info Hw r Hp) as (e & r' & Heq & He);
      [lia | | rewrite Heq; eauto].
    replace (Z.max 0 (Height info)) with (Height info) in Hlen by lia.
    exact Hlen.
  - rewrite orPanic_bind. rewrite NewRGBA_fits by nia.
    edestruct (read32BitData_short info Hw r Hp) as (e & r' & Heq & He);
      [exact Hcomp | exact Hrows | exact Hlen | rewrite Heq; eauto].
Qed.

Lemma truncated_pixel_data_witness :
  exists oimg e r',
    decodePixelData (plainInfo 1 2 24) [] (mkReader (take 58 bottomUp24) 54) =
      Some ((oimg, Some e), r') /\
    IOError e = true.
Proof.
  apply (truncated_pixel_data (plainInfo 1 2 24) []
           (mkReader (take 58 bottomUp24) 54));
    vm_compute; intuition discriminate.
Defined.

(** ** Metadata: unsupported depths and streams that end early *)

Section Metadata.

Variable bs : list byte.
Hypothesis Hsig : sub bs 0 2 = BM.
Hypothesis Htag : headerTag bs = 12 \/ headerTag bs = 40.

Lemma streamInfo_BitCount :
  BitCount (streamInfo bs) = BitCount (headerInfo bs).
Proof. unfold streamInfo. destruct (_ =? biBitFields); reflexivity. Qed.

Lemma headerInfo_ClrUsed : ClrUsed (headerInfo bs) = 0.
Proof. unfold headerInfo. destruct (_ =? _); reflexivity. Qed.

(** The palette stage on a stream that ends inside the palette. *)
Lemma parsePalette_short :
  headerEnd bs <= Z.of_nat (length bs) < paletteEnd bs ->
  exists e r',
    parsePalette (headerInfo bs) (mkReader bs (headerEnd bs)) =
      Some (([], Some e), r') /\
    IOError e = true.
Proof.
  intros Hlen. pose proof (headerEnd_bounds bs) as Hhe.
  pose proof (headerInfo_BitCount bs) as Hbc.
  unfold parsePalette, paletteEnd in *. rewrite headerInfo_ClrUsed.
  change (0 =? 0) with true. change (0 <? 0) with false.
  rewrite andb_true_r.
  destruct (Z.ltb_spec 8 (BitCount (headerInfo bs))); [lia|].
  cbv zeta. rewrite Z.shiftl_1_l.
  assert (0 < 2 ^ BitCount (headerInfo bs) <= 2 ^ 8).
  { split; [apply Z.pow_pos_nonneg; lia | apply Z.pow_le_mono_r; lia]. }
  rewrite int_small by lia. rewrite make_bind.
  destruct (Z.ltb_spec (2 ^ BitCount (headerInfo bs)) 0); [lia|].
  apply paletteLoop_short; cbn [pos data]; lia.
Qed.

(** The bit-field stage on a stream that ends inside the masks. *)
Lemma readMasks_short :
  paletteEnd bs <= Z.of_nat (length bs) < metadataEnd bs ->
  exists info e r',
    readMasks (headerInfo bs) (mkReader bs (paletteEnd bs)) =
      Some ((info, Some e), r') /\
    IOError e = true.
Proof.
  intros Hlen. pose proof (paletteEnd_bounds bs) as Hpe.
  pose proof (headerEnd_bounds bs) as Hhe.
  unfold readMasks, metadataEnd in *.
  destruct (Compression (headerInfo bs) =? biBitFields); [|lia].
  rewrite M_bind_unfold.
  destruct (ReadFull_short 16 (mkReader bs (paletteEnd bs)))
    as (buf & e & Heq & He); [lia | cbn [pos]; lia | cbn [pos data]; lia |].
  rewrite Heq. unfold mret, M_ret. eauto.
Qed.

End Metadata.

(** X15. On a stream with the "BM" signature and a header-size tag of
    12 or 40 that holds the metadata, a depth other than 1, 4, 8, 16,
    24 and 32 is reported as "unsupported bit depth", without an
    image, once the palette (for a depth up to 8) and the masks have
    been read and the stream has been moved to the declared data
    offset. *)
Theorem Decode_unsupported_depth (bs : list byte) :
  sub bs 0 2 = BM ->
  headerTag bs = 12 \/ headerTag bs = 40 ->
  metadataEnd bs <= Z.of_nat (length bs) ->
  ~ In (BitCount (headerInfo bs)) [1; 4; 8; 16; 24; 32] ->
  Decode (stream bs) =
  Some ((None, Some ErrUnsupportedBitDepth),
        mkReader bs (DataOffset (fileHeaderOf bs))).
Proof.
  intros Hsig Htag Hlen Hbc.
  rewrite Decode_stages by assumption.
  unfold decodePixelData. rewrite streamInfo_BitCount.
  cbn [In] in Hbc.
  repeat match goal with
  | |- context [BitCount (headerInfo bs) =? ?n] =>
      destruct (Z.eqb_spec (BitCount (headerInfo bs)) n); [intuition lia|]
  end.
  reflexivity.
Qed.

Lemma Decode_unsupported_depth_witness :
  Decode (stream depth2) =
  Some ((None, Some ErrUnsupportedBitDepth), mkReader depth2 42).
Proof.
  apply (Decode_unsupported_depth depth2).
  - reflexivity.
  - left. reflexivity.
  - vm_compute. discriminate.
  - vm_compute. intuition discriminate.
Defined.

(** X16. A stream with the "BM" signature and a header-size tag of 12
    or 40 that holds the header but ends inside the palette or inside
    the bit-field masks makes [Decode] return an I/O error and no
    image, whatever the depth and the data offset. *)
Theorem Decode_truncated_metadata (bs : list byte) :
  sub bs 0 2 = BM ->
  headerTag bs = 12 \/ headerTag bs = 40 ->
  headerEnd bs <= Z.of_nat (length bs) < metadataEnd bs ->
  exists e r',
    Decode (stream bs) = Some ((None, Some e), r') /\ IOError e = true.
Proof.
  intros Hsig Htag Hlen.
  unfold Decode. rewrite M_bind_unfold, readHeaders_stage by tauto.
  unfold decodeBody. rewrite M_bind_unfold.
  destruct (Z_lt_le_dec (Z.of_nat (length bs)) (paletteEnd bs)) as [Hs|Hs].
  - destruct (parsePalette_short bs) as (e & r' & Heq & He); [lia|].
    rewrite Heq. unfold mret, M_ret. eauto.
  - rewrite parsePalette_stage by assumption.
    rewrite M_bind_unfold.
    destruct (readMasks_short bs) as (info & e & r' & Heq & He); [lia|].
    rewrite Heq. unfold mret, M_ret. eauto.
Qed.

Lemma Decode_truncated_metadata_witness :
  exists e r',
    Decode (stream (take 60 white565)) = Some ((None, Some e), r') /\
    IOError e = true.
Proof.
  apply (Decode_truncated_metadata (take 60 white565)).
  - reflexivity.
  - right. reflexivity.
  - vm_compute. split; [discriminate | reflexivity].
Defined.

(** ** 16-bit masks wider than a channel *)

Section WideMask.

(** The column loop stops at the first column whose body panics. *)
Lemma forRange_first_panics {St : Type} (body : Z → St → option St)
    (count : nat) (x : Z) (st : St) :
  (0 < count)%nat -> body x st = None -> forRange count x body st = None.
Proof.
  intros Hc Hb. destruct count as [|count]; [lia|].
  cbn [forRange]. rewrite Hb. reflexivity.
Qed.

(** No colour comes out of a pixel when one of the three runs is wider
    than 16 bits. *)
Lemma color16_wide (masks : Z * Z * Z) (rsb gsb bsb : Z * Z)
    (row : list byte) (x : Z) :
  16 < rsb.2 \/ 16 < gsb.2 \/ 16 < bsb.2 ->
  color16 masks rsb gsb bsb row x = None.
Proof.
  intros Hwide. unfold color16. destruct masks as [[rm gm] bm].
  destruct (slice row (x * 2) (x * 2 + 2)) as [w|]; [|reflexivity].
  cbn [fmap option_fmap option_map mbind option_bind].
  unfold channel16.
  destruct (Z.ltb_spec (16 - rsb.2) 0); [reflexivity|].
  cbn [mbind option_bind].
  destruct (Z.ltb_spec (16 - gsb.2) 0); [reflexivity|].
  cbn [mbind option_bind].
  destruct (Z.ltb_spec (16 - bsb.2) 0); [reflexivity|lia].
Qed.

End WideMask.

(** X17. A 16-bit image under bit-fields compression, of positive width
    and nonzero height, whose red, green or blue mask has a lowest run
    of set bits wider than 16: [decodePixelData] does not return (the
    negative shift count [16 - bits] panics on the first pixel) as soon
    as the stream holds one scanline. *)
Theorem decode16_wide_mask_panics (info : InfoHeader) (palette : list RGBA)
    (r : Reader) (mask shift bits : Z) :
  BitCount info = 16 -> Compression info = biBitFields ->
  0 <= RedMask info < 2 ^ 32 -> 0 <= GreenMask info < 2 ^ 32 ->
  0 <= BlueMask info < 2 ^ 32 ->
  mask = RedMask info \/ mask = GreenMask info \/ mask = BlueMask info ->
  maskShift mask = Some (shift, bits) -> 16 < bits ->
  0 < Width info < 2 ^ 31 -> 0 < absHeight info ->
  8 * (Width info * absHeight info) < 2 ^ 63 ->
  0 <= pos r ->
  pos r + bytesPerRow16 info <= Z.of_nat (length (data r)) ->
  decodePixelData info palette r = None.
Proof.
  intros Hbc Hcomp Hrm Hgm Hbm Hmask Hms Hwide Hw Hh Hsize Hp Hlen.
  pose proof (bytesPerRow16_bounds info) as Hrb.
  destruct (maskShift_total (RedMask info) Hrm) as [rsb Hr].
  destruct (maskShift_total (GreenMask info) Hgm) as [gsb Hg].
  destruct (maskShift_total (BlueMask info) Hbm) as [bsb Hb].
  assert (Hany : 16 < rsb.2 \/ 16 < gsb.2 \/ 16 < bsb.2).
  { destruct Hmask as [-> | [-> | ->]]; rewrite Hms in *.
    - left. injection Hr as <-. exact Hwide.
    - right. left. injection Hg as <-. exact Hwide.
    - right. right. injection Hb as <-. exact Hwide. }
  unfold decodePixelData. rewrite Rect_nonneg by lia. rewrite Hbc.
  cbn [Z.eqb Pos.eqb orb]. rewrite orPanic_bind.
  destruct (NewRGBA64 _) as [img|]; [|reflexivity].
  unfold read16BitData, masks16. rewrite Hcomp, Z.eqb_refl.
  rewrite Hr, Hg, Hb, !orPanic_bind. rewrite make_bind.
  destruct (Z.ltb_spec (bytesPerRow16 info) 0); [lia|].
  rewrite M_bind_unfold.
  destruct (Z.to_nat (absHeight info)) as [|rows] eqn:Hrows; [lia|].
  rewrite scanRows_S, ReadFull_ok by lia.
  rewrite forRange_first_panics; [reflexivity | lia |].
  unfold pixel16. rewrite color16_wide by exact Hany. reflexivity.
Qed.

Lemma decode16_wide_mask_panics_witness :
  decodePixelData (streamInfo wideMask16) [] (mkReader wideMask16 70) = None.
Proof.
  apply (decode16_wide_mask_panics (streamInfo wideMask16) []
           (mkReader wideMask16 70) 0x0001FFFF 0 17);
    vm_compute; intuition discriminate.
Defined.

(** ** 32 bits under bit-fields compression *)

(** X18. A 32-bit image under bit-fields compression whose pixel
    buffer is within the allocation limit, on a stream that holds its
    scanlines, [maskShift] giving the shifts [rs], [gs], [bs'], [as']
    for the four masks of the header: [decodePixelData]
    returns without error a [width x |height|] image and leaves the
    stream right after the last scanline.  With [p] the little-endian
    word at [x * 4] of scanline [y], each channel of the pixel (stored
    at row [|height|-1-y] under a positive declared height, at row [y]
    under a negative one) is the low 8 bits of [(p & mask) >> shift]:
    a mask wider than 8 bits loses its high bits and a narrower one is
    not scaled up; alpha is 255 when the alpha mask is zero. *)
Theorem decode32_bit_fields (info : InfoHeader) (palette : list RGBA)
    (bs : list byte) (base : Z) (rs rw gs gw bs' bw as' aw : Z) :
  BitCount info = 32 -> Compression info = biBitFields ->
  maskShift (RedMask info) = Some (rs, rw) ->
  maskShift (GreenMask info) = Some (gs, gw) ->
  maskShift (BlueMask info) = Some (bs', bw) ->
  maskShift (AlphaMask info) = Some (as', aw) ->
  0 <= Width info -> 0 <= base ->
  base + absHeight info * (Width info * 4) <= Z.of_nat (length bs) ->
  4 * (Width info * absHeight info) <= maxAlloc ->
  exists img,
    decodePixelData info palette (mkReader bs base) =
      Some ((Some (ImgRGBA img), None),
            mkReader bs (base + absHeight info * (Width info * 4))) /\
    rgba_rect img = mkRect 0 0 (Width info) (absHeight info) /\
    forall x y, 0 <= x < Width info -> 0 <= y < absHeight info ->
      let o := base + y * (Width info * 4) + x * 4 in
      let p := byteAt bs o + 256 * (byteAt bs (o + 1) +
               256 * (byteAt bs (o + 2) + 256 * byteAt bs (o + 3))) in
      RGBAAt img x (targetRow info (absHeight info) y) =
      mkRGBA (Z.shiftr (Z.land p (RedMask info)) rs mod 256)
             (Z.shiftr (Z.land p (GreenMask info)) gs mod 256)
             (Z.shiftr (Z.land p (BlueMask info)) bs' mod 256)
             (if AlphaMask info =? 0 then 255
              else Z.shiftr (Z.land p (AlphaMask info)) as' mod 256).
Proof.
  intros Hbc Hcomp Hr Hg Hb Ha Hw Hbase Hdata Hlen.
  pose proof (absHeight_nonneg info) as Hh.
  unfold decodePixelData. rewrite Hbc. cbn [Z.eqb Pos.eqb orb].
  rewrite Rect_nonneg by lia. rewrite orPanic_bind.
  rewrite NewRGBA_fits by nia.
  assert (Hmasks : masks32 info =
                   (RedMask info, GreenMask info, BlueMask info,
                    AlphaMask info)).
  { unfold masks32. now rewrite Hcomp, Z.eqb_refl. }
  destruct (read32BitData_spec info bs base Hw Hbase
              (RedMask info) (GreenMask info) (BlueMask info)
              (AlphaMask info) (rs, rw) (gs, gw) (bs', bw) (as', aw)
              Hmasks Hr Hg Hb Ha Hdata
              (mkRGBAImg ∅ (mkRect 0 0 (Width info) (absHeight info)))
              eq_refl) as (img & Heq & Hpix).
  exists img. split; [exact Heq|]. split.
  { now rewrite (read32BitData_rect _ _ _ _ _ _ Heq). }
  cbv zeta. intros x y Hx Hy. specialize (Hpix x y Hx Hy).
  cbn [fst snd] in Hpix. unfold bytesPerRow32 in Hpix.
  assert (Hrow : 0 <= y * (Width info * 4) /\
                 y * (Width info * 4) + Width info * 4
                 <= absHeight info * (Width info * 4)) by nia.
  pose proof (word32_scanline bs (base + y * (Width info * 4))
                (Width info * 4) ltac:(lia) ltac:(lia)
                (x * 4) ltac:(lia) ltac:(lia)) as Hword.
  unfold color32 in Hpix. rewrite Hword in Hpix.
  cbn [mbind option_bind] in Hpix. injection Hpix as <-.
  unfold uint8. change (2 ^ 8) with 256.
  replace (base + y * (Width info * 4) + x * 4 + 1)
    with (base + y * (Width info * 4) + 1 * 4 * x + 1) by lia.
  replace (base + y * (Width info * 4) + x * 4 + 2)
    with (base + y * (Width info * 4) + 1 * 4 * x + 2) by lia.
  replace (base + y * (Width info * 4) + x * 4 + 3)
    with (base + y * (Width info * 4) + 1 * 4 * x + 3) by lia.
  replace (base + y * (Width info * 4) + x * 4)
    with (base + y * (Width info * 4) + 1 * 4 * x) by lia.
  reflexivity.
Qed.

Lemma decode32_bit_fields_witness :
  exists img,
    decodePixelData
      (setMasks (setFields (newInfo 40) 1 (-2) 1 32 biBitFields)
                0x3FF00000 0x000FFC00 0x000003FF 0)
      [] (mkReader topDown24 54) =
      Some ((Some (ImgRGBA img), None), mkReader topDown24 62) /\
    rgba_rect img = mkRect 0 0 1 2 /\
    RGBAAt img 0 1 = mkRGBA 0 129 4 255.
Proof.
  destruct (decode32_bit_fields
              (setMasks (setFields (newInfo 40) 1 (-2) 1 32 biBitFields)
                        0x3FF00000 0x000FFC00 0x000003FF 0)
              [] topDown24 54 20 10 10 10 0 10 0 0)
    as (img & Heq & Hrect & Hpix);
    [reflexivity | reflexivity | reflexivity | reflexivity | reflexivity |
     reflexivity | cbn; lia | lia | vm_compute; discriminate |
     vm_compute; discriminate |].
  exists img. split; [exact Heq|]. split; [exact Hrect|].
  assert (H01 : 0 <= 0 < 1) by lia. assert (H12 : 0 <= 1 < 2) by lia.
  exact (Hpix 0 1 H01 H12).
Defined.

(** ** Images above the allocation limit *)

(** X19. [decodePixelData] allocates the image from the declared width
    and height before it reads any pixel data, and checks neither: for
    a supported depth and a non-negative width, a header whose pixel
    buffer ([pixelBytes] bytes for each of the [width * |height|]
    pixels) is above the allocation limit makes the call panic,
    whatever the stream holds. *)
Theorem oversized_image_panics (info : InfoHeader) (palette : list RGBA)
    (r : Reader) :
  BitCount info = 1 \/ BitCount info = 4 \/ BitCount info = 8 \/
  BitCount info = 16 \/ BitCount info = 24 \/ BitCount info = 32 ->
  0 <= Width info ->
  maxAlloc < pixelBytes info * (Width info * absHeight info) ->
  decodePixelData info palette r = None.
Proof.
  intros Hbc Hw Hbig. pose proof (absHeight_nonneg info) as Hh.
  assert (Hnew : forall bpp, bpp = pixelBytes info ->
            pixelBufferLength bpp
              (mkRect 0 0 (Width info) (absHeight info)) ≫= makeslice = None).
  { intros bpp ->. unfold pixelBufferLength, Dx, Dy. cbn [MinX MinY MaxX MaxY].
    rewrite !Z.sub_0_r.
    destruct (Z.ltb_spec (pixelBytes info * Width info * absHeight info)
                (2 ^ 63)); [|reflexivity].
    cbn [mbind option_bind]. unfold makeslice.
    destruct (Z.ltb_spec maxAlloc
                (pixelBytes info * Width info * absHeight info)); [|lia].
    now rewrite orb_true_r. }
  unfold decodePixelData. rewrite Rect_nonneg by lia.
  unfold pixelBytes in Hnew.
  destruct Hbc as [Hb|[Hb|[Hb|[Hb|[Hb|Hb]]]]]; rewrite Hb in *;
    cbn [Z.eqb Pos.eqb orb] in *; rewrite orPanic_bind;
    unfold NewPaletted, NewRGBA64, NewRGBA;
    specialize (Hnew _ eq_refl);
    destruct (pixelBufferLength _ _) as [n|]; cbn [mbind option_bind] in *;
    try reflexivity; rewrite Hnew; reflexivity.
Qed.

Lemma oversized_image_panics_witness :
  decodePixelData (plainInfo (2 ^ 20) (- 2 ^ 30) 24) [] (mkReader [] 0) = None.
Proof.
  apply (oversized_image_panics (plainInfo (2 ^ 20) (- 2 ^ 30) 24) []
           (mkReader [] 0));
    vm_compute; intuition discriminate.
Defined.
